(** * Fragment canvas: store, viewport, selection

    A shallow embedding of the fragment store
    ([src/core/fragment_manager.py]), the rectangle selection tool
    ([src/ui/selection_tool.py]) and the viewport and mouse handlers of
    the canvas ([src/ui/canvas_widget.py]), with the properties the
    design document states about them.

    Numbers.  Python [float]s are idealised as exact rationals ([Q]):
    binary64 rounding is not part of the model.  Python [int(x)] is
    truncation toward zero ([py_int]), [x % y] on floats is the floored
    remainder ([py_mod]) and [np.clip] is [np_clip].  A division by zero
    raises in Python; the functions that divide return [option] and
    [None] stands for the raised [ZeroDivisionError] (numpy scalars,
    which divide by zero to infinity, are not told apart from floats).
    Coordinates of [QPoint] and [QRect] are integers ([Z]); the 32-bit
    range of the toolkit's C [int] is not modelled. *)

From Stdlib Require Import ZArith QArith Qround Qabs Qminmax Lia Lqa.
From stdpp Require Import base option list strings gmap.

Local Open Scope Z_scope.

(** ** Python numerics *)

Module Py.

(** [int(x)] for a float [x]: truncation toward zero. *)
Definition py_int (q : Q) : Z := Z.quot (Qnum q) (Zpos (Qden q)).

(** [float(n)] for an int [n]. *)
Definition py_float (n : Z) : Q := inject_Z n.

(** [a % b] on floats: the result has the sign of [b]
    ([a - b * floor(a / b)]). *)
Definition py_mod (a b : Q) : Q := (a - b * inject_Z (Qfloor (a / b)))%Q.

(** [np.clip(x, lo, hi)] is [minimum(maximum(x, lo), hi)]. *)
Definition np_clip (x lo hi : Q) : Q := Qmin (Qmax x lo) hi.

(** [a == b] on floats. *)
Definition float_eqb (a b : Q) : bool := Qeq_bool a b.

(** [a / b] on floats: raises [ZeroDivisionError] when [b] is zero. *)
Definition py_div (a b : Q) : option Q :=
  if float_eqb b 0 then None else Some (a / b)%Q.

(** Truthiness of an [Optional[str]]: [None] and the empty string are
    falsy. *)
Definition truthy (s : option string) : bool :=
  match s with
  | Some EmptyString => false
  | Some _ => true
  | None => false
  end.

(** [a < b] on floats. *)
Definition float_ltb (a b : Q) : bool := negb (Qle_bool b a).

End Py.
Import Py.

(** ** Fragments *)

Module Fragment.

(** Modelled from the spec: the fragment type of [src/core/fragment.py],
    which is not among the sources.  The fields are those of the data
    model that the store, the selection tool and the canvas read or
    write; [image_data] keeps only the shape of the pixel buffer. *)
Record t : Type := mk {
  id : string;
  name : string;
  file_path : string;
  image_data : option (Z * Z * Z);
  x : Q;
  y : Q;
  rotation : Q;
  flip_horizontal : bool;
  flip_vertical : bool;
  visible : bool;
  selected : bool;
  opacity : Q;
  cache_valid : bool
}.

(** Attribute assignments [fragment.field = v]. *)
Definition set_x (v : Q) (f : t) : t :=
  mk (id f) (name f) (file_path f) (image_data f) v (y f) (rotation f)
     (flip_horizontal f) (flip_vertical f) (visible f) (selected f)
     (opacity f) (cache_valid f).
Definition set_y (v : Q) (f : t) : t :=
  mk (id f) (name f) (file_path f) (image_data f) (x f) v (rotation f)
     (flip_horizontal f) (flip_vertical f) (visible f) (selected f)
     (opacity f) (cache_valid f).
Definition set_rotation (v : Q) (f : t) : t :=
  mk (id f) (name f) (file_path f) (image_data f) (x f) (y f) v
     (flip_horizontal f) (flip_vertical f) (visible f) (selected f)
     (opacity f) (cache_valid f).
Definition set_flip_horizontal (v : bool) (f : t) : t :=
  mk (id f) (name f) (file_path f) (image_data f) (x f) (y f) (rotation f)
     v (flip_vertical f) (visible f) (selected f)
     (opacity f) (cache_valid f).
Definition set_flip_vertical (v : bool) (f : t) : t :=
  mk (id f) (name f) (file_path f) (image_data f) (x f) (y f) (rotation f)
     (flip_horizontal f) v (visible f) (selected f)
     (opacity f) (cache_valid f).
Definition set_visible (v : bool) (f : t) : t :=
  mk (id f) (name f) (file_path f) (image_data f) (x f) (y f) (rotation f)
     (flip_horizontal f) (flip_vertical f) v (selected f)
     (opacity f) (cache_valid f).
Definition set_selected (v : bool) (f : t) : t :=
  mk (id f) (name f) (file_path f) (image_data f) (x f) (y f) (rotation f)
     (flip_horizontal f) (flip_vertical f) (visible f) v
     (opacity f) (cache_valid f).
Definition set_opacity (v : Q) (f : t) : t :=
  mk (id f) (name f) (file_path f) (image_data f) (x f) (y f) (rotation f)
     (flip_horizontal f) (flip_vertical f) (visible f) (selected f)
     v (cache_valid f).
Definition set_cache_valid (v : bool) (f : t) : t :=
  mk (id f) (name f) (file_path f) (image_data f) (x f) (y f) (rotation f)
     (flip_horizontal f) (flip_vertical f) (visible f) (selected f)
     (opacity f) v.

(** Modelled from the spec: [Fragment.invalidate_cache], defined in the
    absent [fragment.py].  The data model says of [cache_valid]: false
    after any rotation or flip mutation until the render cache
    recomputes. *)
Definition invalidate_cache (f : t) : t := set_cache_valid false f.

(** The record of the metadata interchange format. *)
Record data : Type := mk_data {
  d_id : string;
  d_name : string;
  d_file_path : string;
  d_x : Q;
  d_y : Q;
  d_rotation : Q;
  d_flip_horizontal : bool;
  d_flip_vertical : bool;
  d_visible : bool;
  d_opacity : Q
}.

(** Modelled from the spec: [Fragment.to_dict] and [Fragment.from_dict]
    of the absent [fragment.py].  The interchange record carries id,
    name, file path, position, rotation, flips, visibility and opacity;
    it has no pixel buffer, no selection marker and no cache. *)
Definition to_dict (f : t) : data :=
  mk_data (id f) (name f) (file_path f) (x f) (y f) (rotation f)
          (flip_horizontal f) (flip_vertical f) (visible f) (opacity f).
Definition from_dict (d : data) : t :=
  mk (d_id d) (d_name d) (d_file_path d) None (d_x d) (d_y d) (d_rotation d)
     (d_flip_horizontal d) (d_flip_vertical d) (d_visible d) false
     (d_opacity d) false.

End Fragment.

(** ** Python dictionaries keyed by strings

    A [dict] keeps its keys in insertion order, and the store reads that
    order ([list(self._fragments.keys())[0]]), so the dictionary is an
    association list with distinct keys. *)

Module Dict.
Section Dict.
Context {V : Type}.

(** [d.get(k)] *)
Fixpoint get (k : string) (d : list (string * V)) : option V :=
  match d with
  | [] => None
  | (k', v) :: d' => if decide (k' = k) then Some v else get k d'
  end.

(** [k in d] *)
Definition contains (k : string) (d : list (string * V)) : bool :=
  match get k d with Some _ => true | None => false end.

(** [d[k] = v]: an existing key keeps its place, a new key goes last. *)
Fixpoint set (k : string) (v : V) (d : list (string * V)) : list (string * V) :=
  match d with
  | [] => [(k, v)]
  | (k', v') :: d' =>
      if decide (k' = k) then (k, v) :: d' else (k', v') :: set k v d'
  end.

(** [del d[k]] for a key that is present. *)
Fixpoint del (k : string) (d : list (string * V)) : list (string * V) :=
  match d with
  | [] => []
  | (k', v') :: d' =>
      if decide (k' = k) then d' else (k', v') :: del k d'
  end.

(** [list(d.keys())] and [list(d.values())] *)
Definition keys (d : list (string * V)) : list string := d.*1.
Definition values (d : list (string * V)) : list V := d.*2.

(** The object stored under [k] is mutated in place by [g]. *)
Fixpoint mutate (g : V -> V) (k : string) (d : list (string * V)) : list (string * V) :=
  match d with
  | [] => []
  | (k', v) :: d' =>
      if decide (k' = k) then (k', g v) :: d' else (k', v) :: mutate g k d'
  end.

End Dict.
End Dict.

(** ** The fragment store ([FragmentManager])

    The store is passed explicitly: every method takes the manager and
    returns the manager it leaves behind.  The signals the methods emit
    ([fragments_changed], [fragment_selected]) notify observers outside
    the store and are not part of its state. *)

Module FragmentManager.

Record t : Type := mk {
  _fragments : list (string * Fragment.t);
  _selected_fragment_id : option string
}.

(** [__init__] *)
Definition init : t := mk [] None.

Definition get_fragment (m : t) (fragment_id : string) : option Fragment.t :=
  Dict.get fragment_id (_fragments m).

Definition get_all_fragments (m : t) : list Fragment.t :=
  Dict.values (_fragments m).

Definition get_visible_fragments (m : t) : list Fragment.t :=
  List.filter Fragment.visible (Dict.values (_fragments m)).

Definition remove_fragment (m : t) (fragment_id : string) : bool * t :=
  if Dict.contains fragment_id (_fragments m) then
    let frs := Dict.del fragment_id (_fragments m) in
    let sel :=
      if decide (_selected_fragment_id m = Some fragment_id)
      then head (Dict.keys frs)
      else _selected_fragment_id m in
    (true, mk frs sel)
  else (false, m).

Definition set_selected_fragment (m : t) (fragment_id : option string) : t :=
  (* Deselect previous fragment *)
  let frs1 :=
    match _selected_fragment_id m with
    | Some prev =>
        if truthy (Some prev) then
          match Dict.get prev (_fragments m) with
          | Some _ => Dict.mutate (Fragment.set_selected false) prev (_fragments m)
          | None => _fragments m
          end
        else _fragments m
    | None => _fragments m
    end in
  (* Select new fragment *)
  let frs2 :=
    match fragment_id with
    | Some new =>
        if truthy (Some new) && Dict.contains new frs1
        then Dict.mutate (Fragment.set_selected true) new frs1
        else frs1
    | None => frs1
    end in
  mk frs2 fragment_id.

Definition get_selected_fragment_id (m : t) : option string :=
  _selected_fragment_id m.

Definition get_selected_fragment (m : t) : option Fragment.t :=
  match _selected_fragment_id m with
  | Some k => if truthy (Some k) then Dict.get k (_fragments m) else None
  | None => None
  end.

(** The common shape of the mutators: look the fragment up, and when it
    is there mutate it in place. *)
Definition with_fragment (g : Fragment.t -> Fragment.t) (m : t) (fragment_id : string) : t :=
  match Dict.get fragment_id (_fragments m) with
  | Some _ => mk (Dict.mutate g fragment_id (_fragments m)) (_selected_fragment_id m)
  | None => m
  end.

Definition set_fragment_visibility (m : t) (fragment_id : string) (visible : bool) : t :=
  with_fragment (Fragment.set_visible visible) m fragment_id.

Definition set_fragment_position (m : t) (fragment_id : string) (x y : Q) : t :=
  with_fragment (fun f => Fragment.set_y y (Fragment.set_x x f)) m fragment_id.

Definition translate_fragment (m : t) (fragment_id : string) (dx dy : Q) : t :=
  with_fragment
    (fun f =>
       let f1 := Fragment.set_x (Fragment.x f + dx) f in
       Fragment.set_y (Fragment.y f1 + dy) f1)
    m fragment_id.

Definition rotate_fragment (m : t) (fragment_id : string) (angle : Q) : t :=
  with_fragment
    (fun f =>
       Fragment.invalidate_cache
         (Fragment.set_rotation (py_mod (Fragment.rotation f + angle) 360) f))
    m fragment_id.

Definition set_fragment_rotation (m : t) (fragment_id : string) (angle : Q) : t :=
  with_fragment
    (fun f => Fragment.invalidate_cache (Fragment.set_rotation (py_mod angle 360) f))
    m fragment_id.

Definition flip_fragment (m : t) (fragment_id : string) (horizontal : bool) : t :=
  with_fragment
    (fun f =>
       Fragment.invalidate_cache
         (if horizontal
          then Fragment.set_flip_horizontal (negb (Fragment.flip_horizontal f)) f
          else Fragment.set_flip_vertical (negb (Fragment.flip_vertical f)) f))
    m fragment_id.

Definition set_fragment_transform (m : t) (fragment_id : string)
    (rotation : option Q) (translation : option (Q * Q))
    (flip_horizontal flip_vertical : option bool) : t :=
  with_fragment
    (fun f =>
       let '(f1, changed1) :=
         match rotation with
         | Some r => (Fragment.set_rotation (py_mod r 360) f, true)
         | None => (f, false)
         end in
       let f2 :=
         match translation with
         | Some (tx, ty) => Fragment.set_y ty (Fragment.set_x tx f1)
         | None => f1
         end in
       let '(f3, changed3) :=
         match flip_horizontal with
         | Some b => (Fragment.set_flip_horizontal b f2, true)
         | None => (f2, changed1)
         end in
       let '(f4, changed4) :=
         match flip_vertical with
         | Some b => (Fragment.set_flip_vertical b f3, true)
         | None => (f3, changed3)
         end in
       if changed4 then Fragment.invalidate_cache f4 else f4)
    m fragment_id.

(** The metadata dictionary: [fragments] may be missing,
    [selected_fragment_id] may be missing or null. *)
Record metadata : Type := mk_metadata {
  md_fragments : option (list Fragment.data);
  md_selected_fragment_id : option string;
  md_version : option string
}.

Definition export_metadata (m : t) : metadata :=
  mk_metadata (Some (Fragment.to_dict <$> Dict.values (_fragments m)))
              (_selected_fragment_id m)
              (Some "1.0"%string).

Definition import_metadata (m : t) (md : metadata) : t :=
  let frs :=
    fold_left
      (fun d fragment_data =>
         let fragment := Fragment.from_dict fragment_data in
         Dict.set (Fragment.id fragment) fragment d)
      (default [] (md_fragments md)) [] in
  let m1 := mk frs (_selected_fragment_id m) in
  match md_selected_fragment_id md with
  | Some selected_id =>
      if truthy (Some selected_id) && Dict.contains selected_id frs
      then set_selected_fragment m1 (Some selected_id)
      else m1
  | None => m1
  end.

(** The pixel-cache flag of the fragment stored under an id. *)
Definition cache_valid_of (m : t) (fragment_id : string) : option bool :=
  Fragment.cache_valid <$> get_fragment m fragment_id.

Definition rotation_of (m : t) (fragment_id : string) : option Q :=
  Fragment.rotation <$> get_fragment m fragment_id.

(** The selection marker agrees with the selection pointer: a stored
    fragment is flagged exactly when the pointer holds its key. *)
Definition selection_in_sync (m : t) : Prop :=
  ∀ k f, get_fragment m k = Some f ->
         (Fragment.selected f = true <-> _selected_fragment_id m = Some k).

(** [add_fragment_from_image].  The constructor [Fragment(...)] is in
    the absent [fragment.py]; the fragment it returns, carrying the id
    it was given, is the argument.  Returns the id and the manager. *)
Definition add_fragment_from_image (m : t) (fragment : Fragment.t) : string * t :=
  let frs := Dict.set (Fragment.id fragment) fragment (_fragments m) in
  let m1 := mk frs (_selected_fragment_id m) in
  (* Auto-select first fragment *)
  let m2 :=
    if (length frs =? 1)%nat
    then set_selected_fragment m1 (Some (Fragment.id fragment))
    else m1 in
  (Fragment.id fragment, m2).

Section CompositeBounds.

(** [Fragment.get_bounding_box], of the absent [fragment.py], is a
    parameter. *)
Variable get_bounding_box : Fragment.t -> Q * Q * Q * Q.

(** One round of the loop of [get_composite_bounds]. *)
Definition extend_bounds (acc : Q * Q * Q * Q) (fragment : Fragment.t) : Q * Q * Q * Q :=
  let '(min_x, min_y, max_x, max_y) := acc in
  let '(bbox_x, bbox_y, bbox_w, bbox_h) := get_bounding_box fragment in
  (Qmin min_x bbox_x, Qmin min_y bbox_y,
   Qmax max_x (bbox_x + bbox_w)%Q, Qmax max_y (bbox_y + bbox_h)%Q).

(** The running minima and maxima start at plus and minus infinity, so
    after the first visible fragment they are that fragment's own. *)
Definition get_composite_bounds (m : t) : Q * Q * Q * Q :=
  match _fragments m with
  | [] => (0, 0, 0, 0)%Q
  | _ :: _ =>
      match get_visible_fragments m with
      | [] => (0, 0, 0, 0)%Q
      | first :: rest =>
          let '(bbox_x, bbox_y, bbox_w, bbox_h) := get_bounding_box first in
          fold_left extend_bounds rest
                    (bbox_x, bbox_y, (bbox_x + bbox_w)%Q, (bbox_y + bbox_h)%Q)
      end
  end.

End CompositeBounds.

(** The dictionary is keyed by fragment id: the keys are distinct and
    every fragment is stored under its own id. *)
Definition keyed_by_id (m : t) : Prop :=
  NoDup (Dict.keys (_fragments m))
  ∧ ∀ k f, get_fragment m k = Some f -> Fragment.id f = k.

End FragmentManager.

(** ** The property panel ([ControlPanel])

    [on_opacity_changed] writes the opacity of [current_fragment], the
    very object the store holds; the panel's reference is the key of
    that fragment in the store. *)

Module ControlPanel.

Definition on_opacity_changed (m : FragmentManager.t)
    (current_fragment : option string) (value : Z) : FragmentManager.t :=
  match current_fragment with
  | Some k =>
      FragmentManager.with_fragment
        (Fragment.set_opacity (inject_Z value / 100)) m k
  | None => m
  end.

End ControlPanel.

(** ** Toolkit geometry ([QPoint], [QRect])

    The integer point and rectangle of the toolkit.  A [QRect] stores
    its left, top, right and bottom coordinates, all inclusive: the
    rectangle spanned by two equal corner points is one unit wide and
    one unit high.  [normalized] and [intersects] follow the toolkit's
    [qrect.cpp]. *)

Module QPoint.

Record t : Type := mk { x : Z; y : Z }.

(** [p - q] *)
Definition sub (p q : t) : t := mk (x p - x q) (y p - y q).

End QPoint.

Module QRect.

Record t : Type := mk { x1 : Z; y1 : Z; x2 : Z; y2 : Z }.

(** [QRect(topLeft, bottomRight)] *)
Definition of_points (topLeft bottomRight : QPoint.t) : t :=
  mk (QPoint.x topLeft) (QPoint.y topLeft)
     (QPoint.x bottomRight) (QPoint.y bottomRight).

(** [QRect(left, top, width, height)] *)
Definition of_xywh (left top w h : Z) : t :=
  mk left top (left + w - 1) (top + h - 1).

Definition width (r : t) : Z := x2 r - x1 r + 1.
Definition height (r : t) : Z := y2 r - y1 r + 1.

Definition isNull (r : t) : bool :=
  (x2 r =? x1 r - 1) && (y2 r =? y1 r - 1).

Definition isEmpty (r : t) : bool := (x2 r <? x1 r) || (y2 r <? y1 r).

Definition normalized (r : t) : t :=
  let '(nx1, nx2) :=
    if x2 r <? x1 r then (x2 r + 1, x1 r - 1) else (x1 r, x2 r) in
  let '(ny1, ny2) :=
    if y2 r <? y1 r then (y2 r + 1, y1 r - 1) else (y1 r, y2 r) in
  mk nx1 ny1 nx2 ny2.

(** The coordinate range [(low, high)] that [intersects] compares:
    the two ends are swapped when the extent is negative. *)
Definition span (a b : Z) : Z * Z :=
  if b - a + 1 <? 0 then (b, a) else (a, b).

Definition intersects (r s : t) : bool :=
  if isNull r || isNull s then false
  else
    let '(l1, r1) := span (x1 r) (x2 r) in
    let '(l2, r2) := span (x1 s) (x2 s) in
    if (r2 <? l1) || (r1 <? l2) then false
    else
      let '(t1, b1) := span (y1 r) (y2 r) in
      let '(t2, b2) := span (y1 s) (y2 s) in
      if (b2 <? t1) || (b1 <? t2) then false
      else true.

End QRect.

(** ** The rectangle selection tool ([SelectionTool]) *)

Module SelectionTool.

Record t : Type := mk {
  is_active : bool;
  is_selecting : bool;
  selection_start : QPoint.t;
  selection_end : QPoint.t;
  selected_fragment_ids : gset string
}.

(** [__init__] *)
Definition init : t := mk false false (QPoint.mk 0 0) (QPoint.mk 0 0) ∅.

Definition set_is_active (v : bool) (s : t) : t :=
  mk v (is_selecting s) (selection_start s) (selection_end s)
     (selected_fragment_ids s).

Definition start_selection (s : t) (start_point : QPoint.t) : t :=
  mk (is_active s) true start_point start_point (selected_fragment_ids s).

Definition update_selection (s : t) (end_point : QPoint.t) : t :=
  if is_selecting s
  then mk (is_active s) (is_selecting s) (selection_start s) end_point
          (selected_fragment_ids s)
  else s.

Definition cancel_selection (s : t) : t :=
  mk (is_active s) false (selection_start s) (selection_end s)
     (selected_fragment_ids s).

Definition clear_selection (s : t) : t :=
  mk (is_active s) (is_selecting s) (selection_start s) (selection_end s) ∅.

Definition get_selection_rect (s : t) : QRect.t :=
  if is_selecting s
  then QRect.normalized (QRect.of_points (selection_start s) (selection_end s))
  else QRect.mk 0 0 (-1) (-1).

Section BoundingBox.

(** [Fragment.get_bounding_box] is defined in the absent [fragment.py];
    it is a parameter: the box [(x, y, w, h)] of a fragment in world
    units. *)
Variable get_bounding_box : Fragment.t -> Q * Q * Q * Q.

(** [QRect(int(bbox[0]), int(bbox[1]), int(bbox[2]), int(bbox[3]))] *)
Definition fragment_rect (fragment : Fragment.t) : QRect.t :=
  let '(bbox0, bbox1, bbox2, bbox3) := get_bounding_box fragment in
  QRect.of_xywh (py_int bbox0) (py_int bbox1) (py_int bbox2) (py_int bbox3).

(** The loop of [finish_selection] over the fragments. *)
Definition select_in (selection_rect : QRect.t) (fragments : list Fragment.t) : gset string :=
  fold_left
    (fun ids fragment =>
       if negb (Fragment.visible fragment) then ids
       else if QRect.intersects selection_rect (fragment_rect fragment)
            then ids ∪ {[ Fragment.id fragment ]}
            else ids)
    fragments ∅.

(** Returns the tool it leaves behind and the set of selected ids. *)
Definition finish_selection (s : t) (fragments : list Fragment.t) : t * gset string :=
  if negb (is_selecting s) then (s, selected_fragment_ids s)
  else
    let selection_rect :=
      QRect.normalized (QRect.of_points (selection_start s) (selection_end s)) in
    let ids := select_in selection_rect fragments in
    (mk (is_active s) false (selection_start s) (selection_end s) ids, ids).

End BoundingBox.

End SelectionTool.

(** ** The canvas ([CanvasWidget])

    The viewport, the interaction state and the mouse handlers.  The
    render cache, the timers and painting are left out.  A handler takes
    the canvas and returns the canvas it leaves behind together with the
    signals it emitted, in order; the slots connected to the signals
    belong to collaborators and are not run.  After a finished
    rectangle selection the canvas and the tool share one set object;
    that sharing is not modelled. *)

Module CanvasWidget.

Inductive MouseButton : Type := LeftButton | MiddleButton | RightButton.

Inductive signal : Type :=
| fragment_selected (fragment_id : string)
| fragment_moved (fragment_id : string) (x y : Q)
| viewport_changed (zoom pan_x pan_y : Q)
| delete_requested (fragment_id : string).

Record t : Type := mk {
  fragments : list Fragment.t;
  selected_fragment_id : option string;
  zoom : Q;
  pan_x : Q;
  pan_y : Q;
  min_zoom : Q;
  max_zoom : Q;
  is_panning : bool;
  is_dragging_fragment : bool;
  last_mouse_pos : QPoint.t;
  dragged_fragment_id : option string;
  drag_offset : QPoint.t;
  selection_tool : SelectionTool.t;
  group_selected_fragments : gset string;
  is_group_dragging : bool;
  group_drag_start : QPoint.t;
  group_drag_offsets : gmap string QPoint.t;
  width : Z;
  height : Z
}.

(** Attribute assignments [self.field = v]. *)
Definition set_selected_fragment_id (v : option string) (c : t) : t :=
  mk (fragments c) v (zoom c) (pan_x c) (pan_y c) (min_zoom c) (max_zoom c)
     (is_panning c) (is_dragging_fragment c) (last_mouse_pos c)
     (dragged_fragment_id c) (drag_offset c) (selection_tool c)
     (group_selected_fragments c) (is_group_dragging c) (group_drag_start c)
     (group_drag_offsets c) (width c) (height c).
Definition set_zoom (v : Q) (c : t) : t :=
  mk (fragments c) (selected_fragment_id c) v (pan_x c) (pan_y c)
     (min_zoom c) (max_zoom c) (is_panning c) (is_dragging_fragment c)
     (last_mouse_pos c) (dragged_fragment_id c) (drag_offset c)
     (selection_tool c) (group_selected_fragments c) (is_group_dragging c)
     (group_drag_start c) (group_drag_offsets c) (width c) (height c).
Definition set_pan_x (v : Q) (c : t) : t :=
  mk (fragments c) (selected_fragment_id c) (zoom c) v (pan_y c)
     (min_zoom c) (max_zoom c) (is_panning c) (is_dragging_fragment c)
     (last_mouse_pos c) (dragged_fragment_id c) (drag_offset c)
     (selection_tool c) (group_selected_fragments c) (is_group_dragging c)
     (group_drag_start c) (group_drag_offsets c) (width c) (height c).
Definition set_pan_y (v : Q) (c : t) : t :=
  mk (fragments c) (selected_fragment_id c) (zoom c) (pan_x c) v
     (min_zoom c) (max_zoom c) (is_panning c) (is_dragging_fragment c)
     (last_mouse_pos c) (dragged_fragment_id c) (drag_offset c)
     (selection_tool c) (group_selected_fragments c) (is_group_dragging c)
     (group_drag_start c) (group_drag_offsets c) (width c) (height c).
Definition set_is_panning (v : bool) (c : t) : t :=
  mk (fragments c) (selected_fragment_id c) (zoom c) (pan_x c) (pan_y c)
     (min_zoom c) (max_zoom c) v (is_dragging_fragment c) (last_mouse_pos c)
     (dragged_fragment_id c) (drag_offset c) (selection_tool c)
     (group_selected_fragments c) (is_group_dragging c) (group_drag_start c)
     (group_drag_offsets c) (width c) (height c).
Definition set_is_dragging_fragment (v : bool) (c : t) : t :=
  mk (fragments c) (selected_fragment_id c) (zoom c) (pan_x c) (pan_y c)
     (min_zoom c) (max_zoom c) (is_panning c) v (last_mouse_pos c)
     (dragged_fragment_id c) (drag_offset c) (selection_tool c)
     (group_selected_fragments c) (is_group_dragging c) (group_drag_start c)
     (group_drag_offsets c) (width c) (height c).
Definition set_last_mouse_pos (v : QPoint.t) (c : t) : t :=
  mk (fragments c) (selected_fragment_id c) (zoom c) (pan_x c) (pan_y c)
     (min_zoom c) (max_zoom c) (is_panning c) (is_dragging_fragment c) v
     (dragged_fragment_id c) (drag_offset c) (selection_tool c)
     (group_selected_fragments c) (is_group_dragging c) (group_drag_start c)
     (group_drag_offsets c) (width c) (height c).
Definition set_dragged_fragment_id (v : option string) (c : t) : t :=
  mk (fragments c) (selected_fragment_id c) (zoom c) (pan_x c) (pan_y c)
     (min_zoom c) (max_zoom c) (is_panning c) (is_dragging_fragment c)
     (last_mouse_pos c) v (drag_offset c) (selection_tool c)
     (group_selected_fragments c) (is_group_dragging c) (group_drag_start c)
     (group_drag_offsets c) (width c) (height c).
Definition set_drag_offset (v : QPoint.t) (c : t) : t :=
  mk (fragments c) (selected_fragment_id c) (zoom c) (pan_x c) (pan_y c)
     (min_zoom c) (max_zoom c) (is_panning c) (is_dragging_fragment c)
     (last_mouse_pos c) (dragged_fragment_id c) v (selection_tool c)
     (group_selected_fragments c) (is_group_dragging c) (group_drag_start c)
     (group_drag_offsets c) (width c) (height c).
Definition set_selection_tool (v : SelectionTool.t) (c : t) : t :=
  mk (fragments c) (selected_fragment_id c) (zoom c) (pan_x c) (pan_y c)
     (min_zoom c) (max_zoom c) (is_panning c) (is_dragging_fragment c)
     (last_mouse_pos c) (dragged_fragment_id c) (drag_offset c) v
     (group_selected_fragments c) (is_group_dragging c) (group_drag_start c)
     (group_drag_offsets c) (width c) (height c).
Definition set_group_selected_fragments (v : gset string) (c : t) : t :=
  mk (fragments c) (selected_fragment_id c) (zoom c) (pan_x c) (pan_y c)
     (min_zoom c) (max_zoom c) (is_panning c) (is_dragging_fragment c)
     (last_mouse_pos c) (dragged_fragment_id c) (drag_offset c)
     (selection_tool c) v (is_group_dragging c) (group_drag_start c)
     (group_drag_offsets c) (width c) (height c).
Definition set_is_group_dragging (v : bool) (c : t) : t :=
  mk (fragments c) (selected_fragment_id c) (zoom c) (pan_x c) (pan_y c)
     (min_zoom c) (max_zoom c) (is_panning c) (is_dragging_fragment c)
     (last_mouse_pos c) (dragged_fragment_id c) (drag_offset c)
     (selection_tool c) (group_selected_fragments c) v (group_drag_start c)
     (group_drag_offsets c) (width c) (height c).
Definition set_group_drag_start (v : QPoint.t) (c : t) : t :=
  mk (fragments c) (selected_fragment_id c) (zoom c) (pan_x c) (pan_y c)
     (min_zoom c) (max_zoom c) (is_panning c) (is_dragging_fragment c)
     (last_mouse_pos c) (dragged_fragment_id c) (drag_offset c)
     (selection_tool c) (group_selected_fragments c) (is_group_dragging c) v
     (group_drag_offsets c) (width c) (height c).
Definition set_group_drag_offsets (v : gmap string QPoint.t) (c : t) : t :=
  mk (fragments c) (selected_fragment_id c) (zoom c) (pan_x c) (pan_y c)
     (min_zoom c) (max_zoom c) (is_panning c) (is_dragging_fragment c)
     (last_mouse_pos c) (dragged_fragment_id c) (drag_offset c)
     (selection_tool c) (group_selected_fragments c) (is_group_dragging c)
     (group_drag_start c) v (width c) (height c).

(** [__init__], for a widget of the given size. *)
Definition init (w h : Z) : t :=
  mk [] None 1 0 0 (1 # 100) 50 false false (QPoint.mk 0 0) None (QPoint.mk 0 0)
     SelectionTool.init ∅ false (QPoint.mk 0 0) ∅ w h.

Definition set_selection_tool_active (c : t) (active : bool) : t :=
  let c1 := set_selection_tool (SelectionTool.set_is_active active (selection_tool c)) c in
  if negb active
  then set_group_selected_fragments ∅
         (set_selection_tool (SelectionTool.clear_selection (selection_tool c1)) c1)
  else c1.

Definition get_selected_fragments (c : t) : gset string :=
  if negb (bool_decide (group_selected_fragments c = ∅))
  then group_selected_fragments c
  else match selected_fragment_id c with
       | Some k => if truthy (Some k) then {[ k ]} else ∅
       | None => ∅
       end.

Definition get_fragment_by_id (c : t) (fragment_id : string) : option Fragment.t :=
  List.find (fun fragment => bool_decide (Fragment.id fragment = fragment_id))
            (fragments c).

Definition screen_to_world (c : t) (screen_pos : QPoint.t) : option QPoint.t :=
  qx ← py_div (inject_Z (QPoint.x screen_pos)) (zoom c);
  qy ← py_div (inject_Z (QPoint.y screen_pos)) (zoom c);
  Some (QPoint.mk (py_int (qx - pan_x c)) (py_int (qy - pan_y c))).


Definition zoom_to_100 (c : t) : t * list signal :=
  let c1 := set_pan_y 0 (set_pan_x 0 (set_zoom 1 c)) in
  (c1, [viewport_changed (zoom c1) (pan_x c1) (pan_y c1)]).

Definition wheelEvent (c : t) (position : QPoint.t) (angleDelta_y : Z)
  : option (t * list signal) :=
  mouse_world_before ← screen_to_world c position;
  let zoom_factor := if 0 <? angleDelta_y then (12 # 10)%Q else (1 / (12 # 10))%Q in
  let new_zoom := np_clip (zoom c * zoom_factor) (min_zoom c) (max_zoom c) in
  if negb (float_eqb new_zoom (zoom c)) then
    let c1 := set_zoom new_zoom c in
    mouse_world_after ← screen_to_world c1 position;
    let c2 :=
      set_pan_x (pan_x c1 + py_float (QPoint.x mouse_world_before
                                      - QPoint.x mouse_world_after)) c1 in
    let c3 :=
      set_pan_y (pan_y c2 + py_float (QPoint.y mouse_world_before
                                      - QPoint.y mouse_world_after)) c2 in
    Some (c3, [viewport_changed (zoom c3) (pan_x c3) (pan_y c3)])
  else Some (c, []).

Section FragmentGeometry.

(** [Fragment.get_bounding_box] and [Fragment.contains_point] are
    defined in the absent [fragment.py]; they are parameters. *)
Variable get_bounding_box : Fragment.t -> Q * Q * Q * Q.
Variable contains_point : Fragment.t -> Q -> Q -> bool.

Definition get_fragment_at_position (c : t) (x y : Q) : option Fragment.t :=
  List.find (fun fragment => Fragment.visible fragment && contains_point fragment x y)
            (rev (fragments c)).

(** The bounds loop of [zoom_to_fit] and [zoom_to_selected_fragments]:
    the running minima and maxima start at plus and minus infinity, so
    after the first fragment they are that fragment's own. *)
Definition extend_bounds (acc : Q * Q * Q * Q) (fragment : Fragment.t) : Q * Q * Q * Q :=
  let '(min_x, min_y, max_x, max_y) := acc in
  let '(bbox0, bbox1, bbox2, bbox3) := get_bounding_box fragment in
  (Qmin min_x bbox0, Qmin min_y bbox1,
   Qmax max_x (bbox0 + bbox2)%Q, Qmax max_y (bbox1 + bbox3)%Q).

Definition content_bounds (first : Fragment.t) (rest : list Fragment.t) : Q * Q * Q * Q :=
  let '(bbox0, bbox1, bbox2, bbox3) := get_bounding_box first in
  fold_left extend_bounds rest (bbox0, bbox1, (bbox0 + bbox2)%Q, (bbox1 + bbox3)%Q).

(** The part shared by the two fit operations, from the bounds on. *)
Definition fit_bounds (c : t) (bounds : Q * Q * Q * Q) : option (t * list signal) :=
  let '(min_x, min_y, max_x, max_y) := bounds in
  let content_width := (max_x - min_x)%Q in
  let content_height := (max_y - min_y)%Q in
  if Qle_bool content_width 0 || Qle_bool content_height 0 then Some (c, [])
  else
    let widget_width := inject_Z (width c) in
    let widget_height := inject_Z (height c) in
    zoom_x ← py_div widget_width content_width;
    zoom_y ← py_div widget_height content_height;
    let c1 := set_zoom (Qmin zoom_x zoom_y * (9 # 10)) c in
    let content_center_x := ((min_x + max_x) / 2)%Q in
    let content_center_y := ((min_y + max_y) / 2)%Q in
    half_w ← py_div (widget_width / 2) (zoom c1);
    let c2 := set_pan_x (half_w - content_center_x) c1 in
    half_h ← py_div (widget_height / 2) (zoom c2);
    let c3 := set_pan_y (half_h - content_center_y) c2 in
    Some (c3, [viewport_changed (zoom c3) (pan_x c3) (pan_y c3)]).

Definition zoom_to_fit (c : t) : option (t * list signal) :=
  let visible_fragments :=
    List.filter
      (fun f => Fragment.visible f
                && match Fragment.image_data f with Some _ => true | None => false end)
      (fragments c) in
  match visible_fragments with
  | [] => Some (c, [])
  | first :: rest => fit_bounds c (content_bounds first rest)
  end.

Definition zoom_to_selected_fragments (c : t) : option (t * list signal) :=
  if bool_decide (group_selected_fragments c = ∅) then Some (c, [])
  else
    let selected_fragments :=
      List.filter
        (fun f => bool_decide (Fragment.id f ∈ group_selected_fragments c)
                  && Fragment.visible f)
        (fragments c) in
    match selected_fragments with
    | [] => Some (c, [])
    | first :: rest => fit_bounds c (content_bounds first rest)
    end.

(** The offsets captured when a group drag starts: for every member of
    the group that the canvas knows,
    [QPoint(int(world_pos.x() - frag.x), int(world_pos.y() - frag.y))]. *)
Definition capture_offsets (c : t) (world_pos : QPoint.t) : gmap string QPoint.t :=
  fold_left
    (fun offsets frag_id =>
       match get_fragment_by_id c frag_id with
       | Some frag =>
           <[ frag_id :=
                QPoint.mk (py_int (inject_Z (QPoint.x world_pos) - Fragment.x frag))
                          (py_int (inject_Z (QPoint.y world_pos) - Fragment.y frag)) ]>
             offsets
       | None => offsets
       end)
    (elements (group_selected_fragments c)) ∅.

Definition mousePressEvent (c : t) (button : MouseButton) (pos : QPoint.t)
  : option (t * list signal) :=
  '(c1, emitted) ←
    match button with
    | LeftButton =>
        world_pos ← screen_to_world c pos;
        if SelectionTool.is_active (selection_tool c) then
          (* Start rectangle selection *)
          Some (set_selection_tool
                  (SelectionTool.start_selection (selection_tool c) world_pos) c,
                [])
        else
          match get_fragment_at_position c (inject_Z (QPoint.x world_pos))
                                           (inject_Z (QPoint.y world_pos)) with
          | Some clicked_fragment =>
              if bool_decide (Fragment.id clicked_fragment ∈ group_selected_fragments c)
              then
                (* Start group dragging *)
                Some (set_group_drag_offsets (capture_offsets c world_pos)
                        (set_group_drag_start world_pos
                           (set_is_group_dragging true c)),
                      [])
              else
                (* Select and start dragging single fragment *)
                let c1 :=
                  if negb (SelectionTool.is_active (selection_tool c))
                  then set_group_selected_fragments ∅ c else c in
                Some (set_drag_offset
                        (QPoint.mk
                           (py_int (inject_Z (QPoint.x world_pos)
                                    - Fragment.x clicked_fragment))
                           (py_int (inject_Z (QPoint.y world_pos)
                                    - Fragment.y clicked_fragment)))
                        (set_dragged_fragment_id (Some (Fragment.id clicked_fragment))
                           (set_is_dragging_fragment true c1)),
                      [fragment_selected (Fragment.id clicked_fragment)])
          | None =>
              (* Clear selections and start panning *)
              let c1 :=
                if negb (SelectionTool.is_active (selection_tool c))
                then set_group_selected_fragments ∅ c else c in
              Some (set_is_panning true c1, [])
          end
    | MiddleButton => Some (set_is_panning true c, [])
    | RightButton => Some (c, [])
    end;
  Some (set_last_mouse_pos pos c1, emitted).

(** The move requests of a group drag: one [fragment_moved] for every
    member of the group that has a captured offset. *)
Definition group_moves (c : t) (world_pos : QPoint.t) : list signal :=
  flat_map
    (fun frag_id =>
       match group_drag_offsets c !! frag_id with
       | Some offset =>
           [fragment_moved frag_id
              (py_float (QPoint.x world_pos - QPoint.x offset))
              (py_float (QPoint.y world_pos - QPoint.y offset))]
       | None => []
       end)
    (elements (group_selected_fragments c)).

Definition mouseMoveEvent (c : t) (pos : QPoint.t) : option (t * list signal) :=
  '(c1, emitted) ←
    (if SelectionTool.is_active (selection_tool c)
        && SelectionTool.is_selecting (selection_tool c) then
       (* Update rectangle selection *)
       world_pos ← screen_to_world c pos;
       Some (set_selection_tool
               (SelectionTool.update_selection (selection_tool c) world_pos) c,
             [])
     else if is_group_dragging c then
       (* Move group of fragments *)
       world_pos ← screen_to_world c pos;
       Some (c, group_moves c world_pos)
     else if is_dragging_fragment c && truthy (dragged_fragment_id c) then
       (* Move fragment *)
       world_pos ← screen_to_world c pos;
       Some (c, [fragment_moved (default EmptyString (dragged_fragment_id c))
                   (py_float (QPoint.x world_pos - QPoint.x (drag_offset c)))
                   (py_float (QPoint.y world_pos - QPoint.y (drag_offset c)))])
     else if is_panning c then
       (* Pan viewport *)
       let delta := QPoint.sub pos (last_mouse_pos c) in
       dx ← py_div (inject_Z (QPoint.x delta)) (zoom c);
       let c1 := set_pan_x (pan_x c + dx) c in
       dy ← py_div (inject_Z (QPoint.y delta)) (zoom c1);
       let c2 := set_pan_y (pan_y c1 + dy) c1 in
       Some (c2, [viewport_changed (zoom c2) (pan_x c2) (pan_y c2)])
     else Some (c, []));
  Some (set_last_mouse_pos pos c1, emitted).

Definition mouseReleaseEvent (c : t) : option (t * list signal) :=
  if SelectionTool.is_active (selection_tool c)
     && SelectionTool.is_selecting (selection_tool c) then
    (* Finish rectangle selection *)
    let '(tool, selected_ids) :=
      SelectionTool.finish_selection get_bounding_box (selection_tool c) (fragments c) in
    let c1 := set_group_selected_fragments selected_ids (set_selection_tool tool c) in
    '(c2, emitted) ←
      (if negb (bool_decide (selected_ids = ∅))
       then zoom_to_selected_fragments c1
       else Some (c1, []));
    Some (c2, emitted ++ [fragment_selected "group_selection"])
  else
    Some (set_group_drag_offsets ∅
            (set_dragged_fragment_id None
               (set_is_group_dragging false
                  (set_is_dragging_fragment false
                     (set_is_panning false c)))),
          []).

End FragmentGeometry.

Definition set_fragments (v : list Fragment.t) (c : t) : t :=
  mk v (selected_fragment_id c) (zoom c) (pan_x c) (pan_y c) (min_zoom c)
     (max_zoom c) (is_panning c) (is_dragging_fragment c) (last_mouse_pos c)
     (dragged_fragment_id c) (drag_offset c) (selection_tool c)
     (group_selected_fragments c) (is_group_dragging c) (group_drag_start c)
     (group_drag_offsets c) (width c) (height c).

(** [set_selected_fragment] of the canvas. *)
Definition set_selected_fragment (c : t) (fragment_id : option string) : t :=
  if negb (bool_decide (selected_fragment_id c = fragment_id))
  then set_selected_fragment_id fragment_id c
  else c.

(** [get_zoom_level]: the zoom quantized for caching. *)
Definition get_zoom_level (c : t) : Q :=
  if float_ltb (zoom c) (1 # 10) then (1 # 10)%Q
  else if float_ltb (zoom c) (25 # 100) then (25 # 100)%Q
  else if float_ltb (zoom c) (5 # 10) then (5 # 10)%Q
  else if float_ltb (zoom c) 1 then 1%Q
  else if float_ltb (zoom c) 2 then 2%Q
  else Qmin (zoom c) 10.

(** [apply_transform_to_selection]: the signals it emits.  The [value]
    argument is not read. *)
Definition apply_transform_to_selection (c : t) (transform_type : string) : list signal :=
  let selected_ids := get_selected_fragments c in
  if bool_decide (selected_ids = ∅) then []
  else if (1 <? size selected_ids)%nat
          && bool_decide (transform_type ∈ ["rotate_cw"; "rotate_ccw"]%string)
  then
    flat_map
      (fun frag_id =>
         if bool_decide (transform_type = "rotate_cw"%string)
         then [fragment_selected ("group_rotate_cw:" +:+ frag_id)]
         else if bool_decide (transform_type = "rotate_ccw"%string)
         then [fragment_selected ("group_rotate_ccw:" +:+ frag_id)]
         else [])
      (elements selected_ids)
  else if (size selected_ids =? 1)%nat then
    match elements selected_ids with
    | frag_id :: _ => [fragment_selected frag_id]
    | [] => []
    end
  else [].

(** No group drag is armed: with the selection tool off the group
    selection is empty, and no group drag is in progress. *)
Definition group_drag_idle (c : t) : Prop :=
  (SelectionTool.is_active (selection_tool c) = false ->
   group_selected_fragments c = ∅)
  ∧ is_group_dragging c = false.

(** *** The render cache

    The cache fields of the canvas ([fragment_pixmaps],
    [fragment_zoom_cache], [dirty_fragments]) are kept in a record of
    their own and passed beside the canvas.  Pixmaps and images are
    opaque; of an image only the numpy shape is read.  The timers
    ([schedule_render]) and repaints are left out. *)

Section RenderCache.

Variable Pixmap : Type.
Variable Image : Type.

(** [image.shape] *)
Variable image_shape : Image -> list Z.

(** [Fragment.get_transformed_image] is defined in the absent
    [fragment.py]; it is a parameter. *)
Variable get_transformed_image : Fragment.t -> option Image.

(** [QPixmap.fromImage(QImage(image.tobytes(), width, height,
    bytes_per_line, format))], the toolkit's conversion. *)
Variable to_pixmap : Image -> Pixmap.

Record cache : Type := mk_cache {
  fragment_pixmaps : gmap string Pixmap;
  fragment_zoom_cache : gmap string Q;
  dirty_fragments : gset string
}.

(** [__init__] *)
Definition empty_cache : cache := mk_cache ∅ ∅ ∅.

(** [self.fragment_pixmaps.pop(k, None)] and
    [self.fragment_zoom_cache.pop(k, None)] *)
Definition pop_pixmap (k : string) (rc : cache) : cache :=
  mk_cache (delete k (fragment_pixmaps rc)) (delete k (fragment_zoom_cache rc))
           (dirty_fragments rc).

(** The value of [needs_update] at the end of a round of the loop of
    [update_fragments]. *)
Definition needs_update (c : t) (fragment : Fragment.t) : bool :=
  let old_fragment_ids : gset string := list_to_set (Fragment.id <$> fragments c) in
  let needs :=
    negb (bool_decide (Fragment.id fragment ∈ old_fragment_ids))
    || negb (Fragment.cache_valid fragment) in
  match get_fragment_by_id c (Fragment.id fragment) with
  | Some old_fragment =>
      let transform_changed :=
        float_ltb (1 # 100)
                  (Qabs (Fragment.rotation old_fragment - Fragment.rotation fragment))
        || negb (eqb (Fragment.flip_horizontal old_fragment)
                     (Fragment.flip_horizontal fragment))
        || negb (eqb (Fragment.flip_vertical old_fragment)
                     (Fragment.flip_vertical fragment)) in
      let visibility_changed :=
        negb (eqb (Fragment.visible old_fragment) (Fragment.visible fragment)) in
      if transform_changed || visibility_changed then true else needs
  | None => needs
  end.

(** One round of the loop of [update_fragments] over the new list. *)
Definition update_round (c : t) (rc : cache) (fragment : Fragment.t) : cache :=
  let rc1 :=
    if needs_update c fragment
    then pop_pixmap (Fragment.id fragment)
           (mk_cache (fragment_pixmaps rc) (fragment_zoom_cache rc)
                     (dirty_fragments rc ∪ {[ Fragment.id fragment ]}))
    else rc in
  (* Remove pixmap for invisible fragments *)
  if negb (Fragment.visible fragment)
  then pop_pixmap (Fragment.id fragment) rc1
  else rc1.

Definition update_fragments (c : t) (rc : cache) (new_fragments : list Fragment.t)
  : t * cache :=
  let old_fragment_ids : gset string := list_to_set (Fragment.id <$> fragments c) in
  let new_fragment_ids : gset string := list_to_set (Fragment.id <$> new_fragments) in
  (* Remove pixmaps for deleted fragments *)
  let rc1 :=
    fold_left (fun rc fragment_id => pop_pixmap fragment_id rc)
              (elements (old_fragment_ids ∖ new_fragment_ids)) rc in
  let rc2 := fold_left (update_round c) new_fragments rc1 in
  (set_fragments new_fragments c, rc2).

(** [numpy_to_pixmap].  The outer [None] stands for the [ValueError]
    that unpacking [image.shape[:2]] raises for an array of fewer than
    two dimensions. *)
Definition numpy_to_pixmap (image : Image) : option (option Pixmap) :=
  if fold_right Z.mul 1 (image_shape image) =? 0 then Some None
  else
    match image_shape image with
    | _ :: _ :: rest =>
        match rest with
        | [channels] =>
            if channels =? 4 then Some (Some (to_pixmap image))
            else if channels =? 3 then Some (Some (to_pixmap image))
            else Some None
        | _ => Some None
        end
    | _ => None
    end.

Definition render_fragment_pixmap (c : t) (rc : cache) (fragment : Fragment.t)
  : option cache :=
  match Fragment.image_data fragment with
  | None => Some rc
  | Some _ =>
      match get_transformed_image fragment with
      | None => Some rc
      | Some transformed_image =>
          converted ← numpy_to_pixmap transformed_image;
          match converted with
          | Some pixmap =>
              Some (mk_cache
                      (<[ Fragment.id fragment := pixmap ]> (fragment_pixmaps rc))
                      (<[ Fragment.id fragment := zoom c ]> (fragment_zoom_cache rc))
                      (dirty_fragments rc))
          | None => Some rc
          end
      end
  end.

(** One round of the loop of [render_dirty_fragments]. *)
Definition render_round (c : t) (acc : option cache) (fragment_id : string)
  : option cache :=
  rc ← acc;
  match get_fragment_by_id c fragment_id with
  | Some fragment =>
      if Fragment.visible fragment
      then render_fragment_pixmap c rc fragment
      else Some rc
  | None => Some rc
  end.

Definition render_dirty_fragments (c : t) (rc : cache) : option cache :=
  if bool_decide (dirty_fragments rc = ∅) then Some rc
  else
    rc1 ← fold_left (render_round c) (elements (dirty_fragments rc)) (Some rc);
    Some (mk_cache (fragment_pixmaps rc1) (fragment_zoom_cache rc1) ∅).

Definition on_fragment_rendered (rc : cache) (fragment_id : string) (pixmap : Pixmap)
  : cache :=
  mk_cache (<[ fragment_id := pixmap ]> (fragment_pixmaps rc))
           (fragment_zoom_cache rc) (dirty_fragments rc).

Definition invalidate_fragment (rc : cache) (fragment_id : string) : cache :=
  pop_pixmap fragment_id
    (mk_cache (fragment_pixmaps rc) (fragment_zoom_cache rc)
              (dirty_fragments rc ∪ {[ fragment_id ]})).

Definition clear_cache (c : t) (rc : cache) : cache :=
  mk_cache ∅ ∅
    (dirty_fragments rc
     ∪ list_to_set (Fragment.id <$> List.filter Fragment.visible (fragments c))).

(** Every zoom-cache entry belongs to a cached pixmap. *)
Definition zoom_cache_covered (rc : cache) : Prop :=
  ∀ k, is_Some (fragment_zoom_cache rc !! k) -> is_Some (fragment_pixmaps rc !! k).

(** Every cached pixmap belongs to a visible fragment the canvas
    shows. *)
Definition pixmaps_of_visible (c : t) (rc : cache) : Prop :=
  ∀ k, is_Some (fragment_pixmaps rc !! k) ->
       ∃ f, get_fragment_by_id c k = Some f ∧ Fragment.visible f = true.

End RenderCache.

Arguments mk_cache {Pixmap} _ _ _.
Arguments fragment_pixmaps {Pixmap} _.
Arguments fragment_zoom_cache {Pixmap} _.
Arguments dirty_fragments {Pixmap} _.
Arguments pop_pixmap {Pixmap} _ _.
Arguments needs_update _ _ : assert.
Arguments update_round {Pixmap} _ _ _.
Arguments update_fragments {Pixmap} _ _ _.
Arguments numpy_to_pixmap {Pixmap Image} _ _ _.
Arguments render_fragment_pixmap {Pixmap Image} _ _ _ _ _ _.
Arguments render_round {Pixmap Image} _ _ _ _ _ _.
Arguments render_dirty_fragments {Pixmap Image} _ _ _ _ _.
Arguments on_fragment_rendered {Pixmap} _ _ _.
Arguments invalidate_fragment {Pixmap} _ _.
Arguments clear_cache {Pixmap} _ _.
Arguments zoom_cache_covered {Pixmap} _.
Arguments pixmaps_of_visible {Pixmap} _ _.

End CanvasWidget.

(** ** Concrete scenes

    Small stores and canvases on which the functions above are run in
    the examples of the second part. *)

Module Scene.

Local Open Scope string_scope.

(** A fragment with a 20 by 20 pixel buffer, untransformed, visible,
    with a valid cache. *)
Definition fragment (id : string) (x y : Q) (selected : bool) : Fragment.t :=
  Fragment.mk id id (id +:+ ".png") (Some (20, 20, 4)) x y 0 false false
              true selected 1 true.

(** Two fragments; ["a"] is the primary selection. *)
Definition store_ab : FragmentManager.t :=
  FragmentManager.mk
    [("a", fragment "a" 0 0 true); ("b", fragment "b" 30 0 false)]
    (Some "a").

(** The store [remove_fragment store_ab "a"] leaves behind. *)
Definition store_b : FragmentManager.t :=
  FragmentManager.mk [("b", fragment "b" 30 0 false)] (Some "b").

(** Metadata holding one record ["c"] and a null selection. *)
Definition record_c : Fragment.data :=
  Fragment.mk_data "c" "c" "c.png" 5 5 0 false false true 1.
Definition metadata_c (selected_fragment_id : option string) : FragmentManager.metadata :=
  FragmentManager.mk_metadata (Some [record_c]) selected_fragment_id (Some "1.0").

(** For an untransformed fragment the bounding box is the pixel buffer
    placed at the fragment's position, and a point is inside the
    fragment when it is inside that box. *)
Definition bounding_box (w h : Q) (f : Fragment.t) : Q * Q * Q * Q :=
  (Fragment.x f, Fragment.y f, w, h).
Definition box_contains (w h : Q) (f : Fragment.t) (px py : Q) : bool :=
  Qle_bool (Fragment.x f) px && negb (Qle_bool (Fragment.x f + w) px)
  && Qle_bool (Fragment.y f) py && negb (Qle_bool (Fragment.y f + h) py).

(** A 1000 by 500 canvas at zoom 1 and pan (0, 0), and the same canvas
    at zoom 1/2. *)
Definition canvas : CanvasWidget.t := CanvasWidget.init 1000 500.
Definition canvas_half : CanvasWidget.t := CanvasWidget.set_zoom (1 # 2) canvas.

(** A canvas showing two fragments, ["a"] at (1/2, 0) and ["b"] at
    (10, 0), both in the group selection; the selection tool is off. *)
Definition canvas_group : CanvasWidget.t :=
  CanvasWidget.mk
    [fragment "a" (1 # 2) 0 false; fragment "b" 10 0 false] None
    1 0 0 (1 # 100) 50 false false (QPoint.mk 0 0) None (QPoint.mk 0 0)
    SelectionTool.init {[ "a"; "b" ]} false (QPoint.mk 0 0) ∅ 1000 500.

(** A canvas showing one visible fragment at the origin. *)
Definition canvas_one : CanvasWidget.t :=
  CanvasWidget.mk
    [fragment "a" 0 0 false] None
    1 0 0 (1 # 100) 50 false false (QPoint.mk 0 0) None (QPoint.mk 0 0)
    SelectionTool.init ∅ false (QPoint.mk 0 0) ∅ 1000 500.


End Scene.

(** * Properties *)

(** ** Python numerics *)

Lemma py_int_inject (n : Z) : py_int (inject_Z n) = n.
Proof. unfold py_int, inject_Z; simpl. apply Z.quot_1_r. Qed.

(** Truncation moves a number by less than one, toward zero. *)
Lemma py_int_error (q : Q) : (Qabs (inject_Z (py_int q) - q) < 1)%Q.
Proof.
  destruct q as [n d]. unfold py_int. cbn [Qnum Qden].
  pose proof (Z.quot_rem' n (Zpos d)) as Hqr.
  assert (Hrem : Z.abs (Z.rem n (Zpos d)) < Zpos d).
  { pose proof (Z.rem_bound_abs n (Zpos d)) as Hb.
    rewrite (Z.abs_eq (Zpos d)) in Hb by lia. apply Hb. lia. }
  apply Qabs_Qlt_condition.
  unfold Qlt, Qminus, Qplus, Qopp, inject_Z; simpl.
  split; nia.
Qed.

Lemma py_int_of_integer (q : Q) (n : Z) : (q == inject_Z n)%Q -> py_int q = n.
Proof.
  destruct q as [a d]. unfold Qeq, inject_Z, py_int; simpl. intros H.
  rewrite Z.mul_1_r in H. subst a. apply Z.quot_mul. lia.
Qed.


Lemma np_clip_range (x lo hi : Q) :
  (lo <= hi)%Q -> (lo <= np_clip x lo hi /\ np_clip x lo hi <= hi)%Q.
Proof.
  intros H. unfold np_clip. split.
  - apply Q.min_glb; [apply Q.le_max_r | exact H].
  - apply Q.le_min_r.
Qed.

Lemma py_div_nonzero (a b : Q) : ¬ (b == 0)%Q -> py_div a b = Some (a / b)%Q.
Proof.
  intros Hb. unfold py_div, float_eqb.
  destruct (Qeq_bool b 0) eqn:E; [|reflexivity].
  apply Qeq_bool_eq in E. contradiction.
Qed.

Lemma py_div_zero (a b : Q) : (b == 0)%Q -> py_div a b = None.
Proof.
  intros Hb. unfold py_div, float_eqb.
  rewrite (proj2 (Qeq_bool_iff b 0) Hb). reflexivity.
Qed.



(** ** Dictionaries *)

Section DictFacts.
Context {V : Type}.
Implicit Types (d : list (string * V)) (g : V -> V) (k j : string).

Lemma dict_get_mutate g k j d :
  Dict.get j (Dict.mutate g k d)
  = if decide (k = j) then g <$> Dict.get j d else Dict.get j d.
Proof.
  induction d as [|[k' v] d IH]; simpl.
  - destruct (decide (k = j)); reflexivity.
  - destruct (decide (k' = k)) as [->|Hne]; simpl.
    + destruct (decide (k = j)) as [->|Hkj]; reflexivity.
    + destruct (decide (k' = j)) as [->|Hj].
      * rewrite decide_False by congruence. reflexivity.
      * exact IH.
Qed.

Lemma dict_get_mutate_eq g k d :
  Dict.get k (Dict.mutate g k d) = g <$> Dict.get k d.
Proof. rewrite dict_get_mutate, decide_True by reflexivity. reflexivity. Qed.

Lemma dict_get_mutate_ne g k j d :
  k ≠ j -> Dict.get j (Dict.mutate g k d) = Dict.get j d.
Proof. intros H. rewrite dict_get_mutate, decide_False by assumption. reflexivity. Qed.

Lemma dict_contains_mutate g k j d :
  Dict.contains j (Dict.mutate g k d) = Dict.contains j d.
Proof.
  unfold Dict.contains. rewrite dict_get_mutate.
  destruct (decide (k = j)); [|reflexivity].
  destruct (Dict.get j d); reflexivity.
Qed.

Lemma dict_keys_mutate g k d : Dict.keys (Dict.mutate g k d) = Dict.keys d.
Proof.
  unfold Dict.keys. induction d as [|[k' v] d IH]; simpl; [reflexivity|].
  destruct (decide (k' = k)); simpl; [reflexivity|].
  f_equal. exact IH.
Qed.

Lemma dict_mutate_absent g k d : Dict.get k d = None -> Dict.mutate g k d = d.
Proof.
  induction d as [|[k' v] d IH]; simpl; [reflexivity|].
  destruct (decide (k' = k)); [discriminate|]. intros H. rewrite IH; auto.
Qed.

End DictFacts.

(** ** The fragment store *)

Section StoreFacts.
Import FragmentManager.
Implicit Types (m : FragmentManager.t) (k j : string) (f : Fragment.t).

Lemma get_with_fragment g m k j :
  get_fragment (with_fragment g m k) j
  = if decide (k = j) then g <$> get_fragment m j else get_fragment m j.
Proof.
  unfold with_fragment, get_fragment.
  destruct (Dict.get k (_fragments m)) eqn:Hk; simpl.
  - apply dict_get_mutate.
  - destruct (decide (k = j)) as [->|]; [|reflexivity].
    rewrite Hk. reflexivity.
Qed.

Lemma get_with_fragment_eq g m k f :
  get_fragment m k = Some f ->
  get_fragment (with_fragment g m k) k = Some (g f).
Proof.
  intros H. rewrite get_with_fragment, decide_True, H by reflexivity.
  reflexivity.
Qed.

(** A mutator given an unknown id leaves the store as it is. *)
Lemma with_fragment_unknown g m k :
  get_fragment m k = None -> with_fragment g m k = m.
Proof. unfold with_fragment, get_fragment. intros ->. reflexivity. Qed.

Lemma with_fragment_pointer g m k :
  _selected_fragment_id (with_fragment g m k) = _selected_fragment_id m.
Proof.
  unfold with_fragment. destruct (Dict.get k (_fragments m)); reflexivity.
Qed.

(** C1.  For a fragment of the store, writing its position
    ([set_fragment_position], [translate_fragment]), its opacity (the
    property panel's slider) or its visibility leaves [cache_valid] as
    it was, and [set_fragment_rotation], [rotate_fragment] and
    [flip_fragment] (either axis) leave [cache_valid] false. *)
Theorem cache_invalidation_policy m k f :
  get_fragment m k = Some f ->
  ∀ (x y dx dy angle : Q) (visible horizontal : bool) (value : Z),
    cache_valid_of (set_fragment_position m k x y) k = Some (Fragment.cache_valid f)
    ∧ cache_valid_of (translate_fragment m k dx dy) k = Some (Fragment.cache_valid f)
    ∧ cache_valid_of (ControlPanel.on_opacity_changed m (Some k) value) k
      = Some (Fragment.cache_valid f)
    ∧ cache_valid_of (set_fragment_visibility m k visible) k
      = Some (Fragment.cache_valid f)
    ∧ cache_valid_of (set_fragment_rotation m k angle) k = Some false
    ∧ cache_valid_of (rotate_fragment m k angle) k = Some false
    ∧ cache_valid_of (flip_fragment m k horizontal) k = Some false.
Proof.
  intros Hf x y dx dy angle visible horizontal value.
  unfold cache_valid_of, set_fragment_position, translate_fragment,
    ControlPanel.on_opacity_changed, set_fragment_visibility,
    set_fragment_rotation, rotate_fragment, flip_fragment.
  rewrite !(get_with_fragment_eq _ m k f Hf). simpl.
  repeat split; reflexivity.
Qed.

Lemma cache_invalidation_policy_example :
  let m := Scene.store_ab in
  cache_valid_of (set_fragment_position m "a" 7 8) "a" = Some true
  ∧ cache_valid_of (translate_fragment m "a" 1 1) "a" = Some true
  ∧ cache_valid_of (ControlPanel.on_opacity_changed m (Some "a"%string) 40) "a"
    = Some true
  ∧ cache_valid_of (set_fragment_visibility m "a" false) "a" = Some true
  ∧ cache_valid_of (set_fragment_rotation m "a" 45) "a" = Some false
  ∧ cache_valid_of (rotate_fragment m "a" 90) "a" = Some false
  ∧ cache_valid_of (flip_fragment m "a" true) "a" = Some false.
Proof.
  exact (cache_invalidation_policy Scene.store_ab "a"
           (Scene.fragment "a" 0 0 true) eq_refl 7 8 1 1 45 false true 40%Z).
Defined.



(** The selection pointer and every fragment after
    [set_selected_fragment]: the previously selected fragment is
    unflagged, the fragment the new id names (when it names one) is
    flagged, and the others are as they were. *)
Lemma set_selected_fragment_lookup m (fragment_id : option string) k f :
  get_fragment m k = Some f ->
  get_fragment (set_selected_fragment m fragment_id) k
  = Some (Fragment.set_selected
            (if truthy fragment_id && bool_decide (fragment_id = Some k) then true
             else if truthy (_selected_fragment_id m)
                     && bool_decide (_selected_fragment_id m = Some k) then false
             else Fragment.selected f)
            f).
Proof.
  intros Hf. unfold get_fragment in *. unfold set_selected_fragment.
  cbn [_fragments _selected_fragment_id].
  set (frs1 := match _selected_fragment_id m with Some _ => _ | None => _ end).
  assert (Heta : Fragment.set_selected (Fragment.selected f) f = f)
    by (destruct f; reflexivity).
  assert (H1 : Dict.get k frs1
               = Some (Fragment.set_selected
                         (if truthy (_selected_fragment_id m)
                             && bool_decide (_selected_fragment_id m = Some k)
                          then false else Fragment.selected f) f)).
  { subst frs1. destruct (_selected_fragment_id m) as [prev|];
      [|cbn [truthy andb]; rewrite Heta; exact Hf].
    destruct (truthy (Some prev)) eqn:Ht; cbn [andb];
      [|rewrite Heta; exact Hf].
    destruct (Dict.get prev (_fragments m)) eqn:Hp.
    - rewrite dict_get_mutate, Hf.
      destruct (decide (prev = k)) as [->|Hne].
      + rewrite bool_decide_eq_true_2 by reflexivity. reflexivity.
      + rewrite bool_decide_eq_false_2 by congruence. rewrite Heta. reflexivity.
    - rewrite bool_decide_eq_false_2; [rewrite Heta; exact Hf|].
      intros [= ->]. congruence. }
  destruct fragment_id as [new|]; [|exact H1].
  destruct (truthy (Some new)) eqn:Hn; cbn [andb]; [|exact H1].
  destruct (Dict.contains new frs1) eqn:Hc.
  - rewrite dict_get_mutate, H1.
    destruct (decide (new = k)) as [->|Hne].
    + rewrite (bool_decide_eq_true_2 (Some k = Some k)) by reflexivity.
      reflexivity.
    + rewrite (bool_decide_eq_false_2 (Some new = Some k)) by congruence.
      reflexivity.
  - rewrite H1. rewrite (bool_decide_eq_false_2 (Some new = Some k)); [reflexivity|].
    intros [= ->]. unfold Dict.contains in Hc. rewrite H1 in Hc. discriminate.
Qed.


Lemma set_selected_fragment_keys m (fragment_id : option string) :
  Dict.keys (_fragments (set_selected_fragment m fragment_id))
  = Dict.keys (_fragments m).
Proof.
  unfold set_selected_fragment. cbn [_fragments _selected_fragment_id].
  set (frs1 := match _selected_fragment_id m with Some _ => _ | None => _ end).
  assert (H1 : Dict.keys frs1 = Dict.keys (_fragments m)).
  { subst frs1. destruct (_selected_fragment_id m) as [prev|]; [|reflexivity].
    destruct (truthy (Some prev)); [|reflexivity].
    destruct (Dict.get prev (_fragments m)); [|reflexivity].
    apply dict_keys_mutate. }
  destruct fragment_id as [new|]; [|exact H1].
  destruct (truthy (Some new) && Dict.contains new frs1); [|exact H1].
  rewrite dict_keys_mutate. exact H1.
Qed.

(** C9 as the design document words it fails: selecting an id the store
    does not know is not a no-op.  On the store of ["a"] (selected) and
    ["b"], selecting ["zzz"] moves the pointer to ["zzz"] and unflags
    ["a"]. *)
Lemma select_unknown_changes_store :
  get_fragment Scene.store_ab "zzz" = None
  ∧ set_selected_fragment Scene.store_ab (Some "zzz"%string) ≠ Scene.store_ab
  ∧ _selected_fragment_id (set_selected_fragment Scene.store_ab (Some "zzz"%string))
    = Some "zzz"%string
  ∧ Fragment.selected
      <$> get_fragment (set_selected_fragment Scene.store_ab (Some "zzz"%string)) "a"
    = Some false.
Proof.
  split; [reflexivity|]. split; [|split; reflexivity].
  intros H. apply (f_equal _selected_fragment_id) in H. discriminate H.
Qed.

(** C9, amended.  [set_selected_fragment] stores the given id (or
    [None]) in the selection pointer whether or not it names a fragment,
    keeps the fragments and their order, clears the [selected] flag of
    the previously selected fragment and sets the flag of the fragment
    the id names when the store holds it; every other fragment, and
    every other field, is unchanged.  With an unknown id no fragment is
    flagged by the call. *)
Theorem set_selected_fragment_effect m (fragment_id : option string) :
  _selected_fragment_id (set_selected_fragment m fragment_id) = fragment_id
  ∧ Dict.keys (_fragments (set_selected_fragment m fragment_id))
    = Dict.keys (_fragments m)
  ∧ (∀ k f, get_fragment m k = Some f ->
       get_fragment (set_selected_fragment m fragment_id) k
       = Some (Fragment.set_selected
                 (if truthy fragment_id && bool_decide (fragment_id = Some k)
                  then true
                  else if truthy (_selected_fragment_id m)
                          && bool_decide (_selected_fragment_id m = Some k)
                  then false
                  else Fragment.selected f)
                 f)).
Proof.
  split; [reflexivity|]. split; [apply set_selected_fragment_keys|].
  intros k f. apply set_selected_fragment_lookup.
Qed.

Lemma set_selected_fragment_effect_example :
  get_fragment (set_selected_fragment Scene.store_ab (Some "b"%string)) "a"
  = Some (Scene.fragment "a" 0 0 false)
  ∧ get_fragment (set_selected_fragment Scene.store_ab (Some "b"%string)) "b"
    = Some (Scene.fragment "b" 30 0 true).
Proof.
  pose proof (set_selected_fragment_effect Scene.store_ab (Some "b"%string))
    as (_ & _ & H).
  split.
  - exact (H "a"%string (Scene.fragment "a" 0 0 true) eq_refl).
  - exact (H "b"%string (Scene.fragment "b" 30 0 false) eq_refl).
Defined.

(** The marker and the pointer agree on [store_ab]. *)
Lemma store_ab_in_sync : selection_in_sync Scene.store_ab.
Proof.
  intros k f. unfold get_fragment, Scene.store_ab. simpl.
  destruct (decide ("a"%string = k)) as [<-|Ha].
  - intros [= <-]. simpl. split; reflexivity.
  - destruct (decide ("b"%string = k)) as [<-|Hb]; [|discriminate].
    intros [= <-]. simpl. split; [discriminate|]. intros H. discriminate H.
Qed.

(** An id the store does not hold is still not held afterwards. *)
Lemma set_selected_fragment_lookup_none m (fragment_id : option string) k :
  get_fragment m k = None ->
  get_fragment (set_selected_fragment m fragment_id) k = None.
Proof.
  intros Hf. unfold get_fragment in *. unfold set_selected_fragment.
  cbn [_fragments _selected_fragment_id].
  set (frs1 := match _selected_fragment_id m with Some _ => _ | None => _ end).
  assert (H1 : Dict.get k frs1 = None).
  { subst frs1. destruct (_selected_fragment_id m) as [prev|]; [|exact Hf].
    destruct (truthy (Some prev)); [|exact Hf].
    destruct (Dict.get prev (_fragments m)); [|exact Hf].
    rewrite dict_get_mutate, Hf. destruct (decide (prev = k)); reflexivity. }
  destruct fragment_id as [new|]; [|exact H1].
  destruct (truthy (Some new) && Dict.contains new frs1); [|exact H1].
  rewrite dict_get_mutate, H1. destruct (decide (new = k)); reflexivity.
Qed.

(** With pointers other than the empty id (which Python reads as
    false), selecting keeps marker and pointer in agreement, and so does
    every mutator that leaves the marker alone. *)
Lemma truthy_Some k : k ≠ EmptyString -> truthy (Some k) = true.
Proof. destruct k; [congruence | reflexivity]. Qed.

Lemma set_selected_fragment_in_sync m (fragment_id : option string) :
  selection_in_sync m ->
  _selected_fragment_id m ≠ Some EmptyString ->
  fragment_id ≠ Some EmptyString ->
  selection_in_sync (set_selected_fragment m fragment_id).
Proof.
  intros Hsync Hprev Hnew k f' Hk.
  destruct (get_fragment m k) as [f|] eqn:Hf;
    [|rewrite set_selected_fragment_lookup_none in Hk by assumption; discriminate].
  rewrite (set_selected_fragment_lookup m fragment_id k f Hf) in Hk.
  injection Hk as <-.
  change (_selected_fragment_id (set_selected_fragment m fragment_id))
    with fragment_id.
  cbn [Fragment.selected Fragment.set_selected].
  destruct (decide (fragment_id = Some k)) as [->|Hne].
  - rewrite truthy_Some, bool_decide_eq_true_2 by congruence.
    split; reflexivity.
  - rewrite (bool_decide_eq_false_2 (fragment_id = Some k)), andb_false_r
      by assumption.
    split; [|intros; congruence]. intros Hsel. exfalso.
    destruct (decide (_selected_fragment_id m = Some k)) as [Hp|Hp].
    + rewrite Hp, truthy_Some, bool_decide_eq_true_2 in Hsel by congruence.
      discriminate.
    + rewrite (bool_decide_eq_false_2 _ Hp), andb_false_r in Hsel.
      apply Hp, (Hsync k f Hf), Hsel.
Qed.

Lemma with_fragment_in_sync g m k :
  (∀ f, Fragment.selected (g f) = Fragment.selected f) ->
  selection_in_sync m -> selection_in_sync (with_fragment g m k).
Proof.
  intros Hg Hsync j f' Hj. rewrite with_fragment_pointer.
  rewrite get_with_fragment in Hj.
  destruct (decide (k = j)) as [->|Hne]; [|exact (Hsync j f' Hj)].
  destruct (get_fragment m j) as [f|] eqn:Hf; [|discriminate].
  injection Hj as <-. rewrite Hg. exact (Hsync j f Hf).
Qed.

(** C7.  The agreement of marker and pointer is not preserved by
    [remove_fragment]: on the store of ["a"] (selected) and ["b"], where
    marker and pointer agree, removing ["a"] moves the pointer to ["b"]
    and leaves the [selected] flag of ["b"] false.  Selecting ["b"]
    through [set_selected_fragment] on the same store keeps the
    agreement. *)
Theorem remove_selected_breaks_sync :
  selection_in_sync Scene.store_ab
  ∧ remove_fragment Scene.store_ab "a" = (true, Scene.store_b)
  ∧ _selected_fragment_id Scene.store_b = Some "b"%string
  ∧ Fragment.selected <$> get_fragment Scene.store_b "b" = Some false
  ∧ ¬ selection_in_sync Scene.store_b
  ∧ selection_in_sync (set_selected_fragment Scene.store_ab (Some "b"%string)).
Proof.
  split; [exact store_ab_in_sync|].
  split; [reflexivity|]. split; [reflexivity|]. split; [reflexivity|].
  split.
  - intros H.
    destruct (H "b"%string (Scene.fragment "b" 30 0 false) eq_refl) as [_ Hflag].
    specialize (Hflag eq_refl). discriminate Hflag.
  - apply set_selected_fragment_in_sync;
      [exact store_ab_in_sync | discriminate | discriminate].
Qed.

(** C10.  [import_metadata] replaces the fragments but does not reset
    the selection pointer: importing one record ["c"] with a null, or an
    unknown, [selected_fragment_id] into the store whose selection is
    ["a"] leaves the pointer at ["a"], an id the store no longer
    holds. *)
Theorem import_keeps_stale_pointer :
  Dict.keys (_fragments (import_metadata Scene.store_ab (Scene.metadata_c None)))
  = ["c"%string]
  ∧ _selected_fragment_id (import_metadata Scene.store_ab (Scene.metadata_c None))
    = Some "a"%string
  ∧ get_fragment (import_metadata Scene.store_ab (Scene.metadata_c None)) "a" = None
  ∧ _selected_fragment_id
      (import_metadata Scene.store_ab (Scene.metadata_c (Some "zzz"%string)))
    = Some "a"%string.
Proof. repeat split; reflexivity. Qed.

End StoreFacts.

(** ** The viewport *)

Section ViewportFacts.
Import CanvasWidget.
Implicit Types (c : CanvasWidget.t).

Lemma screen_to_world_nonzero c (s : QPoint.t) :
  ¬ (zoom c == 0)%Q ->
  screen_to_world c s
  = Some (QPoint.mk (py_int (inject_Z (QPoint.x s) / zoom c - pan_x c))
                    (py_int (inject_Z (QPoint.y s) / zoom c - pan_y c))).
Proof.
  intros Hz. unfold screen_to_world.
  rewrite !py_div_nonzero by exact Hz. reflexivity.
Qed.

Lemma screen_to_world_zero c (s : QPoint.t) :
  (zoom c == 0)%Q -> screen_to_world c s = None.
Proof.
  intros Hz. unfold screen_to_world. rewrite !py_div_zero by exact Hz.
  reflexivity.
Qed.

Lemma Qle_bool_false (a b : Q) : (b < a)%Q -> Qle_bool a b = false.
Proof.
  intros H. destruct (Qle_bool a b) eqn:E; [|reflexivity].
  apply Qle_bool_iff in E. lra.
Qed.

Lemma fit_bounds_writes c (min_x min_y max_x max_y : Q) :
  (0 < max_x - min_x)%Q -> (0 < max_y - min_y)%Q ->
  0 < width c -> 0 < height c ->
  ∃ c' emitted,
    fit_bounds c (min_x, min_y, max_x, max_y) = Some (c', emitted)
    ∧ zoom c' = (Qmin (inject_Z (width c) / (max_x - min_x))
                      (inject_Z (height c) / (max_y - min_y)) * (9 # 10))%Q
    ∧ min_zoom c' = min_zoom c ∧ max_zoom c' = max_zoom c.
Proof.
  intros Hw Hh HW HH. unfold fit_bounds.
  rewrite (Qle_bool_false _ _ Hw), (Qle_bool_false _ _ Hh). cbn [orb].
  rewrite !py_div_nonzero by lra. cbn [mbind option_bind].
  set (z := (Qmin _ _ * (9 # 10))%Q).
  assert (Hz : (0 < z)%Q).
  { subst z.
    assert (H1 : (0 < inject_Z (width c) / (max_x - min_x))%Q).
    { apply Qlt_shift_div_l; [exact Hw|]. rewrite Qmult_0_l.
      change 0%Q with (inject_Z 0). rewrite <- Zlt_Qlt. exact HW. }
    assert (H2 : (0 < inject_Z (height c) / (max_y - min_y))%Q).
    { apply Qlt_shift_div_l; [exact Hh|]. rewrite Qmult_0_l.
      change 0%Q with (inject_Z 0). rewrite <- Zlt_Qlt. exact HH. }
    apply Q.min_case_strong; intros; try lra.
    all: match goal with H : (_ == _)%Q |- _ => rewrite <- H; assumption end. }
  cbn [zoom set_zoom set_pan_x set_pan_y].
  rewrite !py_div_nonzero by lra. cbn [mbind option_bind].
  eexists _, _. split; [reflexivity|]. repeat split; reflexivity.
Qed.

Lemma wheelEvent_clamped c (position : QPoint.t) (angleDelta_y : Z) :
  (0 < min_zoom c)%Q -> (min_zoom c <= max_zoom c)%Q -> ¬ (zoom c == 0)%Q ->
  ∃ c' emitted,
    wheelEvent c position angleDelta_y = Some (c', emitted)
    ∧ min_zoom c' = min_zoom c ∧ max_zoom c' = max_zoom c
    ∧ (zoom c' == np_clip (zoom c * (if 0 <? angleDelta_y
                                     then 12 # 10 else 1 / (12 # 10)))
                          (min_zoom c) (max_zoom c))%Q
    ∧ (min_zoom c <= zoom c')%Q ∧ (zoom c' <= max_zoom c)%Q.
Proof.
  intros Hmin Hle Hz. unfold wheelEvent.
  rewrite (screen_to_world_nonzero c position Hz). cbn [mbind option_bind].
  set (new_zoom := np_clip _ (min_zoom c) (max_zoom c)).
  destruct (np_clip_range (zoom c * (if 0 <? angleDelta_y
                                     then 12 # 10 else 1 / (12 # 10)))
                          (min_zoom c) (max_zoom c) Hle) as [Hlo Hhi].
  fold new_zoom in Hlo, Hhi.
  destruct (float_eqb new_zoom (zoom c)) eqn:E; cbn [negb].
  - apply Qeq_bool_eq in E.
    eexists _, _. split; [reflexivity|]. split; [reflexivity|].
    split; [reflexivity|]. rewrite <- E. split; [reflexivity|]. split; assumption.
  - rewrite (screen_to_world_nonzero (set_zoom new_zoom c) position)
      by (cbn [zoom set_zoom]; lra).
    cbn [mbind option_bind].
    eexists _, _. split; [reflexivity|]. cbn.
    split; [reflexivity|]. split; [reflexivity|].
    split; [reflexivity|]. split; assumption.
Qed.

(** C2.  The wheel zoom does not keep the world point under the cursor:
    on the canvas at zoom 1 and pan (0, 0), wheeling up at the screen
    point (120, 60) gives zoom 1.2, strictly inside the clamp, and pan
    (20, 10); the point under the cursor was (120, 60) before and is
    (80, 40) after.  The handler adds [before - after] to the pan, while
    [world = screen / zoom - pan] calls for subtracting it. *)
Theorem wheel_zoom_moves_point_under_cursor :
  screen_to_world Scene.canvas (QPoint.mk 120 60) = Some (QPoint.mk 120 60)
  ∧ ∃ c',
      wheelEvent Scene.canvas (QPoint.mk 120 60) 120
      = Some (c', [viewport_changed (12 # 10) 20 10])
      ∧ ¬ (zoom c' == zoom Scene.canvas)%Q
      ∧ (min_zoom c' < zoom c')%Q ∧ (zoom c' < max_zoom c')%Q
      ∧ screen_to_world c' (QPoint.mk 120 60) = Some (QPoint.mk 80 40).
Proof.
  split; [reflexivity|]. eexists. split; [vm_compute; reflexivity|].
  split; [discriminate|]. repeat split.
Qed.




(** C8 as the design document words it fails: fit-to-content writes the
    zoom without clamping.  A visible fragment with a 10 by 5 bounding
    box on a 1000 by 500 canvas gets zoom [min(100, 100) * 0.9 = 90],
    above the maximum of 50. *)
Lemma zoom_to_fit_exceeds_max_zoom :
  ∃ c' emitted,
    zoom_to_fit (Scene.bounding_box 10 5) Scene.canvas_one = Some (c', emitted)
    ∧ (zoom c' == 90)%Q
    ∧ (max_zoom c' == 50)%Q
    ∧ ¬ (zoom c' <= max_zoom c')%Q.
Proof.
  eexists _, _. split; [vm_compute; reflexivity|].
  split; [reflexivity|]. split; [reflexivity|].
  intros H. apply Qle_bool_iff in H. discriminate H.
Qed.

(** C8, amended.  A wheel zoom (on a canvas with a nonzero zoom and
    [0 < min_zoom <= max_zoom]) leaves the zoom at the clamped product,
    within [[min_zoom, max_zoom]], and reset writes zoom 1.
    Fit-to-content and zoom-to-selection, when the content has positive
    width and height and the widget a positive size, write
    [min(widget_w / content_w, widget_h / content_h) * 0.9] as it is,
    without clamping. *)
Theorem zoom_writes (get_bounding_box : Fragment.t -> Q * Q * Q * Q) c :
  (∀ (position : QPoint.t) (angleDelta_y : Z),
     (0 < min_zoom c)%Q -> (min_zoom c <= max_zoom c)%Q -> ¬ (zoom c == 0)%Q ->
     ∃ c' emitted,
       wheelEvent c position angleDelta_y = Some (c', emitted)
       ∧ min_zoom c' = min_zoom c ∧ max_zoom c' = max_zoom c
       ∧ (zoom c' == np_clip (zoom c * (if 0 <? angleDelta_y
                                        then 12 # 10 else 1 / (12 # 10)))
                             (min_zoom c) (max_zoom c))%Q
       ∧ (min_zoom c <= zoom c')%Q ∧ (zoom c' <= max_zoom c)%Q)
  ∧ zoom (zoom_to_100 c).1 = 1%Q
  ∧ (∀ first rest min_x min_y max_x max_y,
       List.filter
         (fun f => Fragment.visible f
                   && match Fragment.image_data f with
                      | Some _ => true
                      | None => false
                      end)
         (fragments c) = first :: rest ->
       content_bounds get_bounding_box first rest = (min_x, min_y, max_x, max_y) ->
       (0 < max_x - min_x)%Q -> (0 < max_y - min_y)%Q ->
       0 < width c -> 0 < height c ->
       ∃ c' emitted,
         zoom_to_fit get_bounding_box c = Some (c', emitted)
         ∧ zoom c' = (Qmin (inject_Z (width c) / (max_x - min_x))
                           (inject_Z (height c) / (max_y - min_y)) * (9 # 10))%Q)
  ∧ (∀ first rest min_x min_y max_x max_y,
       group_selected_fragments c ≠ ∅ ->
       List.filter
         (fun f => bool_decide (Fragment.id f ∈ group_selected_fragments c)
                   && Fragment.visible f)
         (fragments c) = first :: rest ->
       content_bounds get_bounding_box first rest = (min_x, min_y, max_x, max_y) ->
       (0 < max_x - min_x)%Q -> (0 < max_y - min_y)%Q ->
       0 < width c -> 0 < height c ->
       ∃ c' emitted,
         zoom_to_selected_fragments get_bounding_box c = Some (c', emitted)
         ∧ zoom c' = (Qmin (inject_Z (width c) / (max_x - min_x))
                           (inject_Z (height c) / (max_y - min_y)) * (9 # 10))%Q).
Proof.
  split; [intros position d; apply wheelEvent_clamped|].
  split; [reflexivity|].
  split.
  - intros first rest min_x min_y max_x max_y Hfilter Hbounds Hw Hh HW HH.
    unfold zoom_to_fit. rewrite Hfilter, Hbounds.
    destruct (fit_bounds_writes c min_x min_y max_x max_y Hw Hh HW HH)
      as (c' & emitted & Hfit & Hzoom & _).
    exists c', emitted. split; assumption.
  - intros first rest min_x min_y max_x max_y Hgroup Hfilter Hbounds Hw Hh HW HH.
    unfold zoom_to_selected_fragments.
    rewrite bool_decide_eq_false_2 by exact Hgroup.
    rewrite Hfilter, Hbounds.
    destruct (fit_bounds_writes c min_x min_y max_x max_y Hw Hh HW HH)
      as (c' & emitted & Hfit & Hzoom & _).
    exists c', emitted. split; assumption.
Qed.

Lemma zoom_writes_example :
  (∃ c' emitted,
     wheelEvent Scene.canvas (QPoint.mk 120 60) 120 = Some (c', emitted)
     ∧ min_zoom c' = min_zoom Scene.canvas ∧ max_zoom c' = max_zoom Scene.canvas
     ∧ (zoom c' == np_clip (zoom Scene.canvas * (12 # 10))
                           (min_zoom Scene.canvas) (max_zoom Scene.canvas))%Q
     ∧ (min_zoom Scene.canvas <= zoom c')%Q ∧ (zoom c' <= max_zoom Scene.canvas)%Q)
  ∧ (∃ c' emitted,
       zoom_to_fit (Scene.bounding_box 200 100) Scene.canvas_one
       = Some (c', emitted)
       ∧ zoom c' = (Qmin (inject_Z 1000 / (200 - 0)) (inject_Z 500 / (100 - 0))
                    * (9 # 10))%Q).
Proof.
  pose proof (zoom_writes (Scene.bounding_box 200 100) Scene.canvas)
    as (Hwheel & _).
  pose proof (zoom_writes (Scene.bounding_box 200 100) Scene.canvas_one)
    as (_ & _ & Hfit & _).
  split.
  - apply (Hwheel (QPoint.mk 120 60) 120); [reflexivity | discriminate | discriminate].
  - apply (Hfit (Scene.fragment "a" 0 0 false) [] 0%Q 0%Q 200%Q 100%Q);
      reflexivity.
Defined.

End ViewportFacts.

(** ** Rectangle selection *)

Section SelectionFacts.
Import SelectionTool.
Variable get_bounding_box : Fragment.t -> Q * Q * Q * Q.
Implicit Types (s : SelectionTool.t) (frs : list Fragment.t) (k : string).






End SelectionFacts.


(** ** Group drag *)

Section GroupDragFacts.
Import CanvasWidget.
Variable contains_point : Fragment.t -> Q -> Q -> bool.
Implicit Types (c : CanvasWidget.t) (k : string) (f : Fragment.t).




(** What truncating the offset costs: with [o = int(w - x)], the point
    [w' - o] lies within one unit of [x + (w' - w)], and on it when [x]
    is an integer. *)
Lemma truncated_offset_error (w w' : Z) (x : Q) :
  (Qabs (py_float (w' - py_int (inject_Z w - x)) - x - inject_Z (w' - w)) < 1)%Q.
Proof.
  pose proof (py_int_error (inject_Z w - x)) as H. unfold py_float.
  rewrite <- Qabs_opp.
  assert (Heq : (- (inject_Z (w' - py_int (inject_Z w - x)) - x - inject_Z (w' - w))
                 == inject_Z (py_int (inject_Z w - x)) - (inject_Z w - x))%Q).
  { unfold Z.sub. rewrite !inject_Z_plus, !inject_Z_opp. ring. }
  rewrite Heq. exact H.
Qed.

Lemma truncated_offset_exact (w w' a : Z) (x : Q) :
  (x == inject_Z a)%Q ->
  (py_float (w' - py_int (inject_Z w - x)) - x == inject_Z (w' - w))%Q.
Proof.
  intros Hx. unfold py_float.
  rewrite (py_int_of_integer (inject_Z w - x) (w - a))
    by (rewrite Hx; unfold Z.sub; rewrite inject_Z_plus, inject_Z_opp; ring).
  rewrite Hx. unfold Z.sub. rewrite !inject_Z_plus, !inject_Z_opp, !inject_Z_plus, inject_Z_opp.
  ring.
Qed.


End GroupDragFacts.


(** * Further properties

    Properties of the store, the selection tool, the canvas handlers
    and the render cache beyond the ones above. *)

(** ** More on dictionaries *)

Section DictMoreFacts.
Context {V : Type}.
Implicit Types (d : list (string * V)) (g : V -> V) (k j : string) (v : V).

Lemma dict_get_None_keys k d : Dict.get k d = None <-> k ∉ Dict.keys d.
Proof.
  unfold Dict.keys. induction d as [|[k' v] d IH]; simpl.
  - split; [intros _ H; inversion H | reflexivity].
  - destruct (decide (k' = k)) as [->|Hne].
    + split; [discriminate|]. intros H. exfalso. apply H. left.
    + rewrite IH. rewrite not_elem_of_cons. split; [intros H; split; [auto | exact H] | tauto].
Qed.

Lemma dict_get_set k j v d :
  Dict.get j (Dict.set k v d) = if decide (k = j) then Some v else Dict.get j d.
Proof.
  induction d as [|[k' v'] d IH]; simpl.
  - destruct (decide (k = j)); reflexivity.
  - destruct (decide (k' = k)) as [->|Hne]; simpl.
    + destruct (decide (k = j)); reflexivity.
    + destruct (decide (k' = j)) as [->|Hj].
      * rewrite decide_False by congruence. reflexivity.
      * exact IH.
Qed.

Lemma dict_keys_set k v d :
  Dict.keys (Dict.set k v d)
  = if decide (k ∈ Dict.keys d) then Dict.keys d else Dict.keys d ++ [k].
Proof.
  unfold Dict.keys. induction d as [|[k' v'] d IH].
  - destruct (decide (k ∈ ([] : list (string * V)).*1)) as [H|H];
      [inversion H | reflexivity].
  - cbn [Dict.set]. destruct (decide (k' = k)) as [->|Hne].
    + destruct (decide (k ∈ ((k, v') :: d).*1)) as [H|H]; [reflexivity|].
      exfalso. apply H. left.
    + change (((k', v') :: Dict.set k v d).*1) with (k' :: (Dict.set k v d).*1).
      rewrite IH.
      change (((k', v') :: d).*1) with (k' :: d.*1).
      destruct (decide (k ∈ d.*1)) as [Hin|Hnin];
        destruct (decide (k ∈ k' :: d.*1)) as [Hin'|Hnin']; try reflexivity.
      * exfalso. apply Hnin'. right. exact Hin.
      * apply elem_of_cons in Hin' as [->|Hin']; congruence.
Qed.

Lemma dict_keys_set_NoDup k v d :
  NoDup (Dict.keys d) -> NoDup (Dict.keys (Dict.set k v d)).
Proof.
  intros H. rewrite dict_keys_set. destruct (decide (k ∈ Dict.keys d)); [exact H|].
  apply NoDup_app. split; [exact H|]. split.
  - intros x Hx Hk. apply list_elem_of_singleton in Hk. congruence.
  - apply NoDup_singleton.
Qed.

Lemma dict_keys_del k d :
  NoDup (Dict.keys d) ->
  Dict.keys (Dict.del k d) = List.filter (fun j => negb (bool_decide (j = k))) (Dict.keys d).
Proof.
  unfold Dict.keys. induction d as [|[k' v'] d IH]; simpl; [reflexivity|].
  intros Hnd. apply NoDup_cons in Hnd as [Hk' Hnd].
  destruct (decide (k' = k)) as [->|Hne].
  - rewrite bool_decide_eq_true_2 by reflexivity. simpl.
    clear IH. induction d as [|[k2 v2] d IH2]; simpl; [reflexivity|].
    apply not_elem_of_cons in Hk' as [Hk2 Hk']. apply NoDup_cons in Hnd as [_ Hnd].
    rewrite bool_decide_eq_false_2 by (intros ->; apply Hk2; reflexivity).
    simpl. f_equal. apply IH2; assumption.
  - rewrite bool_decide_eq_false_2 by exact Hne. simpl. f_equal. apply IH, Hnd.
Qed.

Lemma dict_get_del k j d :
  NoDup (Dict.keys d) ->
  Dict.get j (Dict.del k d) = if decide (k = j) then None else Dict.get j d.
Proof.
  unfold Dict.keys. induction d as [|[k' v'] d IH]; simpl; intros Hnd.
  - destruct (decide (k = j)); reflexivity.
  - apply NoDup_cons in Hnd as [Hk' Hnd].
    destruct (decide (k' = k)) as [->|Hne].
    + destruct (decide (k = j)) as [->|Hkj]; [|reflexivity].
      apply dict_get_None_keys. exact Hk'.
    + simpl. destruct (decide (k' = j)) as [->|Hj].
      * rewrite decide_False by congruence. reflexivity.
      * apply IH, Hnd.
Qed.

Lemma dict_keys_del_NoDup k d :
  NoDup (Dict.keys d) -> NoDup (Dict.keys (Dict.del k d)).
Proof.
  intros H. rewrite dict_keys_del by exact H.
  apply NoDup_ListNoDup, List.NoDup_filter, NoDup_ListNoDup. exact H.
Qed.
End DictMoreFacts.

(** ** More on the fragment store *)

Section StoreMoreFacts.
Import FragmentManager.
Implicit Types (m : FragmentManager.t) (k j : string) (f : Fragment.t).

Lemma with_fragment_keys g m k :
  Dict.keys (_fragments (with_fragment g m k)) = Dict.keys (_fragments m).
Proof.
  unfold with_fragment. destruct (Dict.get k (_fragments m)); [|reflexivity].
  apply dict_keys_mutate.
Qed.

Lemma with_fragment_frame g m k :
  _selected_fragment_id (with_fragment g m k) = _selected_fragment_id m
  ∧ Dict.keys (_fragments (with_fragment g m k)) = Dict.keys (_fragments m)
  ∧ (∀ j, j ≠ k -> get_fragment (with_fragment g m k) j = get_fragment m j)
  ∧ (get_fragment m k = None -> with_fragment g m k = m).
Proof.
  split; [apply with_fragment_pointer|]. split; [apply with_fragment_keys|].
  split; [|apply with_fragment_unknown].
  intros j Hj. rewrite get_with_fragment, decide_False by congruence. reflexivity.
Qed.

(** X1.  Every mutator of the store touches the fragment it is given
    and nothing else: the selection pointer, the keys and their order
    and every other fragment are unchanged, and for an id the store
    does not hold the whole store is unchanged. *)
Theorem mutators_touch_only_target m k (visible horizontal : bool) (x y dx dy angle : Q)
    (rotation : option Q) (translation : option (Q * Q))
    (flip_horizontal flip_vertical : option bool) (m' : FragmentManager.t) :
  m' ∈ [ set_fragment_visibility m k visible;
         set_fragment_position m k x y;
         translate_fragment m k dx dy;
         rotate_fragment m k angle;
         set_fragment_rotation m k angle;
         flip_fragment m k horizontal;
         set_fragment_transform m k rotation translation
                                flip_horizontal flip_vertical ] ->
  _selected_fragment_id m' = _selected_fragment_id m
  ∧ Dict.keys (_fragments m') = Dict.keys (_fragments m)
  ∧ (∀ j, j ≠ k -> get_fragment m' j = get_fragment m j)
  ∧ (get_fragment m k = None -> m' = m).
Proof.
  intros Hin.
  repeat (apply elem_of_cons in Hin as [->|Hin]; [apply with_fragment_frame|]).
  inversion Hin.
Qed.

Lemma mutators_touch_only_target_example :
  get_fragment (rotate_fragment Scene.store_ab "a" 90) "b"
  = get_fragment Scene.store_ab "b"
  ∧ _selected_fragment_id (rotate_fragment Scene.store_ab "a" 90) = Some "a"%string.
Proof.
  destruct (mutators_touch_only_target Scene.store_ab "a" true true 0 0 0 0 90
              None None None None (rotate_fragment Scene.store_ab "a" 90))
    as (Hp & _ & Hother & _).
  { apply list_elem_of_In. vm_compute. tauto. }
  split; [apply Hother; discriminate | exact Hp].
Defined.

Lemma with_fragment_keyed g m k :
  (∀ f, Fragment.id (g f) = Fragment.id f) ->
  keyed_by_id m -> keyed_by_id (with_fragment g m k).
Proof.
  intros Hg [Hnd Hid]. split; [rewrite with_fragment_keys; exact Hnd|].
  intros j f' Hj. rewrite get_with_fragment in Hj.
  destruct (decide (k = j)) as [->|Hne]; [|exact (Hid j f' Hj)].
  destruct (get_fragment m j) as [f|] eqn:Hf; [|discriminate].
  injection Hj as <-. rewrite Hg. exact (Hid j f Hf).
Qed.

Lemma set_selected_fragment_keyed m (fragment_id : option string) :
  keyed_by_id m -> keyed_by_id (set_selected_fragment m fragment_id).
Proof.
  intros [Hnd Hid]. split; [rewrite set_selected_fragment_keys; exact Hnd|].
  intros j f' Hj.
  destruct (get_fragment m j) as [f|] eqn:Hf;
    [|rewrite set_selected_fragment_lookup_none in Hj by assumption; discriminate].
  rewrite (set_selected_fragment_lookup m fragment_id j f Hf) in Hj.
  injection Hj as <-. exact (Hid j f Hf).
Qed.

Lemma remove_fragment_keyed m k :
  keyed_by_id m -> keyed_by_id (remove_fragment m k).2.
Proof.
  intros [Hnd Hid]. unfold remove_fragment.
  destruct (Dict.contains k (_fragments m)); [|split; assumption].
  split; cbn [snd _fragments].
  - apply dict_keys_del_NoDup, Hnd.
  - intros j f Hj. unfold get_fragment in Hj. cbn [_fragments] in Hj.
    rewrite dict_get_del in Hj by exact Hnd.
    destruct (decide (k = j)); [discriminate|]. exact (Hid j f Hj).
Qed.

Lemma add_fragment_keyed m (fragment : Fragment.t) :
  keyed_by_id m -> keyed_by_id (add_fragment_from_image m fragment).2.
Proof.
  intros [Hnd Hid]. unfold add_fragment_from_image. cbn [snd].
  set (m1 := mk _ _).
  assert (H1 : keyed_by_id m1).
  { split; cbn [_fragments m1].
    - apply dict_keys_set_NoDup, Hnd.
    - intros j f Hj. unfold get_fragment in Hj. cbn [_fragments m1] in Hj.
      rewrite dict_get_set in Hj.
      destruct (decide (Fragment.id fragment = j)) as [<-|Hne];
        [injection Hj as <-; reflexivity | exact (Hid j f Hj)]. }
  destruct (length _ =? 1)%nat; [apply set_selected_fragment_keyed|]; exact H1.
Qed.

Lemma import_fold_keyed (records : list Fragment.data) (d : list (string * Fragment.t)) :
  NoDup (Dict.keys d) ->
  (∀ k f, Dict.get k d = Some f -> Fragment.id f = k) ->
  let d' :=
    fold_left
      (fun d fragment_data =>
         let fragment := Fragment.from_dict fragment_data in
         Dict.set (Fragment.id fragment) fragment d)
      records d in
  NoDup (Dict.keys d') ∧ (∀ k f, Dict.get k d' = Some f -> Fragment.id f = k).
Proof.
  revert d. induction records as [|r records IH]; intros d Hnd Hid; simpl.
  - split; assumption.
  - apply IH.
    + apply dict_keys_set_NoDup, Hnd.
    + intros j f Hj. rewrite dict_get_set in Hj.
      change (Fragment.id (Fragment.from_dict r)) with (Fragment.d_id r) in *.
      destruct (decide (Fragment.d_id r = j)) as [He|Hne];
        [|exact (Hid j f Hj)].
      injection Hj as <-. exact He.
Qed.

Lemma import_metadata_keyed m (md : metadata) : keyed_by_id (import_metadata m md).
Proof.
  unfold import_metadata.
  set (frs := fold_left _ _ _).
  assert (H1 : keyed_by_id (mk frs (_selected_fragment_id m))).
  { apply import_fold_keyed; [apply NoDup_nil_2 | intros k f H; discriminate H]. }
  destruct (md_selected_fragment_id md) as [sel|]; [|exact H1].
  destruct (truthy (Some sel) && Dict.contains sel frs); [|exact H1].
  apply set_selected_fragment_keyed, H1.
Qed.

(** X2.  The store stays keyed by fragment id: when the keys are
    distinct and every fragment sits under its own id, they still are
    after every mutator, after selecting, after removing and after
    adding a fragment; after an import they are whatever the store and
    the metadata were. *)
Theorem store_stays_keyed_by_id m :
  (∀ md, keyed_by_id (import_metadata m md))
  ∧ (keyed_by_id m ->
     (∀ k (visible horizontal : bool) (x y dx dy angle : Q)
         (rotation : option Q) (translation : option (Q * Q))
         (flip_horizontal flip_vertical : option bool) m',
         m' ∈ [ set_fragment_visibility m k visible;
                set_fragment_position m k x y;
                translate_fragment m k dx dy;
                rotate_fragment m k angle;
                set_fragment_rotation m k angle;
                flip_fragment m k horizontal;
                set_fragment_transform m k rotation translation
                                       flip_horizontal flip_vertical ] ->
         keyed_by_id m')
     ∧ (∀ fragment_id, keyed_by_id (set_selected_fragment m fragment_id))
     ∧ (∀ k, keyed_by_id (remove_fragment m k).2)
     ∧ (∀ fragment, keyed_by_id (add_fragment_from_image m fragment).2)).
Proof.
  split; [apply import_metadata_keyed|].
  intros Hm. split; [|split; [|split]].
  - intros k visible horizontal x y dx dy angle rotation translation
      flip_horizontal flip_vertical m' Hin.
    repeat (apply elem_of_cons in Hin as [->|Hin];
            [apply with_fragment_keyed; [|exact Hm]|]); [..|inversion Hin].
    all: intros f; try reflexivity.
    + destruct horizontal; reflexivity.
    + destruct rotation, translation as [[? ?]|], flip_horizontal, flip_vertical;
        reflexivity.
  - intros fragment_id. apply set_selected_fragment_keyed, Hm.
  - intros k. apply remove_fragment_keyed, Hm.
  - intros fragment. apply add_fragment_keyed, Hm.
Qed.

Lemma store_ab_keyed : keyed_by_id Scene.store_ab.
Proof.
  split.
  - change (NoDup ["a"%string; "b"%string]). apply NoDup_cons.
    split; [intros H; apply list_elem_of_singleton in H; discriminate H|].
    apply NoDup_singleton.
  - intros k f. unfold get_fragment, Scene.store_ab. simpl.
    destruct (decide ("a"%string = k)) as [<-|Ha]; [intros [= <-]; reflexivity|].
    destruct (decide ("b"%string = k)) as [<-|Hb]; [intros [= <-]; reflexivity|].
    discriminate.
Qed.

Lemma store_stays_keyed_by_id_example :
  keyed_by_id (remove_fragment Scene.store_ab "a").2
  ∧ keyed_by_id (flip_fragment Scene.store_ab "a" true).
Proof.
  destruct (store_stays_keyed_by_id Scene.store_ab) as [_ H].
  destruct (H store_ab_keyed) as (Hmut & _ & Hrem & _).
  split; [apply Hrem|].
  apply (Hmut "a"%string true true 0%Q 0%Q 0%Q 0%Q 0%Q None None None None).
  apply list_elem_of_In. vm_compute. tauto.
Defined.

(** Removing an id the store holds: the id is gone and every other
    fragment is kept. *)
Lemma remove_fragment_held m k f :
  keyed_by_id m -> get_fragment m k = Some f ->
  remove_fragment m k = (true, (remove_fragment m k).2)
  ∧ get_fragment (remove_fragment m k).2 k = None
  ∧ (∀ j, j ≠ k -> get_fragment (remove_fragment m k).2 j = get_fragment m j).
Proof.
  intros [Hnd Hid]. unfold remove_fragment, get_fragment, Dict.contains.
  intros ->. cbn [snd _fragments]. split; [reflexivity|].
  split; [rewrite dict_get_del, decide_True by (exact Hnd || reflexivity); reflexivity|].
  intros j Hj. rewrite dict_get_del, decide_False by (exact Hnd || congruence).
  reflexivity.
Qed.

(** X3.  In a store keyed by id, [remove_fragment] returns [False] and
    changes nothing for an id it does not hold; for an id it holds it
    returns [True], the id is gone, every other fragment is kept in
    order, and the selection pointer moves to the first remaining key
    (or to [None]) when it named the removed fragment and stays put
    otherwise. *)
Theorem remove_fragment_effect m k :
  keyed_by_id m ->
  (get_fragment m k = None -> remove_fragment m k = (false, m))
  ∧ (∀ f, get_fragment m k = Some f ->
       ∃ m', remove_fragment m k = (true, m')
             ∧ get_fragment m' k = None
             ∧ (∀ j, j ≠ k -> get_fragment m' j = get_fragment m j)
             ∧ Dict.keys (_fragments m')
               = List.filter (fun j => negb (bool_decide (j = k)))
                             (Dict.keys (_fragments m))
             ∧ _selected_fragment_id m'
               = if decide (_selected_fragment_id m = Some k)
                 then head (Dict.keys (_fragments m'))
                 else _selected_fragment_id m).
Proof.
  intros Hkeyed. split.
  - unfold remove_fragment, get_fragment, Dict.contains. intros ->. reflexivity.
  - intros f Hf. destruct (remove_fragment_held m k f Hkeyed Hf) as (Hrem & Hgone & Hother).
    exists (remove_fragment m k).2. split; [exact Hrem|].
    split; [exact Hgone|]. split; [exact Hother|].
    destruct Hkeyed as [Hnd _]. revert Hrem.
    unfold remove_fragment, get_fragment, Dict.contains in *. rewrite Hf.
    cbn [snd _fragments _selected_fragment_id]. intros _.
    split; [apply dict_keys_del, Hnd|].
    destruct (decide (_selected_fragment_id m = Some k)); reflexivity.
Qed.

Lemma remove_fragment_effect_example :
  remove_fragment Scene.store_ab "zzz" = (false, Scene.store_ab)
  ∧ ∃ m', remove_fragment Scene.store_ab "b" = (true, m')
          ∧ get_fragment m' "b" = None
          ∧ _selected_fragment_id m' = Some "a"%string.
Proof.
  destruct (remove_fragment_effect Scene.store_ab "zzz" store_ab_keyed) as [Hno _].
  destruct (remove_fragment_effect Scene.store_ab "b" store_ab_keyed) as [_ Hyes].
  split; [apply Hno; reflexivity|].
  destruct (Hyes (Scene.fragment "b" 30 0 false) eq_refl)
    as (m' & Hrem & Hgone & _ & _ & Hptr).
  exists m'. split; [exact Hrem|]. split; [exact Hgone|]. exact Hptr.
Defined.

(** X4.  In a store keyed by id where marker and pointer agree,
    [remove_fragment] keeps them in agreement whenever the removed id
    is not the selected one, is not in the store, or is the store's
    only fragment. *)
Theorem remove_fragment_keeps_sync m k :
  keyed_by_id m -> selection_in_sync m ->
  _selected_fragment_id m ≠ Some k
  ∨ get_fragment m k = None
  ∨ Dict.keys (_fragments m) = [k] ->
  selection_in_sync (remove_fragment m k).2.
Proof.
  intros Hkeyed Hsync Hcase.
  destruct (get_fragment m k) as [f|] eqn:Hf.
  2:{ unfold remove_fragment, Dict.contains. unfold get_fragment in Hf.
      rewrite Hf. exact Hsync. }
  destruct (remove_fragment_held m k f Hkeyed Hf) as (_ & Hgone & Hother).
  intros j f' Hj.
  destruct (decide (j = k)) as [->|Hjk]; [congruence|].
  destruct Hcase as [Hsel|[Hnone|Hone]]; [|discriminate|].
  - rewrite Hother in Hj by exact Hjk.
    assert (Hptr : _selected_fragment_id (remove_fragment m k).2
                   = _selected_fragment_id m).
    { unfold remove_fragment, Dict.contains. unfold get_fragment in Hf. rewrite Hf.
      cbn [snd _selected_fragment_id]. rewrite decide_False by exact Hsel. reflexivity. }
    rewrite Hptr. exact (Hsync j f' Hj).
  - exfalso. rewrite Hother in Hj by exact Hjk.
    assert (Hin : j ∈ Dict.keys (_fragments m)).
    { destruct (decide (j ∈ Dict.keys (_fragments m))) as [H|H]; [exact H|].
      apply dict_get_None_keys in H. unfold get_fragment in Hj. congruence. }
    rewrite Hone in Hin. apply list_elem_of_singleton in Hin. congruence.
Qed.

Lemma remove_fragment_keeps_sync_example :
  selection_in_sync (remove_fragment Scene.store_ab "b").2.
Proof.
  apply (remove_fragment_keeps_sync Scene.store_ab "b" store_ab_keyed store_ab_in_sync).
  left. discriminate.
Defined.
End StoreMoreFacts.

Lemma Qfloor_unique (x : Q) (n : Z) :
  (inject_Z n <= x)%Q -> (x < inject_Z (n + 1))%Q -> Qfloor x = n.
Proof.
  intros Hlo Hhi.
  pose proof (Qfloor_le x) as H1. pose proof (Qlt_floor x) as H2.
  assert (Ha : (inject_Z n < inject_Z (Qfloor x + 1))%Q) by lra.
  assert (Hb : (inject_Z (Qfloor x) < inject_Z (n + 1))%Q) by lra.
  rewrite <- Zlt_Qlt in Ha, Hb. lia.
Qed.

(** Shifting by a whole number of periods does not change the
    remainder. *)
Lemma py_mod_shift (a b : Q) (n : Z) :
  (0 < b)%Q -> (py_mod (a - b * inject_Z n) b == py_mod a b)%Q.
Proof.
  intros Hb. unfold py_mod.
  assert (Hfl : Qfloor ((a - b * inject_Z n) / b) = Qfloor (a / b) - n).
  { apply Qfloor_unique.
    - pose proof (Qfloor_le (a / b)) as H.
      unfold Z.sub. rewrite inject_Z_plus, inject_Z_opp.
      assert (He : ((a - b * inject_Z n) / b == a / b - inject_Z n)%Q) by (field; lra).
      rewrite He. lra.
    - pose proof (Qlt_floor (a / b)) as H.
      replace (Qfloor (a / b) - n + 1) with (Qfloor (a / b) + 1 - n) by lia.
      unfold Z.sub. rewrite inject_Z_plus, inject_Z_opp.
      assert (He : ((a - b * inject_Z n) / b == a / b - inject_Z n)%Q) by (field; lra).
      rewrite He. lra. }
  rewrite Hfl. unfold Z.sub. rewrite inject_Z_plus, inject_Z_opp. ring.
Qed.

Lemma py_mod_small (a b : Q) : (0 <= a)%Q -> (a < b)%Q -> (py_mod a b == a)%Q.
Proof.
  intros H0 Hb. unfold py_mod.
  assert (Hfl : Qfloor (a / b) = 0).
  { apply Qfloor_unique.
    - change (inject_Z 0) with 0%Q. apply Qle_shift_div_l; lra.
    - change (inject_Z (0 + 1)) with 1%Q. apply Qlt_shift_div_r; lra. }
  rewrite Hfl. change (inject_Z 0) with 0%Q. ring.
Qed.

Lemma py_mod_wd (a a' b : Q) : (a == a')%Q -> (py_mod a b == py_mod a' b)%Q.
Proof.
  intros H. unfold py_mod.
  assert (Hfl : Qfloor (a / b) = Qfloor (a' / b)).
  { apply Qfloor_comp. apply Qdiv_comp; [exact H | reflexivity]. }
  rewrite Hfl. lra.
Qed.

(** Adding an amount and taking it away again, with a reduction after
    each step, gives back a value that was reduced to begin with. *)
Lemma py_mod_add_sub (r t b : Q) :
  (0 <= r)%Q -> (r < b)%Q -> (py_mod (py_mod (r + t) b - t) b == r)%Q.
Proof.
  intros H0 Hb. assert (Hpos : (0 < b)%Q) by lra.
  rewrite <- (py_mod_small r b H0 Hb) at 2.
  rewrite <- (py_mod_shift r b (Qfloor ((r + t) / b)) Hpos).
  apply py_mod_wd. unfold py_mod. ring.
Qed.

Section StoreAlgebra.
Import FragmentManager.
Implicit Types (m : FragmentManager.t) (k j : string) (f : Fragment.t).

(** X5.  Flipping a fragment twice about the same axis gives back the
    fragment it was, with the cache invalidated; a horizontal flip
    leaves the vertical flag alone and a vertical flip the horizontal
    one. *)
Theorem flip_fragment_twice m k f (horizontal : bool) :
  get_fragment m k = Some f ->
  get_fragment (flip_fragment (flip_fragment m k horizontal) k horizontal) k
  = Some (Fragment.invalidate_cache f)
  ∧ Fragment.flip_vertical <$> get_fragment (flip_fragment m k true) k
    = Some (Fragment.flip_vertical f)
  ∧ Fragment.flip_horizontal <$> get_fragment (flip_fragment m k false) k
    = Some (Fragment.flip_horizontal f)
  ∧ Fragment.flip_horizontal <$> get_fragment (flip_fragment m k true) k
    = Some (negb (Fragment.flip_horizontal f))
  ∧ Fragment.flip_vertical <$> get_fragment (flip_fragment m k false) k
    = Some (negb (Fragment.flip_vertical f)).
Proof.
  intros Hf. unfold flip_fragment.
  rewrite (get_with_fragment_eq _ _ k _ (get_with_fragment_eq _ m k f Hf)).
  rewrite !(get_with_fragment_eq _ m k f Hf).
  split; [|repeat split].
  destruct f, horizontal; cbn; rewrite negb_involutive; reflexivity.
Qed.

Lemma flip_fragment_twice_example :
  get_fragment (flip_fragment (flip_fragment Scene.store_ab "a" true) "a" true) "a"
  = Some (Fragment.invalidate_cache (Scene.fragment "a" 0 0 true)).
Proof.
  exact (proj1 (flip_fragment_twice Scene.store_ab "a" (Scene.fragment "a" 0 0 true)
                  true eq_refl)).
Defined.

(** X6.  Rotating a fragment by an angle and then by the opposite angle
    gives back its rotation, when that rotation was in [0, 360) to
    begin with (floats as exact rationals). *)
Theorem rotate_fragment_inverse m k f (angle : Q) :
  get_fragment m k = Some f ->
  (0 <= Fragment.rotation f)%Q -> (Fragment.rotation f < 360)%Q ->
  ∃ r, rotation_of (rotate_fragment (rotate_fragment m k angle) k (- angle)) k = Some r
       ∧ (r == Fragment.rotation f)%Q.
Proof.
  intros Hf H0 H360. unfold rotation_of, rotate_fragment.
  rewrite (get_with_fragment_eq _ _ k _ (get_with_fragment_eq _ m k f Hf)).
  eexists. split; [reflexivity|]. cbn.
  apply py_mod_add_sub; assumption.
Qed.

Lemma rotate_fragment_inverse_example :
  ∃ r, rotation_of (rotate_fragment (rotate_fragment Scene.store_ab "a" 400) "a" (- 400)) "a"
       = Some r
       ∧ (r == 0)%Q.
Proof.
  apply (rotate_fragment_inverse Scene.store_ab "a" (Scene.fragment "a" 0 0 true) 400);
    [reflexivity | discriminate | reflexivity].
Defined.

(** X7.  Two translations in a row put a fragment where one
    translation by the summed offsets puts it, and change nothing else
    (floats as exact rationals). *)
Theorem translate_fragment_twice m k f (dx1 dy1 dx2 dy2 : Q) :
  get_fragment m k = Some f ->
  ∃ f12 fsum,
    get_fragment (translate_fragment (translate_fragment m k dx1 dy1) k dx2 dy2) k
    = Some f12
    ∧ get_fragment (translate_fragment m k (dx1 + dx2) (dy1 + dy2)) k = Some fsum
    ∧ (Fragment.x f12 == Fragment.x fsum)%Q
    ∧ (Fragment.y f12 == Fragment.y fsum)%Q
    ∧ (Fragment.x f12 == Fragment.x f + dx1 + dx2)%Q
    ∧ (Fragment.y f12 == Fragment.y f + dy1 + dy2)%Q
    ∧ Fragment.set_y 0 (Fragment.set_x 0 f12) = Fragment.set_y 0 (Fragment.set_x 0 f).
Proof.
  intros Hf. unfold translate_fragment.
  rewrite (get_with_fragment_eq _ _ k _ (get_with_fragment_eq _ m k f Hf)).
  rewrite (get_with_fragment_eq _ m k f Hf).
  eexists _, _. split; [reflexivity|]. split; [reflexivity|]. cbn.
  repeat split; ring.
Qed.

Lemma translate_fragment_twice_example :
  ∃ f12 fsum,
    get_fragment (translate_fragment (translate_fragment Scene.store_ab "b" 1 2) "b" 3 4) "b"
    = Some f12
    ∧ get_fragment (translate_fragment Scene.store_ab "b" (1 + 3) (2 + 4)) "b" = Some fsum
    ∧ (Fragment.x f12 == Fragment.x fsum)%Q
    ∧ (Fragment.y f12 == Fragment.y fsum)%Q.
Proof.
  destruct (translate_fragment_twice Scene.store_ab "b" (Scene.fragment "b" 30 0 false)
              1 2 3 4 eq_refl) as (f12 & fsum & H1 & H2 & Hx & Hy & _).
  exists f12, fsum. repeat split; assumption.
Defined.

(** X8.  [set_fragment_transform] writes the fields it is given, the
    rotation reduced into [0, 360), and leaves the others; it
    invalidates the cache exactly when a rotation or a flip is given,
    whatever its value, and a translation alone never does. *)
Theorem set_fragment_transform_effect m k f
    (rotation : option Q) (translation : option (Q * Q))
    (flip_horizontal flip_vertical : option bool) :
  get_fragment m k = Some f ->
  get_fragment (set_fragment_transform m k rotation translation
                                       flip_horizontal flip_vertical) k
  = Some (Fragment.mk
            (Fragment.id f) (Fragment.name f) (Fragment.file_path f)
            (Fragment.image_data f)
            (from_option fst (Fragment.x f) translation)
            (from_option snd (Fragment.y f) translation)
            (from_option (fun r => py_mod r 360) (Fragment.rotation f) rotation)
            (default (Fragment.flip_horizontal f) flip_horizontal)
            (default (Fragment.flip_vertical f) flip_vertical)
            (Fragment.visible f) (Fragment.selected f) (Fragment.opacity f)
            (if bool_decide (is_Some rotation ∨ is_Some flip_horizontal
                             ∨ is_Some flip_vertical)
             then false else Fragment.cache_valid f)).
Proof.
  intros Hf. unfold set_fragment_transform.
  rewrite (get_with_fragment_eq _ m k f Hf). f_equal.
  destruct f, rotation, translation as [[tx ty]|], flip_horizontal, flip_vertical;
    reflexivity.
Qed.

Lemma set_fragment_transform_effect_example :
  cache_valid_of (set_fragment_transform Scene.store_ab "a" None (Some (3, 4)%Q) None None) "a"
  = Some true
  ∧ cache_valid_of (set_fragment_transform Scene.store_ab "a" (Some 0%Q) None None None) "a"
    = Some false.
Proof.
  unfold cache_valid_of.
  rewrite (set_fragment_transform_effect Scene.store_ab "a" (Scene.fragment "a" 0 0 true)
             None (Some (3, 4)%Q) None None eq_refl).
  rewrite (set_fragment_transform_effect Scene.store_ab "a" (Scene.fragment "a" 0 0 true)
             (Some 0%Q) None None None eq_refl).
  split; reflexivity.
Defined.
End StoreAlgebra.

Section StoreSelection.
Import FragmentManager.
Implicit Types (m : FragmentManager.t) (k j : string) (f : Fragment.t).

Lemma dict_length_keys {V} (d : list (string * V)) : length (Dict.keys d) = length d.
Proof. unfold Dict.keys. apply length_fmap. Qed.

(** X9.  Adding a fragment under a fresh id to an empty store stores it
    and selects it (pointer and flag); adding it to a store that holds
    fragments appends it as it is and leaves the selection pointer and
    every stored fragment alone. *)
Theorem add_fragment_from_image_effect m (fragment : Fragment.t) :
  (add_fragment_from_image m fragment).1 = Fragment.id fragment
  ∧ (_fragments m = [] -> Fragment.id fragment ≠ EmptyString ->
     (add_fragment_from_image m fragment).2
     = mk [(Fragment.id fragment, Fragment.set_selected true fragment)]
          (Some (Fragment.id fragment)))
  ∧ (_fragments m ≠ [] -> get_fragment m (Fragment.id fragment) = None ->
     (add_fragment_from_image m fragment).2
     = mk (_fragments m ++ [(Fragment.id fragment, fragment)])
          (_selected_fragment_id m)).
Proof.
  split; [reflexivity|]. unfold add_fragment_from_image. cbn [snd]. split.
  - intros -> Hid. cbn [Dict.set length Nat.eqb].
    unfold set_selected_fragment. cbn [_fragments _selected_fragment_id].
    assert (Hfrs : (match _selected_fragment_id m with
                    | Some prev =>
                        if truthy (Some prev)
                        then match Dict.get prev [(Fragment.id fragment, fragment)] with
                             | Some _ => Dict.mutate (Fragment.set_selected false) prev
                                           [(Fragment.id fragment, fragment)]
                             | None => [(Fragment.id fragment, fragment)]
                             end
                        else [(Fragment.id fragment, fragment)]
                    | None => [(Fragment.id fragment, fragment)]
                    end)
                   = [(Fragment.id fragment,
                       if truthy (_selected_fragment_id m)
                          && bool_decide (_selected_fragment_id m
                                          = Some (Fragment.id fragment))
                       then Fragment.set_selected false fragment else fragment)]).
    { destruct (_selected_fragment_id m) as [prev|]; [|reflexivity].
      destruct (truthy (Some prev)); [|reflexivity]. cbn [andb Dict.get Dict.mutate].
      destruct (decide (Fragment.id fragment = prev)) as [<-|Hne].
      - rewrite bool_decide_eq_true_2 by reflexivity. reflexivity.
      - rewrite bool_decide_eq_false_2 by congruence. reflexivity. }
    rewrite Hfrs. rewrite truthy_Some by exact Hid.
    unfold Dict.contains. cbn [andb Dict.get Dict.mutate].
    rewrite !decide_True by reflexivity. f_equal. f_equal. f_equal.
    destruct (truthy (_selected_fragment_id m) && _); destruct fragment; reflexivity.
  - intros Hne Hfresh.
    assert (Hset : Dict.set (Fragment.id fragment) fragment (_fragments m)
                   = _fragments m ++ [(Fragment.id fragment, fragment)]).
    { unfold get_fragment in Hfresh. clear Hne.
      induction (_fragments m) as [|[k' v'] d IH]; [reflexivity|].
      cbn [Dict.get] in Hfresh. cbn [Dict.set].
      destruct (decide (k' = Fragment.id fragment)); [discriminate|].
      rewrite IH by exact Hfresh. reflexivity. }
    rewrite Hset. rewrite length_app. cbn [length].
    destruct (_fragments m) as [|p d]; [congruence|]. cbn [length].
    replace (S (length d) + 1)%nat with (S (S (length d))) by lia. reflexivity.
Qed.

Lemma add_fragment_from_image_effect_example :
  (add_fragment_from_image init (Scene.fragment "a" 0 0 false)).2
  = mk [("a"%string, Scene.fragment "a" 0 0 true)] (Some "a"%string)
  ∧ (add_fragment_from_image Scene.store_ab (Scene.fragment "c" 0 0 false)).2
    = mk (_fragments Scene.store_ab ++ [("c"%string, Scene.fragment "c" 0 0 false)])
         (Some "a"%string).
Proof.
  split.
  - apply (proj1 (proj2 (add_fragment_from_image_effect init
                           (Scene.fragment "a" 0 0 false))));
      [reflexivity | discriminate].
  - apply (proj2 (proj2 (add_fragment_from_image_effect Scene.store_ab
                           (Scene.fragment "c" 0 0 false))));
      [discriminate | reflexivity].
Defined.

(** X11.  Where marker and pointer agree (and no id is the empty
    string, which Python reads as false), they still agree after every
    mutator and after selecting an id or [None]; after selecting, the
    flagged fragments are exactly the one the given id names, and
    [get_selected_fragment] returns it. *)
Theorem selection_stays_in_sync m :
  selection_in_sync m ->
  _selected_fragment_id m ≠ Some EmptyString ->
  (∀ k (visible horizontal : bool) (x y dx dy angle : Q)
      (rotation : option Q) (translation : option (Q * Q))
      (flip_horizontal flip_vertical : option bool) m',
      m' ∈ [ set_fragment_visibility m k visible;
             set_fragment_position m k x y;
             translate_fragment m k dx dy;
             rotate_fragment m k angle;
             set_fragment_rotation m k angle;
             flip_fragment m k horizontal;
             set_fragment_transform m k rotation translation
                                    flip_horizontal flip_vertical ] ->
      selection_in_sync m')
  ∧ (∀ fragment_id : option string,
       fragment_id ≠ Some EmptyString ->
       selection_in_sync (set_selected_fragment m fragment_id)
       ∧ (∀ j f', get_fragment (set_selected_fragment m fragment_id) j = Some f' ->
                  (Fragment.selected f' = true <-> fragment_id = Some j))
       ∧ get_selected_fragment (set_selected_fragment m fragment_id)
         = (k ← fragment_id; get_fragment (set_selected_fragment m fragment_id) k)).
Proof.
  intros Hsync Hprev. split.
  - intros k visible horizontal x y dx dy angle rotation translation
      flip_horizontal flip_vertical m' Hin.
    repeat (apply elem_of_cons in Hin as [->|Hin];
            [apply with_fragment_in_sync; [|exact Hsync]|]); [..|inversion Hin].
    all: intros f; try reflexivity.
    + destruct horizontal; reflexivity.
    + destruct rotation, translation as [[? ?]|], flip_horizontal, flip_vertical;
        reflexivity.
  - intros fragment_id Hnew.
    pose proof (set_selected_fragment_in_sync m fragment_id Hsync Hprev Hnew) as H.
    split; [exact H|]. split; [exact H|].
    unfold get_selected_fragment.
    change (_selected_fragment_id (set_selected_fragment m fragment_id))
      with fragment_id.
    destruct fragment_id as [k|]; [|reflexivity].
    rewrite truthy_Some by congruence. reflexivity.
Qed.

Lemma selection_stays_in_sync_example :
  selection_in_sync (translate_fragment Scene.store_ab "a" 1 1)
  ∧ selection_in_sync (set_selected_fragment Scene.store_ab None).
Proof.
  destruct (selection_stays_in_sync Scene.store_ab store_ab_in_sync)
    as [Hmut Hsel]; [discriminate|].
  split.
  - apply (Hmut "a"%string true true 0%Q 0%Q 1%Q 1%Q 0%Q None None None None).
    apply list_elem_of_In. vm_compute. tauto.
  - apply (Hsel None). discriminate.
Defined.
End StoreSelection.

Section BoundsFacts.
Variable get_bounding_box : Fragment.t -> Q * Q * Q * Q.

Lemma extend_bounds_fold (rest : list Fragment.t) (acc : Q * Q * Q * Q) :
  let '(min_x, min_y, max_x, max_y) := acc in
  let '(min_x', min_y', max_x', max_y') :=
    fold_left (FragmentManager.extend_bounds get_bounding_box) rest acc in
  ((min_x' <= min_x)%Q ∧ (min_y' <= min_y)%Q
   ∧ (max_x <= max_x')%Q ∧ (max_y <= max_y')%Q)
  ∧ ∀ f, f ∈ rest ->
         let '(bbox_x, bbox_y, bbox_w, bbox_h) := get_bounding_box f in
         (min_x' <= bbox_x)%Q ∧ (min_y' <= bbox_y)%Q
         ∧ (bbox_x + bbox_w <= max_x')%Q ∧ (bbox_y + bbox_h <= max_y')%Q.
Proof.
  revert acc. induction rest as [|f0 rest IH]; intros [[[min_x min_y] max_x] max_y].
  - cbn [fold_left]. split; [repeat split; lra|]. intros f Hf. inversion Hf.
  - cbn [fold_left]. unfold FragmentManager.extend_bounds at 2.
    destruct (get_bounding_box f0) as [[[x0 y0] w0] h0] eqn:Hbox.
    specialize (IH (Qmin min_x x0, Qmin min_y y0,
                    Qmax max_x (x0 + w0)%Q, Qmax max_y (y0 + h0)%Q)).
    cbv beta iota in IH.
    destruct (fold_left _ rest _) as [[[min_x' min_y'] max_x'] max_y'].
    destruct IH as [(H1 & H2 & H3 & H4) Hrest].
    pose proof (Q.le_min_l min_x x0). pose proof (Q.le_min_r min_x x0).
    pose proof (Q.le_min_l min_y y0). pose proof (Q.le_min_r min_y y0).
    pose proof (Q.le_max_l max_x (x0 + w0)). pose proof (Q.le_max_r max_x (x0 + w0)).
    pose proof (Q.le_max_l max_y (y0 + h0)). pose proof (Q.le_max_r max_y (y0 + h0)).
    split; [repeat split; lra|].
    intros f Hf. apply elem_of_cons in Hf as [->|Hf]; [|apply Hrest, Hf].
    rewrite Hbox. repeat split; lra.
Qed.

(** X10.  [get_composite_bounds] is the all-zero rectangle when the
    store shows no visible fragment, and otherwise bounds that contain
    the bounding box of every visible fragment. *)
Theorem get_composite_bounds_contains (m : FragmentManager.t) :
  (FragmentManager.get_visible_fragments m = [] ->
   FragmentManager.get_composite_bounds get_bounding_box m = (0, 0, 0, 0)%Q)
  ∧ ∀ f, f ∈ FragmentManager.get_visible_fragments m ->
         let '(min_x, min_y, max_x, max_y) :=
           FragmentManager.get_composite_bounds get_bounding_box m in
         let '(bbox_x, bbox_y, bbox_w, bbox_h) := get_bounding_box f in
         (min_x <= bbox_x)%Q ∧ (min_y <= bbox_y)%Q
         ∧ (bbox_x + bbox_w <= max_x)%Q ∧ (bbox_y + bbox_h <= max_y)%Q.
Proof.
  unfold FragmentManager.get_composite_bounds. split.
  - intros ->. destruct (FragmentManager._fragments m); reflexivity.
  - intros f Hf.
    destruct (FragmentManager._fragments m) as [|p d] eqn:Hfrs.
    { unfold FragmentManager.get_visible_fragments in Hf. rewrite Hfrs in Hf.
      inversion Hf. }
    destruct (FragmentManager.get_visible_fragments m) as [|first rest];
      [inversion Hf|].
    destruct (get_bounding_box first) as [[[x0 y0] w0] h0] eqn:Hbox.
    pose proof (extend_bounds_fold rest (x0, y0, (x0 + w0)%Q, (y0 + h0)%Q)) as H.
    cbv beta iota in H.
    destruct (fold_left _ rest _) as [[[min_x' min_y'] max_x'] max_y'].
    destruct H as [(H1 & H2 & H3 & H4) Hrest].
    apply elem_of_cons in Hf as [->|Hf]; [|apply Hrest, Hf].
    rewrite Hbox. repeat split; lra.
Qed.
End BoundsFacts.

Lemma get_composite_bounds_contains_example :
  let '(min_x, min_y, max_x, max_y) :=
    FragmentManager.get_composite_bounds (Scene.bounding_box 20 20) Scene.store_ab in
  (min_x <= 30)%Q ∧ (min_y <= 0)%Q ∧ (30 + 20 <= max_x)%Q ∧ (0 + 20 <= max_y)%Q.
Proof.
  apply (proj2 (get_composite_bounds_contains (Scene.bounding_box 20 20) Scene.store_ab)
           (Scene.fragment "b" 30 0 false)).
  apply list_elem_of_In. vm_compute. tauto.
Defined.

Section SelectionToolMore.
Import SelectionTool.
Variable get_bounding_box : Fragment.t -> Q * Q * Q * Q.
Implicit Types (s : SelectionTool.t) (frs : list Fragment.t) (p q : QPoint.t).

(** X12.  Outside a rectangle drag the tool ignores cursor updates and
    [finish_selection] returns the ids selected before, untouched.  A
    drag that is cancelled therefore selects nothing new, and finishing
    twice returns the first result again, whatever fragments the second
    call is given. *)
Theorem finish_selection_outside_drag s frs frs' p q :
  (is_selecting s = false ->
   update_selection s q = s
   ∧ finish_selection get_bounding_box s frs = (s, selected_fragment_ids s))
  ∧ (finish_selection get_bounding_box
       (cancel_selection (update_selection (start_selection s p) q)) frs).2
    = selected_fragment_ids s
  ∧ finish_selection get_bounding_box
      (finish_selection get_bounding_box (start_selection s p) frs).1 frs'
    = finish_selection get_bounding_box (start_selection s p) frs.
Proof.
  split; [|split].
  - intros H. unfold update_selection, finish_selection. rewrite H. split; reflexivity.
  - reflexivity.
  - reflexivity.
Qed.

End SelectionToolMore.

Lemma finish_selection_outside_drag_example :
  SelectionTool.update_selection SelectionTool.init (QPoint.mk 3 3) = SelectionTool.init
  ∧ SelectionTool.finish_selection (Scene.bounding_box 20 20) SelectionTool.init [Scene.fragment "a" 0 0 false]
    = (SelectionTool.init, ∅).
Proof.
  exact (proj1 (finish_selection_outside_drag (Scene.bounding_box 20 20) SelectionTool.init
                  [Scene.fragment "a" 0 0 false] [] (QPoint.mk 0 0) (QPoint.mk 3 3))
           eq_refl).
Defined.


Section HitTest.
Import CanvasWidget.
Variable contains_point : Fragment.t -> Q -> Q -> bool.
Implicit Types (c : CanvasWidget.t) (f g : Fragment.t).

Lemma find_first {A} (p : A -> bool) (l : list A) (a : A) :
  List.find p l = Some a ->
  ∃ l1 l2, l = l1 ++ a :: l2 ∧ p a = true ∧ ∀ b, b ∈ l1 -> p b = false.
Proof.
  induction l as [|b l IH]; simpl; [discriminate|].
  destruct (p b) eqn:Hb.
  - intros [= <-]. exists [], l. split; [reflexivity|]. split; [exact Hb|].
    intros b' Hin. inversion Hin.
  - intros H. destruct (IH H) as (l1 & l2 & -> & Ha & Hl1).
    exists (b :: l1), l2. split; [reflexivity|]. split; [exact Ha|].
    intros b' Hin. apply elem_of_cons in Hin as [->|Hin]; [exact Hb | apply Hl1, Hin].
Qed.

Lemma find_nothing {A} (p : A -> bool) (l : list A) :
  List.find p l = None <-> ∀ b, b ∈ l -> p b = false.
Proof.
  induction l as [|b l IH]; simpl.
  - split; [intros _ b H; inversion H | reflexivity].
  - destruct (p b) eqn:Hb.
    + split; [discriminate|]. intros H. specialize (H b (list_elem_of_here _ _)).
      congruence.
    + rewrite IH. split.
      * intros H b' Hin. apply elem_of_cons in Hin as [->|Hin]; [exact Hb | apply H, Hin].
      * intros H b' Hin. apply H. right. exact Hin.
Qed.

Lemma elem_of_rev {A} (a : A) (l : list A) : a ∈ rev l <-> a ∈ l.
Proof. rewrite !list_elem_of_In. symmetry. apply in_rev. Qed.

(** X13.  [get_fragment_at_position] returns the frontmost hit: a
    visible fragment containing the point such that no fragment later
    in the draw order is visible and contains the point; it returns
    [None] exactly when no visible fragment contains the point. *)
Theorem get_fragment_at_position_topmost c (x y : Q) :
  (get_fragment_at_position contains_point c x y = None
   <-> ∀ g, g ∈ fragments c -> Fragment.visible g && contains_point g x y = false)
  ∧ ∀ f, get_fragment_at_position contains_point c x y = Some f ->
         ∃ below above,
           fragments c = below ++ f :: above
           ∧ Fragment.visible f = true ∧ contains_point f x y = true
           ∧ ∀ g, g ∈ above -> Fragment.visible g && contains_point g x y = false.
Proof.
  unfold get_fragment_at_position. split.
  - rewrite find_nothing. split; intros H g Hg; apply H.
    + exact (proj2 (elem_of_rev g _) Hg).
    + exact (proj1 (elem_of_rev g _) Hg).
  - intros f Hf. apply find_first in Hf as (l1 & l2 & Hrev & Hp & Hl1).
    apply andb_prop in Hp as [Hv Hc].
    exists (rev l2), (rev l1). split; [|split; [exact Hv|split; [exact Hc|]]].
    + rewrite <- (rev_involutive (fragments c)), Hrev, rev_app_distr.
      cbn [rev]. rewrite <- app_assoc. reflexivity.
    + intros g Hg. apply Hl1. exact (proj1 (elem_of_rev g _) Hg).
Qed.

End HitTest.

Lemma get_fragment_at_position_topmost_example :
  ∃ below above,
    CanvasWidget.fragments Scene.canvas_group
    = below ++ Scene.fragment "b" 10 0 false :: above
    ∧ ∀ g, g ∈ above
           -> Fragment.visible g && Scene.box_contains 20 20 g 15 5 = false.
Proof.
  destruct (proj2 (get_fragment_at_position_topmost (Scene.box_contains 20 20)
                     Scene.canvas_group 15 5)
              (Scene.fragment "b" 10 0 false))
    as (below & above & Hsplit & _ & _ & Habove).
  - vm_compute. reflexivity.
  - exists below, above. split; assumption.
Defined.

Section CanvasInteraction.
Import CanvasWidget.
Variable get_bounding_box : Fragment.t -> Q * Q * Q * Q.
Variable contains_point : Fragment.t -> Q -> Q -> bool.
Implicit Types (c : CanvasWidget.t) (p : QPoint.t).

Lemma fit_bounds_idle c (bounds : Q * Q * Q * Q) c' emitted :
  fit_bounds c bounds = Some (c', emitted) -> group_drag_idle c -> group_drag_idle c'.
Proof.
  destruct bounds as [[[min_x min_y] max_x] max_y]. unfold fit_bounds.
  destruct (_ || _); [intros [= <- <-]; auto|].
  destruct (py_div _ (max_x - min_x)); [|discriminate]. cbn [mbind option_bind].
  destruct (py_div _ (max_y - min_y)); [|discriminate]. cbn [mbind option_bind].
  destruct (py_div _ _); [|discriminate]. cbn [mbind option_bind].
  destruct (py_div _ _); [|discriminate]. cbn [mbind option_bind].
  intros [= <- <-]. auto.
Qed.

Lemma zoom_to_selected_idle c c' emitted :
  zoom_to_selected_fragments get_bounding_box c = Some (c', emitted) ->
  group_drag_idle c -> group_drag_idle c'.
Proof.
  unfold zoom_to_selected_fragments.
  destruct (bool_decide _); [intros [= <- <-]; auto|].
  destruct (List.filter _ _); [intros [= <- <-]; auto|].
  apply fit_bounds_idle.
Qed.

Lemma mousePressEvent_idle c button p c' emitted :
  mousePressEvent contains_point c button p = Some (c', emitted) ->
  group_drag_idle c -> group_drag_idle c'.
Proof.
  intros H [Hgroup Hdrag]. revert H. unfold mousePressEvent. destruct button.
  - destruct (screen_to_world c p) as [w|]; [|discriminate].
    cbn [mbind option_bind].
    destruct (SelectionTool.is_active (selection_tool c)) eqn:Ha.
    + intros [= <- <-]. split; cbn; [rewrite Ha; discriminate | exact Hdrag].
    + rewrite (Hgroup eq_refl).
      destruct (get_fragment_at_position _ _ _ _) as [clicked|];
        cbn; intros [= <- <-]; split; cbn; auto.
  - intros [= <- <-]. split; cbn; assumption.
  - intros [= <- <-]. split; cbn; assumption.
Qed.

Lemma mouseMoveEvent_idle c p c' emitted :
  mouseMoveEvent c p = Some (c', emitted) ->
  group_drag_idle c -> group_drag_idle c'.
Proof.
  intros H [Hgroup Hdrag]. revert H. unfold mouseMoveEvent. rewrite Hdrag.
  destruct (SelectionTool.is_active (selection_tool c)
            && SelectionTool.is_selecting (selection_tool c)) eqn:Hsel.
  - destruct (screen_to_world c p); [|discriminate]. cbn.
    intros [= <- <-]. split; cbn; [|exact Hdrag].
    apply andb_prop in Hsel as [Ha Hs].
    unfold SelectionTool.update_selection. rewrite Hs. cbn. congruence.
  - destruct (is_dragging_fragment c && truthy (dragged_fragment_id c)).
    + destruct (screen_to_world c p); [|discriminate]. cbn.
      intros [= <- <-]. split; cbn; assumption.
    + destruct (is_panning c).
      * destruct (py_div _ _); [|discriminate]. cbn [mbind option_bind].
        destruct (py_div _ _); [|discriminate]. cbn [mbind option_bind].
        intros [= <- <-]. split; cbn; assumption.
      * intros [= <- <-]. split; cbn; assumption.
Qed.

Lemma mouseReleaseEvent_idle c c' emitted :
  mouseReleaseEvent get_bounding_box c = Some (c', emitted) ->
  group_drag_idle c -> group_drag_idle c'.
Proof.
  intros H [Hgroup Hdrag]. revert H. unfold mouseReleaseEvent.
  destruct (SelectionTool.is_active (selection_tool c)
            && SelectionTool.is_selecting (selection_tool c)) eqn:Hsel.
  - apply andb_prop in Hsel as [Ha Hs].
    unfold SelectionTool.finish_selection. rewrite Hs. cbn [negb].
    set (ids := SelectionTool.select_in _ _ _).
    set (c1 := set_group_selected_fragments ids _).
    assert (H1 : group_drag_idle c1).
    { split; cbn; [congruence | exact Hdrag]. }
    destruct (negb (bool_decide (ids = ∅))).
    + destruct (zoom_to_selected_fragments _ c1) as [[c2 out]|] eqn:Hz; [|discriminate].
      cbn. intros [= <- <-]. eapply zoom_to_selected_idle; eassumption.
    + cbn. intros [= <- <-]. exact H1.
  - intros [= <- <-]. split; cbn; [exact Hgroup | reflexivity].
Qed.

Lemma wheelEvent_idle c p (delta : Z) c' emitted :
  wheelEvent c p delta = Some (c', emitted) ->
  group_drag_idle c -> group_drag_idle c'.
Proof.
  intros H [Hgroup Hdrag]. revert H. unfold wheelEvent.
  destruct (screen_to_world c p); [|discriminate]. cbn [mbind option_bind].
  destruct (negb _); [|intros [= <- <-]; split; assumption].
  destruct (screen_to_world _ p); [|discriminate]. cbn [mbind option_bind].
  intros [= <- <-]. split; cbn; assumption.
Qed.

Lemma zoom_to_fit_idle c c' emitted :
  zoom_to_fit get_bounding_box c = Some (c', emitted) ->
  group_drag_idle c -> group_drag_idle c'.
Proof.
  unfold zoom_to_fit. destruct (List.filter _ _).
  - intros [= <- <-]. auto.
  - apply fit_bounds_idle.
Qed.

(** X14.  Through the canvas's own handlers no group drag is ever
    armed: "with the selection tool off the group selection is empty,
    and no group drag is in progress" holds for a fresh canvas and is
    kept by [set_selection_tool_active], [set_selected_fragment], the
    three mouse handlers, the wheel handler and the zoom operations. *)
Theorem group_drag_never_armed c :
  (∀ w h, group_drag_idle (init w h))
  ∧ (group_drag_idle c ->
     (∀ active, group_drag_idle (set_selection_tool_active c active))
     ∧ (∀ fragment_id, group_drag_idle (set_selected_fragment c fragment_id))
     ∧ (∀ button p c' emitted,
          mousePressEvent contains_point c button p = Some (c', emitted) ->
          group_drag_idle c')
     ∧ (∀ p c' emitted,
          mouseMoveEvent c p = Some (c', emitted) -> group_drag_idle c')
     ∧ (∀ c' emitted,
          mouseReleaseEvent get_bounding_box c = Some (c', emitted) ->
          group_drag_idle c')
     ∧ (∀ p delta c' emitted,
          wheelEvent c p delta = Some (c', emitted) -> group_drag_idle c')
     ∧ (∀ c' emitted,
          zoom_to_fit get_bounding_box c = Some (c', emitted) -> group_drag_idle c')
     ∧ (∀ c' emitted,
          zoom_to_selected_fragments get_bounding_box c = Some (c', emitted) ->
          group_drag_idle c')
     ∧ group_drag_idle (zoom_to_100 c).1).
Proof.
  split; [intros w h; split; reflexivity|].
  intros Hidle. pose proof Hidle as [Hgroup Hdrag].
  split; [|split; [|split; [|split; [|split; [|split; [|split; [|split]]]]]]].
  - intros active. unfold set_selection_tool_active.
    destruct active; split; cbn; auto; discriminate.
  - intros fragment_id. unfold set_selected_fragment.
    destruct (negb _); split; cbn; assumption.
  - intros button p c' emitted H. eapply mousePressEvent_idle; eassumption.
  - intros p c' emitted H. eapply mouseMoveEvent_idle; eassumption.
  - intros c' emitted H. eapply mouseReleaseEvent_idle; eassumption.
  - intros p delta c' emitted H. eapply wheelEvent_idle; eassumption.
  - intros c' emitted H. eapply zoom_to_fit_idle; eassumption.
  - intros c' emitted H. eapply zoom_to_selected_idle; eassumption.
  - split; cbn; assumption.
Qed.
End CanvasInteraction.

Lemma group_drag_never_armed_example :
  ∃ c' emitted,
    CanvasWidget.mousePressEvent (Scene.box_contains 20 20) Scene.canvas_one
      CanvasWidget.LeftButton (QPoint.mk 5 5) = Some (c', emitted)
    ∧ CanvasWidget.group_drag_idle c'.
Proof.
  assert (Hidle : CanvasWidget.group_drag_idle Scene.canvas_one)
    by (split; reflexivity).
  destruct (group_drag_never_armed (Scene.bounding_box 20 20) (Scene.box_contains 20 20)
              Scene.canvas_one) as [_ H].
  destruct (H Hidle) as (_ & _ & Hpress & _).
  eexists _, _. split; [vm_compute; reflexivity|].
  eapply (Hpress CanvasWidget.LeftButton (QPoint.mk 5 5)). vm_compute. reflexivity.
Defined.

Section SingleDrag.
Import CanvasWidget.
Variable get_bounding_box : Fragment.t -> Q * Q * Q * Q.
Variable contains_point : Fragment.t -> Q -> Q -> bool.
Implicit Types (c : CanvasWidget.t) (p : QPoint.t).

(** X15.  A release that does not finish a rectangle selection ends
    every drag and pan: it emits nothing, clears the panning, dragging
    and group-dragging flags, the dragged id and the captured offsets,
    and a mouse move right after it requests nothing and only records
    the cursor. *)
Theorem release_ends_drags c p :
  SelectionTool.is_active (selection_tool c)
  && SelectionTool.is_selecting (selection_tool c) = false ->
  ∃ c',
    mouseReleaseEvent get_bounding_box c = Some (c', [])
    ∧ is_panning c' = false ∧ is_dragging_fragment c' = false
    ∧ is_group_dragging c' = false ∧ dragged_fragment_id c' = None
    ∧ group_drag_offsets c' = ∅
    ∧ mouseMoveEvent c' p = Some (set_last_mouse_pos p c', []).
Proof.
  intros Hsel. unfold mouseReleaseEvent. rewrite Hsel.
  eexists. split; [reflexivity|]. repeat (split; [reflexivity|]).
  unfold mouseMoveEvent. cbn. rewrite Hsel. reflexivity.
Qed.

(** X16.  With the selection tool off and no group drag in progress, a
    left press on a fragment outside the group selection announces that
    fragment ([fragment_selected]), empties the group selection and
    starts dragging it; a move then requests exactly one position for
    it, [cursor - int(press - position)], which is off the cursor
    displacement by less than one unit and on it when the fragment's
    position is integral. *)
Theorem single_drag_moves c (press cursor world_pos world_pos' : QPoint.t)
    (clicked : Fragment.t) :
  SelectionTool.is_active (selection_tool c) = false ->
  is_group_dragging c = false ->
  screen_to_world c press = Some world_pos ->
  get_fragment_at_position contains_point c
    (inject_Z (QPoint.x world_pos)) (inject_Z (QPoint.y world_pos)) = Some clicked ->
  Fragment.id clicked ∉ group_selected_fragments c ->
  Fragment.id clicked ≠ EmptyString ->
  screen_to_world c cursor = Some world_pos' ->
  let offset_x := py_int (inject_Z (QPoint.x world_pos) - Fragment.x clicked) in
  let offset_y := py_int (inject_Z (QPoint.y world_pos) - Fragment.y clicked) in
  let new_x := py_float (QPoint.x world_pos' - offset_x) in
  let new_y := py_float (QPoint.y world_pos' - offset_y) in
  ∃ c1 c2,
    mousePressEvent contains_point c LeftButton press
    = Some (c1, [fragment_selected (Fragment.id clicked)])
    ∧ group_selected_fragments c1 = ∅
    ∧ is_dragging_fragment c1 = true
    ∧ mouseMoveEvent c1 cursor
      = Some (c2, [fragment_moved (Fragment.id clicked) new_x new_y])
    ∧ (Qabs (new_x - Fragment.x clicked
             - inject_Z (QPoint.x world_pos' - QPoint.x world_pos)) < 1)%Q
    ∧ (Qabs (new_y - Fragment.y clicked
             - inject_Z (QPoint.y world_pos' - QPoint.y world_pos)) < 1)%Q
    ∧ (∀ a b : Z,
         (Fragment.x clicked == inject_Z a)%Q -> (Fragment.y clicked == inject_Z b)%Q ->
         (new_x - Fragment.x clicked
          == inject_Z (QPoint.x world_pos' - QPoint.x world_pos))%Q
         ∧ (new_y - Fragment.y clicked
            == inject_Z (QPoint.y world_pos' - QPoint.y world_pos))%Q).
Proof.
  intros Htool Hdrag Hpress Hclicked Hmember Hid Hcursor. cbv zeta.
  eexists _, _. split; [|split; [|split; [|split; [|split; [|split]]]]].
  - unfold mousePressEvent. rewrite Hpress. cbn [mbind option_bind].
    rewrite Htool, Hclicked, bool_decide_eq_false_2 by exact Hmember.
    reflexivity.
  - reflexivity.
  - reflexivity.
  - unfold mouseMoveEvent.
    cbn [selection_tool is_group_dragging is_dragging_fragment dragged_fragment_id
         drag_offset set_last_mouse_pos set_drag_offset set_dragged_fragment_id
         set_is_dragging_fragment set_group_selected_fragments negb].
    rewrite Htool, Hdrag. cbn [andb negb].
    rewrite truthy_Some by exact Hid.
    match goal with
    | |- context [screen_to_world ?c1 cursor] =>
        change (screen_to_world c1 cursor) with (screen_to_world c cursor)
    end.
    rewrite Hcursor. reflexivity.
  - apply truncated_offset_error.
  - apply truncated_offset_error.
  - intros a b Ha Hb. split; eapply truncated_offset_exact; eassumption.
Qed.
End SingleDrag.

Lemma release_ends_drags_example :
  ∃ c',
    CanvasWidget.mouseReleaseEvent (Scene.bounding_box 20 20) Scene.canvas_group
    = Some (c', [])
    ∧ CanvasWidget.mouseMoveEvent c' (QPoint.mk 7 7)
      = Some (CanvasWidget.set_last_mouse_pos (QPoint.mk 7 7) c', []).
Proof.
  destruct (release_ends_drags (Scene.bounding_box 20 20) Scene.canvas_group
              (QPoint.mk 7 7) eq_refl) as (c' & H1 & _ & _ & _ & _ & _ & H2).
  exists c'. split; assumption.
Defined.

Lemma single_drag_moves_example :
  ∃ c1 c2,
    CanvasWidget.mousePressEvent (Scene.box_contains 20 20) Scene.canvas_one
      CanvasWidget.LeftButton (QPoint.mk 5 5)
    = Some (c1, [CanvasWidget.fragment_selected "a"])
    ∧ CanvasWidget.mouseMoveEvent c1 (QPoint.mk 8 9)
      = Some (c2, [CanvasWidget.fragment_moved "a" (inject_Z 3) (inject_Z 4)]).
Proof.
  destruct (single_drag_moves (Scene.box_contains 20 20) Scene.canvas_one
              (QPoint.mk 5 5) (QPoint.mk 8 9) (QPoint.mk 5 5) (QPoint.mk 8 9)
              (Scene.fragment "a" 0 0 false) eq_refl eq_refl eq_refl eq_refl)
    as (c1 & c2 & H1 & _ & _ & H2 & _).
  { vm_compute. intros H. discriminate H. }
  { discriminate. }
  { reflexivity. }
  exists c1, c2. split; assumption.
Defined.

Section ViewportMore.
Import CanvasWidget.
Variable get_bounding_box : Fragment.t -> Q * Q * Q * Q.
Implicit Types (c : CanvasWidget.t) (p : QPoint.t).

Lemma float_eqb_true (a b : Q) : (a == b)%Q -> float_eqb a b = true.
Proof. intros H. apply Qeq_bool_iff. exact H. Qed.

(** X17.  At the clamp the wheel does nothing: wheeling up at the
    maximum zoom, or down at the minimum zoom, leaves the canvas as it
    is and emits no signal.  In every case the wheel handler changes
    the zoom and the pan and nothing else. *)
Theorem wheelEvent_at_clamp c p (delta : Z) :
  (0 < zoom c)%Q -> (0 < min_zoom c)%Q -> (min_zoom c <= max_zoom c)%Q ->
  ((zoom c == max_zoom c)%Q -> 0 < delta -> wheelEvent c p delta = Some (c, []))
  ∧ ((zoom c == min_zoom c)%Q -> delta <= 0 -> wheelEvent c p delta = Some (c, []))
  ∧ ∃ c' emitted,
      wheelEvent c p delta = Some (c', emitted)
      ∧ c' = set_pan_y (pan_y c') (set_pan_x (pan_x c') (set_zoom (zoom c') c)).
Proof.
  intros Hz Hmin0 Hle.
  assert (Hnz : ¬ (zoom c == 0)%Q) by lra.
  split; [|split].
  - intros Hmax Hd. unfold wheelEvent.
    rewrite (screen_to_world_nonzero c p Hnz). cbn [mbind option_bind].
    rewrite (proj2 (Z.ltb_lt 0 delta) Hd).
    rewrite float_eqb_true; [reflexivity|].
    unfold np_clip. apply Q.min_case_strong; [intros x y H; rewrite H; tauto | |].
    + intros Hc. apply Qle_antisym; [lra|].
      eapply Qle_trans; [|apply Q.le_max_l]. nra.
    + intros _. symmetry. exact Hmax.
  - intros Hmin Hd. unfold wheelEvent.
    rewrite (screen_to_world_nonzero c p Hnz). cbn [mbind option_bind].
    rewrite (proj2 (Z.ltb_ge 0 delta) Hd).
    rewrite float_eqb_true; [reflexivity|].
    assert (Hsmall : (zoom c * (1 / (12 # 10)) <= min_zoom c)%Q).
    { rewrite <- Hmin. assert (He : (1 / (12 # 10) == 10 # 12)%Q) by reflexivity.
      rewrite He. nra. }
    unfold np_clip. apply Q.min_case_strong; [intros x y H; rewrite H; tauto | |].
    + intros _. rewrite Q.max_r by exact Hsmall. symmetry. exact Hmin.
    + intros Hc. rewrite Q.max_r in Hc by exact Hsmall. lra.
  - unfold wheelEvent.
    rewrite (screen_to_world_nonzero c p Hnz). cbn [mbind option_bind].
    destruct (negb _) eqn:Hneq.
    + assert (Hnew : ¬ (np_clip (zoom c * (if 0 <? delta then 12 # 10 else 1 / (12 # 10)))
                                (min_zoom c) (max_zoom c) == 0)%Q).
      { destruct (np_clip_range
                    (zoom c * (if 0 <? delta then 12 # 10 else 1 / (12 # 10)))
                    (min_zoom c) (max_zoom c) Hle) as [Hlo _]. lra. }
      rewrite (screen_to_world_nonzero (set_zoom _ c) p) by exact Hnew.
      cbn [mbind option_bind]. eexists _, _. split; reflexivity.
    + eexists _, _. split; [reflexivity|]. destruct c; reflexivity.
Qed.

Lemma fit_bounds_result c (min_x min_y max_x max_y : Q) :
  (0 < max_x - min_x)%Q -> (0 < max_y - min_y)%Q ->
  0 < width c -> 0 < height c ->
  let z := (Qmin (inject_Z (width c) / (max_x - min_x))
                 (inject_Z (height c) / (max_y - min_y)) * (9 # 10))%Q in
  (0 < z)%Q
  ∧ fit_bounds c (min_x, min_y, max_x, max_y)
    = Some (set_pan_y (inject_Z (height c) / 2 / z - (min_y + max_y) / 2)
              (set_pan_x (inject_Z (width c) / 2 / z - (min_x + max_x) / 2)
                 (set_zoom z c)),
            [viewport_changed z
               (inject_Z (width c) / 2 / z - (min_x + max_x) / 2)
               (inject_Z (height c) / 2 / z - (min_y + max_y) / 2)]).
Proof.
  intros Hw Hh HW HH z.
  assert (Hz : (0 < z)%Q).
  { subst z.
    assert (H1 : (0 < inject_Z (width c) / (max_x - min_x))%Q).
    { apply Qlt_shift_div_l; [exact Hw|]. rewrite Qmult_0_l.
      change 0%Q with (inject_Z 0). rewrite <- Zlt_Qlt. exact HW. }
    assert (H2 : (0 < inject_Z (height c) / (max_y - min_y))%Q).
    { apply Qlt_shift_div_l; [exact Hh|]. rewrite Qmult_0_l.
      change 0%Q with (inject_Z 0). rewrite <- Zlt_Qlt. exact HH. }
    apply Q.min_case_strong; intros; try lra.
    all: match goal with H : (_ == _)%Q |- _ => rewrite <- H; assumption end. }
  split; [exact Hz|]. unfold fit_bounds.
  rewrite (Qle_bool_false _ _ Hw), (Qle_bool_false _ _ Hh). cbn [orb].
  rewrite !py_div_nonzero by lra. cbn [mbind option_bind].
  fold z. cbn [zoom set_zoom set_pan_x set_pan_y].
  rewrite !py_div_nonzero by lra. cbn [mbind option_bind]. reflexivity.
Qed.

Lemma content_bounds_contains (first : Fragment.t) (rest : list Fragment.t) f :
  f ∈ first :: rest ->
  let '(min_x, min_y, max_x, max_y) := content_bounds get_bounding_box first rest in
  let '(bbox_x, bbox_y, bbox_w, bbox_h) := get_bounding_box f in
  (min_x <= bbox_x)%Q ∧ (min_y <= bbox_y)%Q
  ∧ (bbox_x + bbox_w <= max_x)%Q ∧ (bbox_y + bbox_h <= max_y)%Q.
Proof.
  intros Hf. unfold content_bounds.
  destruct (get_bounding_box first) as [[[x0 y0] w0] h0] eqn:Hbox.
  change (extend_bounds get_bounding_box)
    with (FragmentManager.extend_bounds get_bounding_box).
  pose proof (extend_bounds_fold get_bounding_box rest
                (x0, y0, (x0 + w0)%Q, (y0 + h0)%Q)) as H.
  cbv beta iota in H.
  destruct (fold_left _ rest _) as [[[min_x' min_y'] max_x'] max_y'].
  destruct H as [(H1 & H2 & H3 & H4) Hrest].
  apply elem_of_cons in Hf as [->|Hf]; [|apply Hrest, Hf].
  rewrite Hbox. repeat split; lra.
Qed.

(** X18.  [zoom_to_fit] does nothing when no visible fragment has pixel
    data or when the content has no width or no height.  Otherwise (on
    a widget of positive size) the bounds it frames contain the box of
    every visible fragment with data, the zoom it writes makes the
    content fill at most nine tenths of the widget in each direction,
    exactly nine tenths in one of them, and the pan it writes puts the
    centre of the content at the centre of the widget (floats as exact
    rationals). *)
Theorem zoom_to_fit_frames_content c :
  (List.filter
     (fun f => Fragment.visible f
               && match Fragment.image_data f with Some _ => true | None => false end)
     (fragments c) = [] ->
   zoom_to_fit get_bounding_box c = Some (c, []))
  ∧ ∀ first rest min_x min_y max_x max_y,
      List.filter
        (fun f => Fragment.visible f
                  && match Fragment.image_data f with Some _ => true | None => false end)
        (fragments c) = first :: rest ->
      content_bounds get_bounding_box first rest = (min_x, min_y, max_x, max_y) ->
      (∀ f, f ∈ first :: rest ->
            let '(bbox_x, bbox_y, bbox_w, bbox_h) := get_bounding_box f in
            (min_x <= bbox_x)%Q ∧ (min_y <= bbox_y)%Q
            ∧ (bbox_x + bbox_w <= max_x)%Q ∧ (bbox_y + bbox_h <= max_y)%Q)
      ∧ ((max_x - min_x <= 0)%Q ∨ (max_y - min_y <= 0)%Q ->
         zoom_to_fit get_bounding_box c = Some (c, []))
      ∧ ((0 < max_x - min_x)%Q -> (0 < max_y - min_y)%Q ->
         0 < width c -> 0 < height c ->
         ∃ c' emitted,
           zoom_to_fit get_bounding_box c = Some (c', emitted)
           ∧ (0 < zoom c')%Q
           ∧ (zoom c' * (max_x - min_x) <= (9 # 10) * inject_Z (width c))%Q
           ∧ (zoom c' * (max_y - min_y) <= (9 # 10) * inject_Z (height c))%Q
           ∧ ((zoom c' * (max_x - min_x) == (9 # 10) * inject_Z (width c))%Q
              ∨ (zoom c' * (max_y - min_y) == (9 # 10) * inject_Z (height c))%Q)
           ∧ (((min_x + max_x) / 2 + pan_x c') * zoom c' == inject_Z (width c) / 2)%Q
           ∧ (((min_y + max_y) / 2 + pan_y c') * zoom c' == inject_Z (height c) / 2)%Q).
Proof.
  unfold zoom_to_fit. split; [intros ->; reflexivity|].
  intros first rest min_x min_y max_x max_y Hfilter Hbounds. rewrite Hfilter, Hbounds.
  split; [|split].
  - intros f Hf. pose proof (content_bounds_contains first rest f Hf) as H.
    rewrite Hbounds in H. exact H.
  - intros Hdeg. unfold fit_bounds.
    destruct Hdeg as [H|H]; apply Qle_bool_iff in H; rewrite H;
      [reflexivity | rewrite orb_true_r; reflexivity].
  - intros Hw Hh HW HH.
    destruct (fit_bounds_result c min_x min_y max_x max_y Hw Hh HW HH) as [Hz Hfit].
    rewrite Hfit. eexists _, _. split; [reflexivity|].
    cbn [zoom pan_x pan_y set_zoom set_pan_x set_pan_y].
    set (cw := (max_x - min_x)%Q) in *. set (ch := (max_y - min_y)%Q) in *.
    set (zx := (inject_Z (width c) / cw)%Q) in *.
    set (zy := (inject_Z (height c) / ch)%Q) in *.
    assert (Hzx : (zx * cw == inject_Z (width c))%Q) by (subst zx; field; lra).
    assert (Hzy : (zy * ch == inject_Z (height c))%Q) by (subst zy; field; lra).
    set (mn := Qmin zx zy) in *.
    assert (Hmx : (mn <= zx)%Q) by apply Q.le_min_l.
    assert (Hmy : (mn <= zy)%Q) by apply Q.le_min_r.
    assert (Hcases : (mn == zx)%Q ∨ (mn == zy)%Q).
    { subst mn. destruct (Q.min_spec zx zy) as [[_ H]|[_ H]]; auto. }
    split; [exact Hz|].
    split; [nra|]. split; [nra|].
    split; [destruct Hcases as [H|H]; [left | right]; rewrite H; nra|].
    split; field; lra.
Qed.
End ViewportMore.

Lemma zoom_to_fit_frames_content_example :
  ∃ c' emitted,
    CanvasWidget.zoom_to_fit (Scene.bounding_box 200 100) Scene.canvas_one
    = Some (c', emitted)
    ∧ (CanvasWidget.zoom c' * (200 - 0) <= (9 # 10) * inject_Z 1000)%Q
    ∧ (((0 + 200) / 2 + CanvasWidget.pan_x c') * CanvasWidget.zoom c'
       == inject_Z 1000 / 2)%Q.
Proof.
  destruct (proj2 (zoom_to_fit_frames_content (Scene.bounding_box 200 100)
                     Scene.canvas_one)
              (Scene.fragment "a" 0 0 false) [] 0%Q 0%Q 200%Q 100%Q eq_refl eq_refl)
    as (_ & _ & H).
  destruct H as (c' & emitted & Hfit & _ & Hx & _ & _ & Hcx & _);
    [reflexivity | reflexivity | reflexivity | reflexivity |].
  exists c', emitted. split; [exact Hfit|]. split; [exact Hx | exact Hcx].
Defined.

Section ZoomLevel.
Import CanvasWidget.
Implicit Types (c : CanvasWidget.t) (p : QPoint.t).

Lemma float_ltb_spec (a b : Q) :
  (float_ltb a b = true ∧ (a < b)%Q) ∨ (float_ltb a b = false ∧ (b <= a)%Q).
Proof.
  unfold float_ltb. destruct (Qle_bool b a) eqn:E.
  - right. split; [reflexivity|]. apply Qle_bool_iff. exact E.
  - left. split; [reflexivity|]. apply Qnot_le_lt. intros H.
    apply Qle_bool_iff in H. congruence.
Qed.

(** The value of [get_zoom_level] by cases. *)
Lemma get_zoom_level_cases c :
  ((zoom c < 1 # 10)%Q ∧ get_zoom_level c = (1 # 10)%Q)
  ∨ ((1 # 10 <= zoom c)%Q ∧ (zoom c < 25 # 100)%Q ∧ get_zoom_level c = (25 # 100)%Q)
  ∨ ((25 # 100 <= zoom c)%Q ∧ (zoom c < 5 # 10)%Q ∧ get_zoom_level c = (5 # 10)%Q)
  ∨ ((5 # 10 <= zoom c)%Q ∧ (zoom c < 1)%Q ∧ get_zoom_level c = 1%Q)
  ∨ ((1 <= zoom c)%Q ∧ (zoom c < 2)%Q ∧ get_zoom_level c = 2%Q)
  ∨ ((2 <= zoom c)%Q ∧ (zoom c <= 10)%Q ∧ (get_zoom_level c == zoom c)%Q)
  ∨ ((10 < zoom c)%Q ∧ (get_zoom_level c == 10)%Q).
Proof.
  unfold get_zoom_level.
  destruct (float_ltb_spec (zoom c) (1 # 10)) as [[-> H1]|[-> H1]]; [left; auto|].
  destruct (float_ltb_spec (zoom c) (25 # 100)) as [[-> H2]|[-> H2]];
    [right; left; auto|].
  destruct (float_ltb_spec (zoom c) (5 # 10)) as [[-> H3]|[-> H3]];
    [right; right; left; auto|].
  destruct (float_ltb_spec (zoom c) 1) as [[-> H4]|[-> H4]];
    [right; right; right; left; auto|].
  destruct (float_ltb_spec (zoom c) 2) as [[-> H5]|[-> H5]];
    [right; right; right; right; left; auto|].
  right; right; right; right; right.
  destruct (Q.min_spec (zoom c) 10) as [[Hlt He]|[Hle He]].
  - left. split; [exact H5|]. split; [lra | exact He].
  - destruct (Qlt_le_dec 10 (zoom c)) as [Hgt|Hle'].
    + right. split; [exact Hgt | exact He].
    + left. split; [exact H5|]. split; [exact Hle'|]. rewrite He. lra.
Qed.

(** X19.  The quantized zoom level lies between 0.1 and 10, is never
    below the zoom unless the zoom exceeds 10, and never decreases when
    the zoom increases. *)
Theorem get_zoom_level_bounds c :
  (1 # 10 <= get_zoom_level c)%Q ∧ (get_zoom_level c <= 10)%Q
  ∧ ((zoom c <= 10)%Q -> (zoom c <= get_zoom_level c)%Q)
  ∧ ∀ c2, (zoom c <= zoom c2)%Q -> (get_zoom_level c <= get_zoom_level c2)%Q.
Proof.
  pose proof (get_zoom_level_cases c) as Hc.
  split; [|split; [|split]].
  - decompose [and or] Hc; try match goal with H : get_zoom_level c = _ |- _ =>
                                   rewrite H end; lra.
  - decompose [and or] Hc; try match goal with H : get_zoom_level c = _ |- _ =>
                                   rewrite H end; lra.
  - intros Hz.
    decompose [and or] Hc; try match goal with H : get_zoom_level c = _ |- _ =>
                                   rewrite H end; lra.
  - intros c2 Hle. pose proof (get_zoom_level_cases c2) as Hc2.
    decompose [and or] Hc;
      try match goal with H : get_zoom_level c = _ |- _ => rewrite H end;
      decompose [and or] Hc2;
      try match goal with H : get_zoom_level c2 = _ |- _ => rewrite H end;
      lra.
Qed.

Lemma get_zoom_level_bounds_example :
  (get_zoom_level Scene.canvas_half
   <= get_zoom_level Scene.canvas)%Q.
Proof.
  apply (proj2 (proj2 (proj2 (get_zoom_level_bounds Scene.canvas_half))) Scene.canvas).
  vm_compute. discriminate.
Defined.

(** X24.  While panning (and no selection or drag is in progress, at a
    nonzero zoom) a mouse move adds the cursor's screen displacement
    divided by the zoom to the pan, announces the viewport and leaves
    the zoom alone: every world point moves on the screen by the very
    displacement of the cursor (floats as exact rationals). *)
Theorem pan_follows_cursor c p :
  SelectionTool.is_active (selection_tool c)
  && SelectionTool.is_selecting (selection_tool c) = false ->
  is_group_dragging c = false ->
  is_dragging_fragment c && truthy (dragged_fragment_id c) = false ->
  is_panning c = true ->
  ¬ (zoom c == 0)%Q ->
  ∃ c',
    mouseMoveEvent c p
    = Some (c', [viewport_changed (zoom c') (pan_x c') (pan_y c')])
    ∧ zoom c' = zoom c
    ∧ last_mouse_pos c' = p
    ∧ (pan_x c' == pan_x c
                   + inject_Z (QPoint.x p - QPoint.x (last_mouse_pos c)) / zoom c)%Q
    ∧ (pan_y c' == pan_y c
                   + inject_Z (QPoint.y p - QPoint.y (last_mouse_pos c)) / zoom c)%Q
    ∧ ∀ wx wy : Q,
        ((wx + pan_x c') * zoom c'
         == (wx + pan_x c) * zoom c
            + inject_Z (QPoint.x p - QPoint.x (last_mouse_pos c)))%Q
        ∧ ((wy + pan_y c') * zoom c'
           == (wy + pan_y c) * zoom c
              + inject_Z (QPoint.y p - QPoint.y (last_mouse_pos c)))%Q.
Proof.
  intros Hsel Hgroup Hdrag Hpan Hz. unfold mouseMoveEvent.
  rewrite Hsel, Hgroup, Hdrag, Hpan.
  rewrite (py_div_nonzero _ (zoom c) Hz). cbn [mbind option_bind].
  cbn [zoom set_pan_x]. rewrite (py_div_nonzero _ (zoom c) Hz).
  cbn [mbind option_bind].
  lazymatch goal with |- ∃ c', Some (?v, _) = _ ∧ _ => exists v end.
  split; [reflexivity|].
  cbn [zoom pan_x pan_y last_mouse_pos set_pan_x set_pan_y set_last_mouse_pos
       QPoint.sub QPoint.x QPoint.y].
  split; [reflexivity|]. split; [reflexivity|].
  split; [reflexivity|]. split; [reflexivity|].
  intros wx wy. split; field; exact Hz.
Qed.
End ZoomLevel.

Lemma pan_follows_cursor_example :
  ∃ c',
    CanvasWidget.mouseMoveEvent
      (CanvasWidget.set_is_panning true Scene.canvas_half) (QPoint.mk 4 6)
    = Some (c', [CanvasWidget.viewport_changed (CanvasWidget.zoom c')
                   (CanvasWidget.pan_x c') (CanvasWidget.pan_y c')])
    ∧ (CanvasWidget.pan_x c' == 8)%Q ∧ (CanvasWidget.pan_y c' == 12)%Q.
Proof.
  destruct (pan_follows_cursor (CanvasWidget.set_is_panning true Scene.canvas_half)
              (QPoint.mk 4 6) eq_refl eq_refl eq_refl eq_refl)
    as (c' & Hmove & _ & _ & Hx & Hy & _).
  { discriminate. }
  exists c'. split; [exact Hmove|]. split; [rewrite Hx | rewrite Hy]; reflexivity.
Defined.

Section RenderCacheFacts.
Import CanvasWidget.
Context {Pixmap : Type}.
Implicit Types (c : CanvasWidget.t) (rc : cache Pixmap) (k : string) (f : Fragment.t).

Lemma get_fragment_by_id_id c k f :
  get_fragment_by_id c k = Some f -> f ∈ fragments c ∧ Fragment.id f = k.
Proof.
  unfold get_fragment_by_id. intros H. apply find_some in H as [Hin Hid].
  split; [apply list_elem_of_In, Hin|]. apply bool_decide_eq_true_1 in Hid. exact Hid.
Qed.

Lemma get_fragment_by_id_listed c k :
  is_Some (get_fragment_by_id c k)
  <-> k ∈ (list_to_set (Fragment.id <$> fragments c) : gset string).
Proof.
  rewrite elem_of_list_to_set, list_elem_of_fmap. split.
  - intros [f Hf]. apply get_fragment_by_id_id in Hf as [Hin Hid]. eauto.
  - intros (f & -> & Hin). unfold get_fragment_by_id.
    destruct (List.find _ (fragments c)) as [g|] eqn:Hfind; [eauto|].
    exfalso. pose proof (proj1 (find_nothing _ _) Hfind f Hin) as Hn.
    rename Hn into Hfind'. clear Hfind. rename Hfind' into Hfind. apply bool_decide_eq_false_1 in Hfind. congruence.
Qed.

(** When a fragment of the new list is left alone by [update_fragments]:
    the canvas showed a fragment of that id, the cache flag is set, the
    rotation moved by at most 0.01, and flips and visibility are as
    they were.  Position, opacity and the other fields are not read. *)
Lemma needs_update_false c f :
  needs_update c f = false
  <-> ∃ old, get_fragment_by_id c (Fragment.id f) = Some old
             ∧ Fragment.cache_valid f = true
             ∧ (Qabs (Fragment.rotation old - Fragment.rotation f) <= 1 # 100)%Q
             ∧ Fragment.flip_horizontal old = Fragment.flip_horizontal f
             ∧ Fragment.flip_vertical old = Fragment.flip_vertical f
             ∧ Fragment.visible old = Fragment.visible f.
Proof.
  unfold needs_update.
  destruct (get_fragment_by_id c (Fragment.id f)) as [old|] eqn:Hold.
  - assert (Hin : Fragment.id f
                  ∈ (list_to_set (Fragment.id <$> fragments c) : gset string)).
    { apply get_fragment_by_id_listed. rewrite Hold. eauto. }
    rewrite (bool_decide_eq_true_2 _ Hin). cbn [negb orb].
    destruct (float_ltb_spec (1 # 100)
                (Qabs (Fragment.rotation old - Fragment.rotation f))) as [[-> Hr]|[-> Hr]];
      cbn [orb].
    + split; [discriminate|]. intros H.
      destruct H as (old' & Heq & Hcv & Hle & Hrest).
      assert (old' = old) by congruence. subst old'. lra.
    + destruct (Fragment.flip_horizontal old) eqn:E1,
        (Fragment.flip_horizontal f) eqn:E2,
        (Fragment.flip_vertical old) eqn:E3, (Fragment.flip_vertical f) eqn:E4,
        (Fragment.visible old) eqn:E5, (Fragment.visible f) eqn:E6,
        (Fragment.cache_valid f) eqn:E7;
        cbn [eqb negb orb];
        (split;
         [ first [ discriminate
                 | intros _; exists old; split; [reflexivity|];
                   split; [reflexivity|]; split; [exact Hr|];
                   split; [assumption|]; split; assumption ]
         | first [ intros _; reflexivity
                 | intros H; destruct H as (o & Heq & Hcv & Hle & Hfh & Hfv & Hvis);
                   assert (o = old) by congruence; subst o; congruence ] ]).
  - split; [|intros H; destruct H as (old & Hc & Hrest); discriminate].
    rewrite bool_decide_eq_false_2; [discriminate|].
    intros Hin. apply get_fragment_by_id_listed in Hin. rewrite Hold in Hin.
    destruct Hin as [? ?]. discriminate.
Qed.

Lemma pop_fold_lookup (ks : list string) rc k :
  let rc' := fold_left (fun rc fragment_id => pop_pixmap fragment_id rc) ks rc in
  fragment_pixmaps rc' !! k
  = (if bool_decide (k ∈ ks) then None else fragment_pixmaps rc !! k)
  ∧ fragment_zoom_cache rc' !! k
    = (if bool_decide (k ∈ ks) then None else fragment_zoom_cache rc !! k)
  ∧ dirty_fragments rc' = dirty_fragments rc.
Proof.
  revert rc. induction ks as [|i ks IH]; intros rc; cbn [fold_left].
  - rewrite bool_decide_eq_false_2 by (intros H; inversion H). auto.
  - destruct (IH (pop_pixmap i rc)) as (H1 & H2 & H3). rewrite H1, H2, H3. clear IH H1 H2 H3.
    cbn [pop_pixmap fragment_pixmaps fragment_zoom_cache dirty_fragments].
    destruct (decide (k ∈ ks)) as [Hin|Hnin].
    + rewrite !(bool_decide_eq_true_2 (k ∈ ks)) by exact Hin.
      rewrite !(bool_decide_eq_true_2 (k ∈ i :: ks)) by (right; exact Hin). auto.
    + rewrite !(bool_decide_eq_false_2 (k ∈ ks)) by exact Hnin.
      destruct (decide (i = k)) as [->|Hne].
      * rewrite !(bool_decide_eq_true_2 (k ∈ k :: ks)) by left.
        rewrite !lookup_delete_eq. auto.
      * rewrite !(bool_decide_eq_false_2 (k ∈ i :: ks))
          by (intros H; apply elem_of_cons in H as [->|H]; congruence).
        rewrite !lookup_delete_ne by exact Hne. auto.
Qed.

Lemma update_round_lookup c rc f k :
  fragment_pixmaps (update_round c rc f) !! k
  = (if bool_decide (Fragment.id f = k) && (needs_update c f || negb (Fragment.visible f))
     then None else fragment_pixmaps rc !! k)
  ∧ fragment_zoom_cache (update_round c rc f) !! k
    = (if bool_decide (Fragment.id f = k) && (needs_update c f || negb (Fragment.visible f))
       then None else fragment_zoom_cache rc !! k)
  ∧ (k ∈ dirty_fragments (update_round c rc f)
     <-> k ∈ dirty_fragments rc ∨ (Fragment.id f = k ∧ needs_update c f = true)).
Proof.
  unfold update_round.
  destruct (needs_update c f), (Fragment.visible f);
    cbn [negb orb pop_pixmap fragment_pixmaps fragment_zoom_cache dirty_fragments];
    (destruct (decide (Fragment.id f = k)) as [->|Hne];
     [rewrite !bool_decide_eq_true_2 by reflexivity
     |rewrite !bool_decide_eq_false_2 by exact Hne]);
    cbn [andb];
    rewrite ?lookup_delete_eq, ?lookup_delete_ne by exact Hne;
    (split; [reflexivity|split; [reflexivity|]]);
    rewrite ?elem_of_union, ?elem_of_singleton; intuition congruence.
Qed.

Lemma update_fold_lookup c (frs : list Fragment.t) rc k :
  let rc' := fold_left (update_round c) frs rc in
  fragment_pixmaps rc' !! k
  = (if existsb (fun f => bool_decide (Fragment.id f = k) && (needs_update c f || negb (Fragment.visible f))) frs
     then None else fragment_pixmaps rc !! k)
  ∧ fragment_zoom_cache rc' !! k
    = (if existsb (fun f => bool_decide (Fragment.id f = k) && (needs_update c f || negb (Fragment.visible f))) frs
       then None else fragment_zoom_cache rc !! k)
  ∧ (k ∈ dirty_fragments rc'
     <-> k ∈ dirty_fragments rc
         ∨ ∃ f, f ∈ frs ∧ Fragment.id f = k ∧ needs_update c f = true).
Proof.
  revert rc. induction frs as [|f0 frs IH]; intros rc; cbn [fold_left existsb].
  - split; [reflexivity|]. split; [reflexivity|]. split; [auto|].
    intros [H|(f & Hin & _)]; [exact H | inversion Hin].
  - destruct (IH (update_round c rc f0)) as (H1 & H2 & H3). rewrite H1, H2, H3.
    clear IH H1 H2 H3.
    destruct (update_round_lookup c rc f0 k) as (R1 & R2 & R3). rewrite R1, R2, R3.
    destruct (existsb _ frs); [rewrite !orb_true_r|rewrite !orb_false_r].
    + split; [reflexivity|]. split; [reflexivity|]. split.
      * intros [[H|[Hid Hn]]|(f & Hin & H)]; [auto| |].
        -- right. exists f0. split; [left|]. auto.
        -- right. exists f. split; [right; exact Hin | exact H].
      * intros [H|(f & Hin & Hid & Hn)]; [auto|].
        apply elem_of_cons in Hin as [->|Hin]; [auto|]. right. eauto.
    + split; [reflexivity|]. split; [reflexivity|]. split.
      * intros [[H|[Hid Hn]]|(f & Hin & H)]; [auto| |].
        -- right. exists f0. split; [left|]. auto.
        -- right. exists f. split; [right; exact Hin | exact H].
      * intros [H|(f & Hin & Hid & Hn)]; [auto|].
        apply elem_of_cons in Hin as [->|Hin]; [auto|]. right. eauto.
Qed.

Lemma update_fragments_lookup c rc (new : list Fragment.t) k :
  let rc' := (update_fragments c rc new).2 in
  let gone :=
    existsb (fun f => bool_decide (Fragment.id f = k)
                      && (needs_update c f || negb (Fragment.visible f))) new
    || bool_decide (k ∈ elements
                      ((list_to_set (Fragment.id <$> fragments c) : gset string)
                       ∖ list_to_set (Fragment.id <$> new))) in
  fragment_pixmaps rc' !! k = (if gone then None else fragment_pixmaps rc !! k)
  ∧ fragment_zoom_cache rc' !! k = (if gone then None else fragment_zoom_cache rc !! k)
  ∧ (k ∈ dirty_fragments rc'
     <-> k ∈ dirty_fragments rc
         ∨ ∃ f, f ∈ new ∧ Fragment.id f = k ∧ needs_update c f = true).
Proof.
  unfold update_fragments. cbn [snd].
  set (ks := elements _).
  destruct (pop_fold_lookup ks rc k) as (P1 & P2 & P3).
  destruct (update_fold_lookup c new
              (fold_left (fun rc fragment_id => pop_pixmap fragment_id rc) ks rc) k)
    as (U1 & U2 & U3).
  cbv zeta in *. rewrite U1, U2, U3, P1, P2, P3.
  destruct (existsb _ new), (bool_decide (k ∈ ks)); auto.
Qed.

(** X20.  [update_fragments] installs the new list and never adds a
    pixmap.  It drops the pixmap and zoom-cache entry of every listed
    fragment that needs an update or is invisible, and of every
    fragment the canvas showed that is no longer listed; it marks dirty
    exactly the listed fragments that need an update; and it leaves the
    entries of an id alone when every listed fragment of that id is
    visible, was shown visible before, has a valid cache, the same
    flips and a rotation within 0.01 of the old one, wherever it has
    been moved. *)
Theorem update_fragments_cache_policy c rc (new : list Fragment.t) :
  let c' := (update_fragments c rc new).1 in
  let rc' := (update_fragments c rc new).2 in
  fragments c' = new
  ∧ (∀ k, fragment_pixmaps rc' !! k = None
          ∨ fragment_pixmaps rc' !! k = fragment_pixmaps rc !! k)
  ∧ (∀ f, f ∈ new ->
          needs_update c f = true ∨ Fragment.visible f = false ->
          fragment_pixmaps rc' !! Fragment.id f = None
          ∧ fragment_zoom_cache rc' !! Fragment.id f = None)
  ∧ (∀ k, is_Some (get_fragment_by_id c k) ->
          (∀ f, f ∈ new -> Fragment.id f ≠ k) ->
          fragment_pixmaps rc' !! k = None ∧ fragment_zoom_cache rc' !! k = None)
  ∧ (∀ k, k ∈ dirty_fragments rc'
          <-> k ∈ dirty_fragments rc
              ∨ ∃ f, f ∈ new ∧ Fragment.id f = k ∧ needs_update c f = true)
  ∧ (∀ k, (∃ f, f ∈ new ∧ Fragment.id f = k) ->
          (∀ f, f ∈ new -> Fragment.id f = k ->
                Fragment.visible f = true
                ∧ Fragment.cache_valid f = true
                ∧ ∃ old, get_fragment_by_id c k = Some old
                         ∧ Fragment.visible old = true
                         ∧ Fragment.flip_horizontal old = Fragment.flip_horizontal f
                         ∧ Fragment.flip_vertical old = Fragment.flip_vertical f
                         ∧ (Qabs (Fragment.rotation old - Fragment.rotation f)
                            <= 1 # 100)%Q) ->
          fragment_pixmaps rc' !! k = fragment_pixmaps rc !! k
          ∧ fragment_zoom_cache rc' !! k = fragment_zoom_cache rc !! k
          ∧ (k ∈ dirty_fragments rc' <-> k ∈ dirty_fragments rc)).
Proof.
  cbv zeta. split; [reflexivity|].
  split; [|split; [|split; [|split]]].
  - intros k. destruct (update_fragments_lookup c rc new k) as (H1 & _).
    cbv zeta in H1. rewrite H1. destruct (_ || _); auto.
  - intros f Hin Hdrop.
    destruct (update_fragments_lookup c rc new (Fragment.id f)) as (H1 & H2 & _).
    cbv zeta in H1, H2. rewrite H1, H2.
    assert (He : existsb
                   (fun f0 => bool_decide (Fragment.id f0 = Fragment.id f)
                              && (needs_update c f0 || negb (Fragment.visible f0)))
                   new = true).
    { apply existsb_exists. exists f. split; [apply list_elem_of_In, Hin|].
      rewrite bool_decide_eq_true_2 by reflexivity.
      destruct Hdrop as [-> | ->]; [reflexivity | apply orb_true_r]. }
    rewrite He. auto.
  - intros k Hold Hnew.
    destruct (update_fragments_lookup c rc new k) as (H1 & H2 & _).
    cbv zeta in H1, H2. rewrite H1, H2.
    rewrite (bool_decide_eq_true_2 (k ∈ elements _)); [rewrite orb_true_r; auto|].
    apply elem_of_elements, elem_of_difference. split.
    + apply get_fragment_by_id_listed, Hold.
    + rewrite elem_of_list_to_set, list_elem_of_fmap.
      intros (f & -> & Hin). exact (Hnew f Hin eq_refl).
  - intros k. apply update_fragments_lookup.
  - intros k [f0 [Hin0 Hid0]] Hkeep.
    destruct (update_fragments_lookup c rc new k) as (H1 & H2 & H3).
    cbv zeta in H1, H2. rewrite H1, H2, H3.
    assert (Hno : ∀ f, f ∈ new -> Fragment.id f = k -> needs_update c f = false).
    { intros f Hin Hid. destruct (Hkeep f Hin Hid) as (Hv & Hcv & old & Ho & Hov & Hfh & Hfv & Hr).
      apply needs_update_false. exists old. rewrite Hid.
      repeat split; try assumption. congruence. }
    assert (He : existsb
                   (fun f => bool_decide (Fragment.id f = k)
                             && (needs_update c f || negb (Fragment.visible f)))
                   new = false).
    { destruct (existsb _ new) eqn:E; [|reflexivity]. exfalso.
      apply existsb_exists in E as (f & Hin & Hf). apply list_elem_of_In in Hin.
      apply andb_prop in Hf as [Hid Hd]. apply bool_decide_eq_true_1 in Hid.
      rewrite (Hno f Hin Hid) in Hd. destruct (Hkeep f Hin Hid) as (Hv & _).
      rewrite Hv in Hd. discriminate. }
    assert (Hk : bool_decide
                   (k ∈ elements
                      ((list_to_set (Fragment.id <$> fragments c) : gset string)
                       ∖ list_to_set (Fragment.id <$> new))) = false).
    { apply bool_decide_eq_false_2. rewrite elem_of_elements, elem_of_difference.
      intros [_ Hn]. apply Hn. rewrite elem_of_list_to_set, list_elem_of_fmap.
      exists f0. auto. }
    rewrite He, Hk. cbn [orb]. split; [reflexivity|]. split; [reflexivity|].
    split; [|auto]. intros [H|(f & Hin & Hid & Hn)]; [exact H|].
    rewrite (Hno f Hin Hid) in Hn. discriminate.
Qed.
End RenderCacheFacts.

Section RenderFacts.
Import CanvasWidget.
Context {Pixmap Image : Type}.
Variable image_shape : Image -> list Z.
Variable get_transformed_image : Fragment.t -> option Image.
Variable to_pixmap : Image -> Pixmap.
Implicit Types (c : CanvasWidget.t) (rc : cache Pixmap) (k : string) (f : Fragment.t).


Lemma numpy_to_pixmap_result (img : Image) px :
  numpy_to_pixmap image_shape to_pixmap img = Some (Some px) -> px = to_pixmap img.
Proof.
  unfold numpy_to_pixmap.
  destruct (fold_right Z.mul 1 (image_shape img) =? 0); [discriminate|].
  destruct (image_shape img) as [|h [|w [|ch [|]]]]; try discriminate.
  destruct (ch =? 4); [congruence|]. destruct (ch =? 3); [congruence|discriminate].
Qed.

Lemma numpy_to_pixmap_colour (img : Image) h w ch :
  image_shape img = [h; w; ch] -> h * w <> 0 -> ch = 3 ∨ ch = 4 ->
  numpy_to_pixmap image_shape to_pixmap img = Some (Some (to_pixmap img)).
Proof.
  intros Hs Hhw Hch. unfold numpy_to_pixmap. rewrite Hs. cbn [fold_right].
  assert ((h * (w * (ch * 1)) =? 0) = false) as ->.
  { apply Z.eqb_neq. destruct Hch; subst ch; nia. }
  destruct Hch; subst ch; reflexivity.
Qed.

Lemma numpy_to_pixmap_returns (img : Image) :
  (2 <= length (image_shape img))%nat ->
  is_Some (numpy_to_pixmap image_shape to_pixmap img).
Proof.
  intros Hlen. unfold numpy_to_pixmap.
  destruct (fold_right Z.mul 1 (image_shape img) =? 0); [eauto|].
  destruct (image_shape img) as [|h [|w rest]]; cbn [length] in Hlen; try lia.
  destruct rest as [|ch [|]]; eauto.
  destruct (ch =? 4); [eauto|]. destruct (ch =? 3); eauto.
Qed.

(** What one round of [render_dirty_fragments] does to the cache. *)
Lemma render_round_cases c rc i rc2 :
  render_round image_shape get_transformed_image to_pixmap c (Some rc) i = Some rc2 ->
  rc2 = rc
  ∨ ∃ f img, get_fragment_by_id c i = Some f ∧ Fragment.visible f = true
             ∧ get_transformed_image f = Some img
             ∧ rc2 = mk_cache (<[ i := to_pixmap img ]> (fragment_pixmaps rc))
                              (<[ i := zoom c ]> (fragment_zoom_cache rc))
                              (dirty_fragments rc).
Proof.
  unfold render_round. cbn [mbind option_bind].
  destruct (get_fragment_by_id c i) as [f|] eqn:Hf; [|left; congruence].
  destruct (Fragment.visible f) eqn:Hv; [|left; congruence].
  unfold render_fragment_pixmap.
  destruct (Fragment.image_data f); [|left; congruence].
  destruct (get_transformed_image f) as [img|] eqn:Hi; [|left; congruence].
  destruct (numpy_to_pixmap image_shape to_pixmap img) as [[px|]|] eqn:Hn;
    cbn [mbind option_bind]; [| left; congruence | discriminate].
  intros H. right. exists f, img. apply numpy_to_pixmap_result in Hn. subst px.
  apply get_fragment_by_id_id in Hf as Hid. destruct Hid as [_ Hid].
  rewrite Hid in H. injection H as <-. auto.
Qed.

Lemma render_fold_None c (ks : list string) :
  fold_left (render_round image_shape get_transformed_image to_pixmap c) ks None = None.
Proof. induction ks as [|i ks IH]; [reflexivity|]. cbn [fold_left]. exact IH. Qed.

(** The entries of a key are as before the loop, or the loop rendered
    the key. *)
Lemma render_fold_cases c (ks : list string) rc rc' :
  fold_left (render_round image_shape get_transformed_image to_pixmap c) ks (Some rc) = Some rc' ->
  dirty_fragments rc' = dirty_fragments rc
  ∧ ∀ k, (fragment_pixmaps rc' !! k = fragment_pixmaps rc !! k
          ∧ fragment_zoom_cache rc' !! k = fragment_zoom_cache rc !! k)
         ∨ (k ∈ ks
            ∧ ∃ f img, get_fragment_by_id c k = Some f ∧ Fragment.visible f = true
                       ∧ get_transformed_image f = Some img
                       ∧ fragment_pixmaps rc' !! k = Some (to_pixmap img)
                       ∧ fragment_zoom_cache rc' !! k = Some (zoom c)).
Proof.
  revert rc. induction ks as [|i ks IH]; intros rc H.
  - cbn [fold_left] in H. injection H as <-. split; [reflexivity|]. intros k. left. auto.
  - cbn [fold_left] in H.
    destruct (render_round image_shape get_transformed_image to_pixmap c (Some rc) i) as [rc1|] eqn:Hr;
      [|rewrite render_fold_None in H; discriminate].
    destruct (IH rc1 H) as [Hd Hk].
    apply render_round_cases in Hr.
    split.
    { rewrite Hd. destruct Hr as [->|(f & img & _ & _ & _ & ->)]; reflexivity. }
    intros k. destruct (Hk k) as [[Hp Hz]|[Hin Hrest]].
    + destruct Hr as [->|(f & img & Hf & Hv & Hi & ->)]; [left; auto|].
      cbn [fragment_pixmaps fragment_zoom_cache] in Hp, Hz.
      destruct (decide (i = k)) as [->|Hne].
      * right. split; [apply list_elem_of_here|]. exists f, img.
        rewrite Hp, Hz, !lookup_insert_eq. auto.
      * left. rewrite Hp, Hz, !lookup_insert_ne by exact Hne. auto.
    + right. split; [apply list_elem_of_further, Hin | exact Hrest].
Qed.

(** A key that the loop visits, and whose fragment has a colour image,
    ends up rendered. *)
Lemma render_fold_renders c (ks : list string) rc rc' k f img h w ch :
  fold_left (render_round image_shape get_transformed_image to_pixmap c) ks (Some rc) = Some rc' ->
  k ∈ ks ->
  get_fragment_by_id c k = Some f -> Fragment.visible f = true ->
  is_Some (Fragment.image_data f) ->
  get_transformed_image f = Some img ->
  image_shape img = [h; w; ch] -> h * w <> 0 -> ch = 3 ∨ ch = 4 ->
  fragment_pixmaps rc' !! k = Some (to_pixmap img)
  ∧ fragment_zoom_cache rc' !! k = Some (zoom c).
Proof.
  intros H Hin Hf Hv [d Hd] Hi Hs Hhw Hch.
  revert rc H. induction ks as [|i ks IH]; intros rc H; [inversion Hin|].
  cbn [fold_left] in H.
  destruct (render_round image_shape get_transformed_image to_pixmap c (Some rc) i) as [rc1|] eqn:Hr;
    [|rewrite render_fold_None in H; discriminate].
  destruct (decide (k ∈ ks)) as [Hin'|Hnin]; [exact (IH Hin' rc1 H)|].
  assert (i = k) as -> by (apply elem_of_cons in Hin as [->|?]; [reflexivity|contradiction]).
  destruct (render_fold_cases c ks rc1 rc' H) as [_ Hk].
  destruct (Hk k) as [[Hp Hz]|[Hin' _]]; [|contradiction].
  rewrite Hp, Hz.
  unfold render_round in Hr. cbn [mbind option_bind] in Hr.
  rewrite Hf, Hv in Hr. unfold render_fragment_pixmap in Hr.
  rewrite Hd, Hi, (numpy_to_pixmap_colour img h w ch Hs Hhw Hch) in Hr.
  cbn [mbind option_bind] in Hr. injection Hr as <-.
  apply get_fragment_by_id_id in Hf as [_ ->].
  cbn [fragment_pixmaps fragment_zoom_cache]. rewrite !lookup_insert_eq. auto.
Qed.

Lemma render_fold_returns c (ks : list string) rc :
  (∀ f img, get_transformed_image f = Some img ->
            (2 <= length (image_shape img))%nat) ->
  is_Some (fold_left (render_round image_shape get_transformed_image to_pixmap c) ks (Some rc)).
Proof.
  intros Hdim. revert rc. induction ks as [|i ks IH]; intros rc; [cbn; eauto|].
  cbn [fold_left].
  assert (is_Some (render_round image_shape get_transformed_image to_pixmap c (Some rc) i)) as [rc1 ->]; [|apply IH].
  unfold render_round. cbn [mbind option_bind].
  destruct (get_fragment_by_id c i) as [f|]; [|eauto].
  destruct (Fragment.visible f); [|eauto].
  unfold render_fragment_pixmap.
  destruct (Fragment.image_data f); [|eauto].
  destruct (get_transformed_image f) as [img|] eqn:Hi; [|eauto].
  destruct (numpy_to_pixmap_returns img (Hdim f img Hi)) as [[px|] ->];
    cbn [mbind option_bind]; eauto.
Qed.

Lemma render_dirty_cases c rc rc' :
  render_dirty_fragments image_shape get_transformed_image to_pixmap c rc = Some rc' ->
  dirty_fragments rc' = ∅
  ∧ ∀ k, (fragment_pixmaps rc' !! k = fragment_pixmaps rc !! k
          ∧ fragment_zoom_cache rc' !! k = fragment_zoom_cache rc !! k)
         ∨ (k ∈ dirty_fragments rc
            ∧ ∃ f img, get_fragment_by_id c k = Some f
                       ∧ Fragment.visible f = true
                       ∧ get_transformed_image f = Some img
                       ∧ fragment_pixmaps rc' !! k = Some (to_pixmap img)
                       ∧ fragment_zoom_cache rc' !! k = Some (zoom c)).
Proof.
  unfold render_dirty_fragments.
  destruct (bool_decide (dirty_fragments rc = ∅)) eqn:He.
  - intros [= <-]. apply bool_decide_eq_true_1 in He.
    split; [exact He|]. intros k; left; auto.
  - destruct (fold_left _ (elements (dirty_fragments rc)) (Some rc)) as [rc1|] eqn:Hfold;
      cbn [mbind option_bind]; [|discriminate].
    intros [= <-]. cbn [dirty_fragments fragment_pixmaps fragment_zoom_cache].
    split; [reflexivity|].
    intros k. destruct (render_fold_cases c _ rc rc1 Hfold) as [_ Hk].
    destruct (Hk k) as [?|[Hin ?]]; [left; assumption|].
    right. split; [apply elem_of_elements, Hin | assumption].
Qed.

(** X22.  [render_dirty_fragments] returns at once on an empty dirty
    set; it returns whenever every transformed image has at least two
    dimensions; and when it returns the dirty set is empty, every key
    has its old entries or (being dirty, with a visible fragment on the
    canvas) the pixmap of its fragment's transformed image together
    with the current zoom, and a dirty key whose visible fragment has a
    non-empty three- or four-channel image is rendered. *)
Theorem render_dirty_fragments_effect c rc :
  (dirty_fragments rc = ∅ -> render_dirty_fragments image_shape get_transformed_image to_pixmap c rc = Some rc)
  ∧ ((∀ f img, get_transformed_image f = Some img ->
               (2 <= length (image_shape img))%nat) ->
     is_Some (render_dirty_fragments image_shape get_transformed_image to_pixmap c rc))
  ∧ (∀ rc', render_dirty_fragments image_shape get_transformed_image to_pixmap c rc = Some rc' ->
       dirty_fragments rc' = ∅
       ∧ (∀ k, (fragment_pixmaps rc' !! k = fragment_pixmaps rc !! k
                ∧ fragment_zoom_cache rc' !! k = fragment_zoom_cache rc !! k)
               ∨ (k ∈ dirty_fragments rc
                  ∧ ∃ f img, get_fragment_by_id c k = Some f
                             ∧ Fragment.visible f = true
                             ∧ get_transformed_image f = Some img
                             ∧ fragment_pixmaps rc' !! k = Some (to_pixmap img)
                             ∧ fragment_zoom_cache rc' !! k = Some (zoom c)))
       ∧ (∀ k f img h w ch,
            k ∈ dirty_fragments rc ->
            get_fragment_by_id c k = Some f -> Fragment.visible f = true ->
            is_Some (Fragment.image_data f) ->
            get_transformed_image f = Some img ->
            image_shape img = [h; w; ch] -> h * w <> 0 -> ch = 3 ∨ ch = 4 ->
            fragment_pixmaps rc' !! k = Some (to_pixmap img)
            ∧ fragment_zoom_cache rc' !! k = Some (zoom c))).
Proof.
  unfold render_dirty_fragments. split; [|split].
  - intros ->. rewrite bool_decide_eq_true_2 by reflexivity. reflexivity.
  - intros Hdim. destruct (bool_decide (dirty_fragments rc = ∅)); [eauto|].
    destruct (render_fold_returns c (elements (dirty_fragments rc)) rc Hdim) as [rc1 ->].
    cbn [mbind option_bind]. eauto.
  - intros rc'. destruct (bool_decide (dirty_fragments rc = ∅)) eqn:He.
    + intros [= <-]. apply bool_decide_eq_true_1 in He.
      split; [exact He|]. split; [intros k; left; auto|].
      intros k f img h w ch Hk. rewrite He in Hk. set_solver.
    + intros Hr.
      assert (Hr' : render_dirty_fragments image_shape get_transformed_image to_pixmap c rc = Some rc').
      { unfold render_dirty_fragments. rewrite He. exact Hr. }
      destruct (render_dirty_cases c rc rc' Hr') as [Hd Hk].
      split; [exact Hd|]. split; [exact Hk|].
      destruct (fold_left _ (elements (dirty_fragments rc)) (Some rc)) as [rc1|] eqn:Hfold;
        cbn [mbind option_bind] in Hr; [|discriminate].
      injection Hr as <-. cbn [fragment_pixmaps fragment_zoom_cache].
      intros k f img h w ch Hkin. apply elem_of_elements in Hkin.
      exact (render_fold_renders c _ rc rc1 k f img h w ch Hfold Hkin).
Qed.

(** X21.  Every zoom-cache entry belongs to a cached pixmap: this holds
    of the empty cache and is kept by [update_fragments],
    [invalidate_fragment], [clear_cache], [on_fragment_rendered] and
    [render_dirty_fragments]. *)
Theorem zoom_cache_covered_kept c rc :
  zoom_cache_covered rc ->
  (∀ new, zoom_cache_covered (update_fragments c rc new).2)
  ∧ (∀ k, zoom_cache_covered (invalidate_fragment rc k))
  ∧ zoom_cache_covered (clear_cache c rc)
  ∧ (∀ k px, zoom_cache_covered (on_fragment_rendered rc k px))
  ∧ (∀ rc', render_dirty_fragments image_shape get_transformed_image to_pixmap c rc = Some rc' -> zoom_cache_covered rc').
Proof.
  intros Hcov. split; [|split; [|split; [|split]]].
  - intros new k. destruct (update_fragments_lookup c rc new k) as (H1 & H2 & _).
    cbv zeta in H1, H2. rewrite H1, H2. destruct (_ || _); [|apply Hcov].
    intros [? ?]; discriminate.
  - intros i k. unfold invalidate_fragment, pop_pixmap.
    cbn [fragment_pixmaps fragment_zoom_cache].
    destruct (decide (i = k)) as [->|Hne].
    + rewrite !lookup_delete_eq. intros [? ?]; discriminate.
    + rewrite !lookup_delete_ne by exact Hne. apply Hcov.
  - intros k. unfold clear_cache. cbn [fragment_zoom_cache].
    rewrite lookup_empty. intros [? ?]; discriminate.
  - intros i px k. unfold on_fragment_rendered.
    cbn [fragment_pixmaps fragment_zoom_cache]. intros Hz.
    destruct (decide (i = k)) as [->|Hne].
    + rewrite lookup_insert_eq. eauto.
    + rewrite lookup_insert_ne by exact Hne. apply Hcov, Hz.
  - intros rc' Hr k.
    destruct (render_dirty_cases c rc rc' Hr) as [_ Hk].
    destruct (Hk k) as [[-> ->]|(_ & f & img & _ & _ & _ & -> & _)];
      [apply Hcov | eauto].
Qed.

End RenderFacts.

Section RenderVisibleFacts.
Import CanvasWidget.
Context {Pixmap Image : Type}.
Variable image_shape : Image -> list Z.
Variable get_transformed_image : Fragment.t -> option Image.
Variable to_pixmap : Image -> Pixmap.
Implicit Types (c : CanvasWidget.t) (rc : cache Pixmap) (k : string) (f : Fragment.t).

(** X23.  After [update_fragments] every cached pixmap belongs to a
    visible fragment of the new list, provided the cache held pixmaps
    only for ids the canvas showed; and [invalidate_fragment],
    [clear_cache] and [render_dirty_fragments] keep every cached pixmap
    on a visible fragment of the canvas. *)
Theorem pixmaps_of_visible_kept c rc :
  (∀ k, is_Some (fragment_pixmaps rc !! k) -> is_Some (get_fragment_by_id c k)) ->
  (∀ new, pixmaps_of_visible (update_fragments c rc new).1 (update_fragments c rc new).2)
  ∧ (pixmaps_of_visible c rc ->
     (∀ k, pixmaps_of_visible c (invalidate_fragment rc k))
     ∧ pixmaps_of_visible c (clear_cache c rc)
     ∧ (∀ rc', render_dirty_fragments image_shape get_transformed_image to_pixmap c rc
               = Some rc' ->
               pixmaps_of_visible c rc')).
Proof.
  intros Hlisted. split.
  - intros new k Hk.
    destruct (update_fragments_lookup c rc new k) as (H1 & _).
    cbv zeta in H1. rewrite H1 in Hk.
    destruct (existsb _ new) eqn:He; cbn [orb] in Hk; [destruct Hk; discriminate|].
    destruct (bool_decide (k ∈ elements _)) eqn:Hd; [destruct Hk; discriminate|].
    apply bool_decide_eq_false_1 in Hd.
    rewrite elem_of_elements, elem_of_difference in Hd.
    assert (Hnew : k ∈ (list_to_set (Fragment.id <$> new) : gset string)).
    { destruct (decide (k ∈ (list_to_set (Fragment.id <$> new) : gset string)))
        as [?|Hn]; [assumption|].
      exfalso. apply Hd. split; [|exact Hn].
      apply get_fragment_by_id_listed, Hlisted, Hk. }
    assert (Hsome : is_Some (get_fragment_by_id (update_fragments c rc new).1 k)).
    { apply get_fragment_by_id_listed. exact Hnew. }
    destruct Hsome as [f Hf]. exists f. split; [exact Hf|].
    apply get_fragment_by_id_id in Hf as [Hin Hid].
    change (fragments (update_fragments c rc new).1) with new in Hin.
    destruct (Fragment.visible f) eqn:Hv; [reflexivity|]. exfalso.
    assert (existsb (fun f0 => bool_decide (Fragment.id f0 = k)
                               && (needs_update c f0 || negb (Fragment.visible f0)))
                    new = true) as He'; [|congruence].
    apply existsb_exists. exists f. split; [apply list_elem_of_In, Hin|].
    rewrite Hv, bool_decide_eq_true_2 by exact Hid. apply orb_true_r.
  - intros Hpov. split; [|split].
    + intros i k. unfold invalidate_fragment, pop_pixmap. cbn [fragment_pixmaps].
      destruct (decide (i = k)) as [->|Hne].
      * rewrite lookup_delete_eq. intros [? ?]; discriminate.
      * rewrite lookup_delete_ne by exact Hne. apply Hpov.
    + intros k. unfold clear_cache. cbn [fragment_pixmaps].
      rewrite lookup_empty. intros [? ?]; discriminate.
    + intros rc' Hr k.
      destruct (render_dirty_cases image_shape get_transformed_image to_pixmap
                  c rc rc' Hr) as [_ Hk].
      destruct (Hk k) as [[-> _]|(_ & f & img & Hf & Hv & _)]; [apply Hpov|].
      intros _. exists f. auto.
Qed.

End RenderVisibleFacts.

Lemma wheelEvent_at_clamp_example :
  CanvasWidget.wheelEvent (CanvasWidget.set_zoom 50 Scene.canvas) (QPoint.mk 120 60) 120
  = Some (CanvasWidget.set_zoom 50 Scene.canvas, []).
Proof.
  apply (proj1 (wheelEvent_at_clamp (CanvasWidget.set_zoom 50 Scene.canvas)
                  (QPoint.mk 120 60) 120 eq_refl eq_refl ltac:(discriminate)));
    [reflexivity | lia].
Defined.

Lemma zoom_cache_covered_kept_example :
  CanvasWidget.zoom_cache_covered
    (CanvasWidget.invalidate_fragment
       (CanvasWidget.on_fragment_rendered (CanvasWidget.empty_cache Z) "a" 7) "b").
Proof.
  refine (proj1 (proj2 (zoom_cache_covered_kept (fun _ : Z => []) (fun _ => None)
                          (fun z : Z => z) Scene.canvas_one
                          (CanvasWidget.on_fragment_rendered
                             (CanvasWidget.empty_cache Z) "a" 7) _)) "b").
  intros k. cbn [CanvasWidget.on_fragment_rendered CanvasWidget.empty_cache
                 CanvasWidget.fragment_zoom_cache].
  rewrite lookup_empty. intros [? ?]; discriminate.
Defined.

Lemma pixmaps_of_visible_kept_example :
  CanvasWidget.pixmaps_of_visible
    (CanvasWidget.update_fragments Scene.canvas_group
       (CanvasWidget.on_fragment_rendered (CanvasWidget.empty_cache Z) "a" 7)
       [Fragment.set_visible false (Scene.fragment "a" (1 # 2) 0 false)]).1
    (CanvasWidget.update_fragments Scene.canvas_group
       (CanvasWidget.on_fragment_rendered (CanvasWidget.empty_cache Z) "a" 7)
       [Fragment.set_visible false (Scene.fragment "a" (1 # 2) 0 false)]).2.
Proof.
  refine (proj1 (pixmaps_of_visible_kept (fun _ : Z => []) (fun _ => None)
                   (fun z : Z => z) Scene.canvas_group
                   (CanvasWidget.on_fragment_rendered (CanvasWidget.empty_cache Z) "a" 7)
                   _) _).
  intros k. cbn [CanvasWidget.on_fragment_rendered CanvasWidget.empty_cache
                 CanvasWidget.fragment_pixmaps].
  destruct (decide ("a" = k)) as [<-|Hne].
  - intros _. vm_compute. eauto.
  - rewrite lookup_insert_ne, lookup_empty by exact Hne. intros [? ?]; discriminate.
Defined.

Lemma update_fragments_cache_policy_example :
  let rc' :=
    (CanvasWidget.update_fragments Scene.canvas_group
       (CanvasWidget.on_fragment_rendered
          (CanvasWidget.on_fragment_rendered (CanvasWidget.empty_cache Z) "a" 7) "b" 8)
       [Scene.fragment "a" 3 4 false;
        Fragment.set_rotation 90 (Scene.fragment "b" 10 0 false)]).2 in
  CanvasWidget.fragment_pixmaps rc' !! "a" = Some 7
  ∧ CanvasWidget.fragment_pixmaps rc' !! "b" = None
  ∧ "b" ∈ CanvasWidget.dirty_fragments rc'.
Proof.
  cbv zeta.
  destruct (update_fragments_cache_policy Scene.canvas_group
              (CanvasWidget.on_fragment_rendered
                 (CanvasWidget.on_fragment_rendered (CanvasWidget.empty_cache Z) "a" 7)
                 "b" 8)
              [Scene.fragment "a" 3 4 false;
               Fragment.set_rotation 90 (Scene.fragment "b" 10 0 false)])
    as (_ & _ & Hdrop & _ & Hdirty & Hkeep).
  split; [|split].
  - destruct (Hkeep "a") as (-> & _).
    + exists (Scene.fragment "a" 3 4 false). split; [apply list_elem_of_here|reflexivity].
    + intros f Hin Hid. apply elem_of_cons in Hin as [->|Hin].
      * split; [reflexivity|]. split; [reflexivity|].
        exists (Scene.fragment "a" (1 # 2) 0 false).
        repeat split; try reflexivity. vm_compute. discriminate.
      * apply list_elem_of_singleton in Hin. subst f. discriminate Hid.
    + reflexivity.
  - apply (Hdrop (Fragment.set_rotation 90 (Scene.fragment "b" 10 0 false))).
    + apply list_elem_of_further, list_elem_of_here.
    + left. reflexivity.
  - apply Hdirty. right.
    exists (Fragment.set_rotation 90 (Scene.fragment "b" 10 0 false)).
    split; [apply list_elem_of_further, list_elem_of_here|]. split; reflexivity.
Defined.

Lemma render_dirty_fragments_effect_example :
  ∃ rc',
    CanvasWidget.render_dirty_fragments
      (fun image : Z * Z * Z => [image.1.1; image.1.2; image.2])
      Fragment.image_data (fun image => image)
      Scene.canvas_one
      (CanvasWidget.invalidate_fragment (CanvasWidget.empty_cache (Z * Z * Z)) "a")
    = Some rc'
    ∧ CanvasWidget.dirty_fragments rc' = ∅
    ∧ CanvasWidget.fragment_pixmaps rc' !! "a" = Some (20, 20, 4)
    ∧ CanvasWidget.fragment_zoom_cache rc' !! "a" = Some 1%Q.
Proof.
  destruct (render_dirty_fragments_effect
              (fun image : Z * Z * Z => [image.1.1; image.1.2; image.2])
              Fragment.image_data (fun image => image)
              Scene.canvas_one
              (CanvasWidget.invalidate_fragment (CanvasWidget.empty_cache (Z * Z * Z)) "a"))
    as (_ & Hreturns & Heffect).
  destruct Hreturns as [rc' Hr]; [intros f image _; cbn [length]; lia|].
  exists rc'. split; [exact Hr|].
  destruct (Heffect rc' Hr) as (Hdirty & _ & Hrendered).
  split; [exact Hdirty|].
  apply (Hrendered "a" (Scene.fragment "a" 0 0 false) (20, 20, 4) 20 20 4).
  - vm_compute. set_solver.
  - reflexivity.
  - reflexivity.
  - eexists; reflexivity.
  - reflexivity.
  - reflexivity.
  - lia.
  - right; reflexivity.
Defined.

Section GroupTransform.
Import CanvasWidget.
Implicit Types (c : CanvasWidget.t) (k : string).

Lemma flat_map_singleton {A B} (g : A -> B) (l : list A) :
  flat_map (fun a => [g a]) l = g <$> l.
Proof. induction l as [|a l IH]; [reflexivity|]. cbn. rewrite IH. reflexivity. Qed.

(** X25.  [apply_transform_to_selection] emits nothing when nothing is
    selected, and nothing for a group of several fragments unless the
    transform is one of the two rotations: a flip of a group is
    dropped.  For a single selected fragment it emits that fragment's
    id and no more, whatever the transform; for a group rotation it
    emits one tagged signal for each member. *)
Theorem apply_transform_to_selection_cases c (transform_type : string) :
  (get_selected_fragments c = ∅ -> apply_transform_to_selection c transform_type = [])
  ∧ ((1 < size (get_selected_fragments c))%nat ->
     transform_type ≠ "rotate_cw"%string -> transform_type ≠ "rotate_ccw"%string ->
     apply_transform_to_selection c transform_type = [])
  ∧ (∀ k, get_selected_fragments c = {[ k ]} ->
          apply_transform_to_selection c transform_type = [fragment_selected k])
  ∧ ((1 < size (get_selected_fragments c))%nat ->
     ∀ tag, (transform_type, tag) ∈ [("rotate_cw", "group_rotate_cw:");
                                     ("rotate_ccw", "group_rotate_ccw:")]%string ->
     length (apply_transform_to_selection c transform_type)
     = size (get_selected_fragments c)
     ∧ ∀ s, s ∈ apply_transform_to_selection c transform_type
            <-> ∃ k, k ∈ get_selected_fragments c
                     ∧ s = fragment_selected (tag +:+ k)).
Proof.
  unfold apply_transform_to_selection. cbv zeta.
  split; [|split; [|split]].
  - intros ->. rewrite bool_decide_eq_true_2 by reflexivity. reflexivity.
  - intros Hsize Hcw Hccw.
    destruct (bool_decide (get_selected_fragments c = ∅)); [reflexivity|].
    rewrite (bool_decide_eq_false_2 (transform_type ∈ _)).
    + rewrite andb_false_r.
      destruct (Nat.eqb_spec (size (get_selected_fragments c)) 1); [lia|reflexivity].
    + rewrite !elem_of_cons, elem_of_nil. tauto.
  - intros k ->.
    rewrite bool_decide_eq_false_2 by (apply non_empty_singleton_L).
    rewrite size_singleton. cbn [Nat.ltb Nat.leb andb Nat.eqb].
    rewrite elements_singleton. reflexivity.
  - intros Hsize tag Htag.
    assert (Hne : get_selected_fragments c ≠ ∅).
    { intros He. rewrite He, size_empty in Hsize. lia. }
    rewrite (bool_decide_eq_false_2 _ Hne).
    destruct (Nat.ltb_spec 1 (size (get_selected_fragments c))) as [_|?]; [|lia].
    cbn [andb].
    assert (Hmap :
      (if bool_decide (transform_type ∈ ["rotate_cw"; "rotate_ccw"]%string)
       then flat_map
              (fun frag_id =>
                 if bool_decide (transform_type = "rotate_cw"%string)
                 then [fragment_selected ("group_rotate_cw:" +:+ frag_id)]
                 else if bool_decide (transform_type = "rotate_ccw"%string)
                      then [fragment_selected ("group_rotate_ccw:" +:+ frag_id)]
                      else [])
              (elements (get_selected_fragments c))
       else if (size (get_selected_fragments c) =? 1)%nat
            then match elements (get_selected_fragments c) with
                 | frag_id :: _ => [fragment_selected frag_id]
                 | [] => []
                 end
            else [])
      = (fun k => fragment_selected (tag +:+ k)) <$> elements (get_selected_fragments c)).
    { rewrite !elem_of_cons, elem_of_nil in Htag.
      destruct Htag as [[= -> ->]|[[= -> ->]|[]]]; cbn [bool_decide decide_rel];
        apply (flat_map_singleton (fun k => fragment_selected (_ +:+ k))). }
    rewrite Hmap. split.
    + rewrite length_fmap. reflexivity.
    + intros s. rewrite list_elem_of_fmap. split.
      * intros (k & -> & Hk). exists k. split; [apply elem_of_elements, Hk|reflexivity].
      * intros (k & Hk & ->). exists k. split; [reflexivity|apply elem_of_elements, Hk].
Qed.

End GroupTransform.

Lemma apply_transform_to_selection_cases_example :
  CanvasWidget.apply_transform_to_selection Scene.canvas_group "flip_horizontal" = []
  ∧ length (CanvasWidget.apply_transform_to_selection Scene.canvas_group "rotate_cw")
    = 2%nat.
Proof.
  destruct (apply_transform_to_selection_cases Scene.canvas_group "flip_horizontal")
    as (_ & Hflip & _).
  destruct (apply_transform_to_selection_cases Scene.canvas_group "rotate_cw")
    as (_ & _ & _ & Hrot).
  split.
  - apply Hflip; [vm_compute; lia | discriminate | discriminate].
  - destruct (Hrot ltac:(vm_compute; lia) "group_rotate_cw:"%string) as [-> _].
    + apply list_elem_of_here.
    + vm_compute. reflexivity.
Defined.
